(** * Workspace trust: the trust store, the aggregation and the request
    coordinator of [vs/platform/workspace/common/workspaceTrust.ts].

    The three classes of the file are embedded as records with explicit
    state passing:
    - [WorkspaceTrustModel]         (the per-folder trust store),
    - [WorkspaceTrustRequestModel]  (the one-slot request coordinator),
    - [WorkspaceTrustService]       (the facade that owns both).

    Emitters are modelled by the list of notifications a call fires, in
    firing order; the listeners registered in the constructors are run at
    the point of the [fire].  Promises are cells of a heap indexed by
    allocation order. *)

From Stdlib Require Import List String ZArith Bool Arith Lia Permutation.
Import ListNotations.

Local Open Scope string_scope.
Local Open Scope list_scope.

(* ===================================================================== *)
(** * Enumerations and interfaces *)
(* ===================================================================== *)

(** [enum WorkspaceTrustScope { Local = 0, Remote = 1 }] *)
Inductive WorkspaceTrustScope := Local | Remote.

(** [enum WorkspaceTrustState { Untrusted = 0, Trusted = 1, Unknown = 2 }] *)
Inductive WorkspaceTrustState := Untrusted | Trusted | Unknown.

Definition WorkspaceTrustState_value (t : WorkspaceTrustState) : Z :=
  match t with Untrusted => 0 | Trusted => 1 | Unknown => 2 end.

Definition WorkspaceTrustState_of_value (n : Z) : option WorkspaceTrustState :=
  if (n =? 0)%Z then Some Untrusted
  else if (n =? 1)%Z then Some Trusted
  else if (n =? 2)%Z then Some Unknown
  else None.

(** [===] on two members of the enum. *)
Definition trustState_eqb (a b : WorkspaceTrustState) : bool :=
  match a, b with
  | Untrusted, Untrusted | Trusted, Trusted | Unknown, Unknown => true
  | _, _ => false
  end.

(** [interface IWorkspaceTrustRequest { immediate: boolean; message?: string }] *)
Record IWorkspaceTrustRequest := {
  immediate : bool;
  message : option string
}.

(** One element of [IWorkspaceTrustStateInfo.localFolders]. *)
Record FolderInfo := {
  uri : string;
  trustState : WorkspaceTrustState
}.

(** [interface IWorkspaceTrustStateInfo { localFolders: {...}[] }] *)
Record IWorkspaceTrustStateInfo := {
  localFolders : list FolderInfo
}.

(** [WorkbenchState] of the workspace context service. *)
Inductive WorkbenchState := EMPTY | FOLDER | WORKSPACE.

Definition WORKSPACE_TRUST_STORAGE_KEY : string := "content.trust.model.key".

(* ===================================================================== *)
(** * JavaScript values read from the persisted text *)
(* ===================================================================== *)

(** The values [JSON.parse] can return.  Numbers are restricted to the
    integers: the code only tests a number for truthiness and compares it
    with the members of [WorkspaceTrustState], where a number that is not an
    integer behaves like an integer other than 0, 1 and 2.  An array is an
    object and can carry named properties next to its items ([props]);
    [JSON.parse] yields arrays without any.  [props] lists the own
    properties of an object; a key is looked up at its first binding. *)
#[local] Unset Elimination Schemes.
Inductive JSValue :=
| JNull
| JBool (b : bool)
| JNum (n : Z)
| JStr (s : string)
| JArr (items : list JSValue) (props : list (string * JSValue))
| JObj (props : list (string * JSValue)).
#[local] Set Elimination Schemes.

(** ToBoolean. *)
Definition truthy (v : JSValue) : bool :=
  match v with
  | JNull => false
  | JBool b => b
  | JNum n => negb (n =? 0)%Z
  | JStr s => negb (s =? "")
  | JArr _ _ | JObj _ => true
  end.

(** How a call ends: with a value, or by throwing.  [IllTyped] is not a
    JavaScript exception: it marks a value that was cast to a TypeScript
    type it does not inhabit, where the typed embedding stops. *)
Inductive Failure := SyntaxError | TypeError | IllTyped.

Inductive Completion (A : Type) :=
| Normal (a : A)
| Throw (e : Failure).
Arguments Normal {A} a.
Arguments Throw {A} e.

Definition bind {A B} (c : Completion A) (k : A -> Completion B) : Completion B :=
  match c with
  | Normal a => k a
  | Throw e => Throw e
  end.

Declare Scope js_scope.
Delimit Scope js_scope with js.
Notation "x <- c ;; k" := (bind c (fun x => k))
  (at level 61, c at next level, right associativity) : js_scope.
Notation "' pat <- c ;; k" := (bind c (fun x => match x with pat => k end))
  (at level 61, pat pattern, c at next level, right associativity) : js_scope.
Local Open Scope js_scope.

(** [try { body } catch { }] around a body that computes [A]; [otherwise]
    is what the variable assigned in the body holds when the body threw. *)
Definition try_catch {A} (body : Completion A) (otherwise : A) : A :=
  match body with
  | Normal a => a
  | Throw _ => otherwise
  end.

Fixpoint assoc (key : string) (props : list (string * JSValue)) : option JSValue :=
  match props with
  | [] => None
  | (k, v) :: rest => if k =? key then Some v else assoc key rest
  end.

Fixpoint assoc_set (key : string) (v : JSValue) (props : list (string * JSValue))
  : list (string * JSValue) :=
  match props with
  | [] => [(key, v)]
  | (k, w) :: rest =>
      if k =? key then (k, v) :: rest else (k, w) :: assoc_set key v rest
  end.

(** [o.key] for a key that no prototype defines ([localFolders], [uri],
    [trustState]); [None] is [undefined]. *)
Definition getProp (o : JSValue) (key : string) : Completion (option JSValue) :=
  match o with
  | JNull => Throw TypeError
  | JBool _ | JNum _ | JStr _ => Normal None
  | JArr _ props | JObj props => Normal (assoc key props)
  end.

(** [o.key = v] in strict code (a class body is strict code): creating a
    property on a primitive throws. *)
Definition setProp (o : JSValue) (key : string) (v : JSValue) : Completion JSValue :=
  match o with
  | JNull | JBool _ | JNum _ | JStr _ => Throw TypeError
  | JArr items props => Normal (JArr items (assoc_set key v props))
  | JObj props => Normal (JObj (assoc_set key v props))
  end.

(** A persisted text, up to what the code does with it: it tests it for
    truthiness and hands it to [JSON.parse].  [JsonText v] is a text that
    [JSON.parse] reads as [v]; [Malformed] is a non-empty text on which
    [JSON.parse] throws. *)
Inductive StoredText :=
| EmptyText
| Malformed
| JsonText (v : JSValue).

Definition text_truthy (s : StoredText) : bool :=
  match s with EmptyText => false | Malformed | JsonText _ => true end.

Definition JSON_parse (s : StoredText) : Completion JSValue :=
  match s with
  | JsonText v => Normal v
  | EmptyText | Malformed => Throw SyntaxError
  end.

(** [JSON.stringify] of a value made of plain objects, arrays, strings and
    numbers is a text that [JSON.parse] reads back as an equal value. *)
Definition JSON_stringify (v : JSValue) : StoredText := JsonText v.

(* ===================================================================== *)
(** * The cast between parsed values and [IWorkspaceTrustStateInfo] *)
(* ===================================================================== *)

Definition FolderInfo_toJS (info : FolderInfo) : JSValue :=
  JObj [("uri", JStr (uri info));
        ("trustState", JNum (WorkspaceTrustState_value (trustState info)))].

(** The in-memory object that [trustStateInfo] denotes. *)
Definition toJS (info : IWorkspaceTrustStateInfo) : JSValue :=
  JObj [("localFolders", JArr (map FolderInfo_toJS (localFolders info)) [])].

Definition asFolderInfo (v : JSValue) : option FolderInfo :=
  match v with
  | JObj props =>
      match assoc "uri" props, assoc "trustState" props with
      | Some (JStr u), Some (JNum n) =>
          match WorkspaceTrustState_of_value n with
          | Some t => Some {| uri := u; trustState := t |}
          | None => None
          end
      | _, _ => None
      end
  | _ => None
  end.

Fixpoint asFolderInfos (items : list JSValue) : option (list FolderInfo) :=
  match items with
  | [] => Some []
  | v :: rest =>
      match asFolderInfo v, asFolderInfos rest with
      | Some info, Some infos => Some (info :: infos)
      | _, _ => None
      end
  end.

(** The unchecked cast [result: IWorkspaceTrustStateInfo] made explicit:
    [v] is an object whose [localFolders] is an array of
    [{ uri: string, trustState: 0|1|2 }]. *)
Definition asTrustStateInfo (v : JSValue) : Completion IWorkspaceTrustStateInfo :=
  match v with
  | JObj props =>
      match assoc "localFolders" props with
      | Some (JArr items []) =>
          match asFolderInfos items with
          | Some infos => Normal {| localFolders := infos |}
          | None => Throw IllTyped
          end
      | _ => Throw IllTyped
      end
  | _ => Throw IllTyped
  end.

(* ===================================================================== *)
(** * Notifications *)
(* ===================================================================== *)

(** What a call makes observable outside the three classes, in order. *)
Inductive Effect :=
| StorageStore (key : string) (value : StoredText)
    (** [storageService.store(key, value, GLOBAL, MACHINE)] *)
| ModelDidChangeTrustState
    (** [WorkspaceTrustModel._onDidChangeTrustState.fire()] *)
| DidInitiateRequest
    (** [WorkspaceTrustRequestModel._onDidInitiateRequest.fire()] *)
| DidCompleteRequest (trustState : option WorkspaceTrustState)
    (** [WorkspaceTrustRequestModel._onDidCompleteRequest.fire(trustState)] *)
| DidChangeTrustState (previousTrustState currentTrustState : WorkspaceTrustState)
    (** [WorkspaceTrustService._onDidChangeTrustState.fire({...})] *).

(* ===================================================================== *)
(** * class WorkspaceTrustModel *)
(* ===================================================================== *)

(** [storageService] is the value the storage service holds under
    [storageKey] ([None]: no value); [trustStateInfo] is the private
    field. *)
Record WorkspaceTrustModel := {
  storageService : option StoredText;
  trustStateInfo : IWorkspaceTrustStateInfo
}.

Definition emptyInfo : JSValue := JObj [("localFolders", JArr [] [])].

Definition is_truthy (v : option JSValue) : bool :=
  match v with Some w => truthy w | None => false end.

(** [private loadTrustInfo(): IWorkspaceTrustStateInfo], before the cast. *)
Definition loadTrustInfo (storage : option StoredText) : Completion JSValue :=
  let infoAsString := storage in
  let result : option JSValue :=
    try_catch
      (match infoAsString with
       | Some text =>
           if text_truthy text
           then (v <- JSON_parse text ;; Normal (Some v))
           else Normal None
       | None => Normal None
       end)
      None in
  let result : JSValue :=
    if negb (is_truthy result) then emptyInfo
    else match result with Some v => v | None => emptyInfo end in
  folders <- getProp result "localFolders" ;;
  if negb (is_truthy folders)
  then setProp result "localFolders" (JArr [] [])
  else Normal result.

(** [this.trustStateInfo = this.loadTrustInfo()] *)
Definition load (storage : option StoredText) : Completion IWorkspaceTrustStateInfo :=
  v <- loadTrustInfo storage ;; asTrustStateInfo v.

(** [private onDidStorageChange(): void] *)
Definition onDidStorageChange (m : WorkspaceTrustModel)
  : Completion (WorkspaceTrustModel * list Effect) :=
  info <- load (storageService m) ;;
  Normal ({| storageService := storageService m; trustStateInfo := info |},
          [ModelDidChangeTrustState]).

(** The listener the constructor registers on
    [storageService.onDidChangeValue]. *)
Definition onDidChangeValue (m : WorkspaceTrustModel) (key : string)
  : Completion (WorkspaceTrustModel * list Effect) :=
  if key =? WORKSPACE_TRUST_STORAGE_KEY
  then onDidStorageChange m
  else Normal (m, []).

(** Modelled from the spec: the storage service (IStorageService), an
    external collaborator "assumed to support get/set by key plus a
    change-notification event".  [store] replaces the value held under the
    key and delivers the change notification for that key to the
    subscribers, here the listener above. *)
Definition storageService_store (m : WorkspaceTrustModel) (key : string)
    (value : StoredText) : Completion (WorkspaceTrustModel * list Effect) :=
  let m := {| storageService :=
                if key =? WORKSPACE_TRUST_STORAGE_KEY then Some value
                else storageService m;
              trustStateInfo := trustStateInfo m |} in
  '(m, fired) <- onDidChangeValue m key ;;
  Normal (m, StorageStore key value :: fired).

(** [private saveTrustInfo(): void].  [trustStateInfo] holds of the object
    of the code what the interface [IWorkspaceTrustStateInfo] names; a
    property beside those, which a payload may carry and [JSON.stringify]
    writes back, is not part of it.  The text stored is the text of the
    named properties: it reads back as the record set the object holds. *)
Definition saveTrustInfo (m : WorkspaceTrustModel)
  : Completion (WorkspaceTrustModel * list Effect) :=
  storageService_store m WORKSPACE_TRUST_STORAGE_KEY
    (JSON_stringify (toJS (trustStateInfo m))).

(** The [for ... of] loop of [setFolderTrustState]: the records after the
    in-place updates, with the final [found] and [changed]. *)
Fixpoint updateLoop (folders : list FolderInfo) (folder : string)
    (state : WorkspaceTrustState) (found changed : bool)
  : list FolderInfo * bool * bool :=
  match folders with
  | [] => ([], found, changed)
  | trustInfo :: rest =>
      if uri trustInfo =? folder then
        if negb (trustState_eqb (trustState trustInfo) state) then
          let '(rest', found', changed') := updateLoop rest folder state true true in
          ({| uri := uri trustInfo; trustState := state |} :: rest', found', changed')
        else
          let '(rest', found', changed') := updateLoop rest folder state true changed in
          (trustInfo :: rest', found', changed')
      else
        let '(rest', found', changed') := updateLoop rest folder state found changed in
        (trustInfo :: rest', found', changed')
  end.

(** The body of [setFolderTrustState] up to [if (changed)]: the new
    [localFolders] and [changed]. *)
Definition mutateFolders (folders : list FolderInfo) (folder : string)
    (state : WorkspaceTrustState) : list FolderInfo * bool :=
  match state with
  | Unknown =>
      let before := List.length folders in
      let folders' := filter (fun info => negb (uri info =? folder)) folders in
      (folders', negb (List.length folders' =? before)%nat)
  | _ =>
      let '(folders', found, changed) := updateLoop folders folder state false false in
      if negb found
      then (folders' ++ [{| uri := folder; trustState := state |}], true)
      else (folders', changed)
  end.

(** [setFolderTrustState(folder: URI, trustState: WorkspaceTrustState): void];
    [folder] is [folder.toString()]. *)
Definition setFolderTrustState (m : WorkspaceTrustModel) (folder : string)
    (state : WorkspaceTrustState)
  : Completion (WorkspaceTrustModel * list Effect) :=
  let '(folders', changed) :=
    mutateFolders (localFolders (trustStateInfo m)) folder state in
  let m := {| storageService := storageService m;
              trustStateInfo := {| localFolders := folders' |} |} in
  if changed then saveTrustInfo m else Normal (m, []).

Fixpoint lookupFolder (folders : list FolderInfo) (folder : string)
  : WorkspaceTrustState :=
  match folders with
  | [] => Unknown
  | trustInfo :: rest =>
      if uri trustInfo =? folder then trustState trustInfo
      else lookupFolder rest folder
  end.

(** [getFolderTrustState(folder: URI): WorkspaceTrustState] *)
Definition getFolderTrustState (m : WorkspaceTrustModel) (folder : string)
  : WorkspaceTrustState :=
  lookupFolder (localFolders (trustStateInfo m)) folder.

(** [for (const x of v)]: an array gives its items and a string its
    characters; no other value read from JSON is iterable. *)
Definition forOf (v : option JSValue) : Completion (list JSValue) :=
  match v with
  | Some (JArr items _) => Normal items
  | Some (JStr s) =>
      Normal (map (fun c => JStr (String c EmptyString)) (list_ascii_of_string s))
  | Some JNull | Some (JBool _) | Some (JNum _) | Some (JObj _) | None =>
      Throw TypeError
  end.

(** [v === s] for a string [s]. *)
Definition strictEqualsString (v : option JSValue) (s : string) : bool :=
  match v with
  | Some (JStr t) => t =? s
  | _ => false
  end.

Fixpoint lookupFolder_js (items : list JSValue) (folder : string)
  : Completion (option JSValue) :=
  match items with
  | [] => Normal (Some (JNum (WorkspaceTrustState_value Unknown)))
  | trustInfo :: rest =>
      u <- getProp trustInfo "uri" ;;
      if strictEqualsString u folder then getProp trustInfo "trustState"
      else lookupFolder_js rest folder
  end.

(** [getFolderTrustState] as JavaScript runs it on a [trustStateInfo] that
    was not checked against its type: what a caller gets when the loaded
    value is not an [IWorkspaceTrustStateInfo]. *)
Definition getFolderTrustState_js (info : JSValue) (folder : string)
  : Completion (option JSValue) :=
  folders <- getProp info "localFolders" ;;
  items <- forOf folders ;;
  lookupFolder_js items folder.

(** [constructor(storageService)] *)
Definition WorkspaceTrustModel_new (storage : option StoredText)
  : Completion WorkspaceTrustModel :=
  info <- load storage ;;
  Normal {| storageService := storage; trustStateInfo := info |}.

(* ===================================================================== *)
(** * class WorkspaceTrustRequestModel *)
(* ===================================================================== *)

Record WorkspaceTrustRequestModel := {
  trustRequest : option IWorkspaceTrustRequest
}.

(** [initiateRequest(request: IWorkspaceTrustRequest): void] *)
Definition initiateRequest (m : WorkspaceTrustRequestModel)
    (request : IWorkspaceTrustRequest) : WorkspaceTrustRequestModel * list Effect :=
  if match trustRequest m with
     | Some pending => negb (immediate request) || immediate pending
     | None => false
     end
  then (m, [])
  else ({| trustRequest := Some request |}, [DidInitiateRequest]).

(** [completeRequest(trustState?: WorkspaceTrustState): void] *)
Definition completeRequest (m : WorkspaceTrustRequestModel)
    (state : option WorkspaceTrustState) : WorkspaceTrustRequestModel * list Effect :=
  ({| trustRequest := None |}, [DidCompleteRequest state]).

(* ===================================================================== *)
(** * class WorkspaceTrustService *)
(* ===================================================================== *)

(** A promise is its index in [promises]; a cell holds [None] while the
    promise is pending and the value once resolved.  [_inFlightResolver]
    holds the index of the promise its [resolve] function belongs to.
    [_workspace] is [this._workspace.folders], as [folder.uri] strings.
    [workbenchState] and [trustEnabledSetting] are what
    [workspaceService.getWorkbenchState()] and
    [configurationService.getValue(WORKSPACE_TRUST_ENABLED)] answer.
    [fired] accumulates every notification, oldest first. *)
Record WorkspaceTrustService := {
  dataModel : WorkspaceTrustModel;
  requestModel : WorkspaceTrustRequestModel;
  _currentTrustState : WorkspaceTrustState;
  _inFlightResolver : option nat;
  _trustRequestPromise : option nat;
  _workspace : list string;
  _ctxWorkspaceTrustState : WorkspaceTrustState;
  _ctxWorkspaceTrustPendingRequest : bool;
  workbenchState : WorkbenchState;
  trustEnabledSetting : option bool;
  promises : list (option WorkspaceTrustState);
  fired : list Effect
}.

Definition with_dataModel (v : WorkspaceTrustModel) (s : WorkspaceTrustService) :=
  {| dataModel := v; requestModel := requestModel s;
     _currentTrustState := _currentTrustState s;
     _inFlightResolver := _inFlightResolver s;
     _trustRequestPromise := _trustRequestPromise s;
     _workspace := _workspace s;
     _ctxWorkspaceTrustState := _ctxWorkspaceTrustState s;
     _ctxWorkspaceTrustPendingRequest := _ctxWorkspaceTrustPendingRequest s;
     workbenchState := workbenchState s;
     trustEnabledSetting := trustEnabledSetting s;
     promises := promises s; fired := fired s |}.

Definition with_requestModel (v : WorkspaceTrustRequestModel) (s : WorkspaceTrustService) :=
  {| dataModel := dataModel s; requestModel := v;
     _currentTrustState := _currentTrustState s;
     _inFlightResolver := _inFlightResolver s;
     _trustRequestPromise := _trustRequestPromise s;
     _workspace := _workspace s;
     _ctxWorkspaceTrustState := _ctxWorkspaceTrustState s;
     _ctxWorkspaceTrustPendingRequest := _ctxWorkspaceTrustPendingRequest s;
     workbenchState := workbenchState s;
     trustEnabledSetting := trustEnabledSetting s;
     promises := promises s; fired := fired s |}.

Definition with_currentTrustState (v : WorkspaceTrustState) (s : WorkspaceTrustService) :=
  {| dataModel := dataModel s; requestModel := requestModel s;
     _currentTrustState := v;
     _inFlightResolver := _inFlightResolver s;
     _trustRequestPromise := _trustRequestPromise s;
     _workspace := _workspace s;
     _ctxWorkspaceTrustState := _ctxWorkspaceTrustState s;
     _ctxWorkspaceTrustPendingRequest := _ctxWorkspaceTrustPendingRequest s;
     workbenchState := workbenchState s;
     trustEnabledSetting := trustEnabledSetting s;
     promises := promises s; fired := fired s |}.

Definition with_inFlightResolver (v : option nat) (s : WorkspaceTrustService) :=
  {| dataModel := dataModel s; requestModel := requestModel s;
     _currentTrustState := _currentTrustState s;
     _inFlightResolver := v;
     _trustRequestPromise := _trustRequestPromise s;
     _workspace := _workspace s;
     _ctxWorkspaceTrustState := _ctxWorkspaceTrustState s;
     _ctxWorkspaceTrustPendingRequest := _ctxWorkspaceTrustPendingRequest s;
     workbenchState := workbenchState s;
     trustEnabledSetting := trustEnabledSetting s;
     promises := promises s; fired := fired s |}.

Definition with_trustRequestPromise (v : option nat) (s : WorkspaceTrustService) :=
  {| dataModel := dataModel s; requestModel := requestModel s;
     _currentTrustState := _currentTrustState s;
     _inFlightResolver := _inFlightResolver s;
     _trustRequestPromise := v;
     _workspace := _workspace s;
     _ctxWorkspaceTrustState := _ctxWorkspaceTrustState s;
     _ctxWorkspaceTrustPendingRequest := _ctxWorkspaceTrustPendingRequest s;
     workbenchState := workbenchState s;
     trustEnabledSetting := trustEnabledSetting s;
     promises := promises s; fired := fired s |}.

Definition with_workspace (v : list string) (s : WorkspaceTrustService) :=
  {| dataModel := dataModel s; requestModel := requestModel s;
     _currentTrustState := _currentTrustState s;
     _inFlightResolver := _inFlightResolver s;
     _trustRequestPromise := _trustRequestPromise s;
     _workspace := v;
     _ctxWorkspaceTrustState := _ctxWorkspaceTrustState s;
     _ctxWorkspaceTrustPendingRequest := _ctxWorkspaceTrustPendingRequest s;
     workbenchState := workbenchState s;
     trustEnabledSetting := trustEnabledSetting s;
     promises := promises s; fired := fired s |}.

Definition with_ctxWorkspaceTrustState (v : WorkspaceTrustState) (s : WorkspaceTrustService) :=
  {| dataModel := dataModel s; requestModel := requestModel s;
     _currentTrustState := _currentTrustState s;
     _inFlightResolver := _inFlightResolver s;
     _trustRequestPromise := _trustRequestPromise s;
     _workspace := _workspace s;
     _ctxWorkspaceTrustState := v;
     _ctxWorkspaceTrustPendingRequest := _ctxWorkspaceTrustPendingRequest s;
     workbenchState := workbenchState s;
     trustEnabledSetting := trustEnabledSetting s;
     promises := promises s; fired := fired s |}.

Definition with_ctxWorkspaceTrustPendingRequest (v : bool) (s : WorkspaceTrustService) :=
  {| dataModel := dataModel s; requestModel := requestModel s;
     _currentTrustState := _currentTrustState s;
     _inFlightResolver := _inFlightResolver s;
     _trustRequestPromise := _trustRequestPromise s;
     _workspace := _workspace s;
     _ctxWorkspaceTrustState := _ctxWorkspaceTrustState s;
     _ctxWorkspaceTrustPendingRequest := v;
     workbenchState := workbenchState s;
     trustEnabledSetting := trustEnabledSetting s;
     promises := promises s; fired := fired s |}.

Definition with_promises (v : list (option WorkspaceTrustState)) (s : WorkspaceTrustService) :=
  {| dataModel := dataModel s; requestModel := requestModel s;
     _currentTrustState := _currentTrustState s;
     _inFlightResolver := _inFlightResolver s;
     _trustRequestPromise := _trustRequestPromise s;
     _workspace := _workspace s;
     _ctxWorkspaceTrustState := _ctxWorkspaceTrustState s;
     _ctxWorkspaceTrustPendingRequest := _ctxWorkspaceTrustPendingRequest s;
     workbenchState := workbenchState s;
     trustEnabledSetting := trustEnabledSetting s;
     promises := v; fired := fired s |}.

Definition with_fired (v : list Effect) (s : WorkspaceTrustService) :=
  {| dataModel := dataModel s; requestModel := requestModel s;
     _currentTrustState := _currentTrustState s;
     _inFlightResolver := _inFlightResolver s;
     _trustRequestPromise := _trustRequestPromise s;
     _workspace := _workspace s;
     _ctxWorkspaceTrustState := _ctxWorkspaceTrustState s;
     _ctxWorkspaceTrustPendingRequest := _ctxWorkspaceTrustPendingRequest s;
     workbenchState := workbenchState s;
     trustEnabledSetting := trustEnabledSetting s;
     promises := promises s; fired := v |}.

Definition emit (effects : list Effect) (s : WorkspaceTrustService) :=
  with_fired (fired s ++ effects) s.

(** [private get currentTrustState()] *)
Definition currentTrustState (s : WorkspaceTrustService) : WorkspaceTrustState :=
  _currentTrustState s.

(** [private set currentTrustState(trustState)] *)
Definition set_currentTrustState (state : WorkspaceTrustState)
    (s : WorkspaceTrustService) : WorkspaceTrustService :=
  if trustState_eqb (_currentTrustState s) state then s
  else
    let previousState := _currentTrustState s in
    let s := with_currentTrustState state s in
    emit [DidChangeTrustState previousState (_currentTrustState s)] s.

(** [isWorkspaceTrustEnabled(): boolean], [getValue(...) ?? false] *)
Definition isWorkspaceTrustEnabled (s : WorkspaceTrustService) : bool :=
  match trustEnabledSetting s with
  | Some b => b
  | None => false
  end.

Definition workbenchState_eqb (a b : WorkbenchState) : bool :=
  match a, b with
  | EMPTY, EMPTY | FOLDER, FOLDER | WORKSPACE, WORKSPACE => true
  | _, _ => false
  end.

(** The [for (const folder of this._workspace.folders)] loop with its
    variable [state] ([None] is [undefined]) and the final
    [return state ?? WorkspaceTrustState.Unknown]. *)
Fixpoint calculateLoop (m : WorkspaceTrustModel) (folders : list string)
    (state : option WorkspaceTrustState) : WorkspaceTrustState :=
  match folders with
  | [] => match state with Some t => t | None => Unknown end
  | folder :: rest =>
      let folderTrust := getFolderTrustState m folder in
      match folderTrust with
      | Untrusted => Untrusted
      | Unknown => calculateLoop m rest (Some folderTrust)
      | Trusted =>
          calculateLoop m rest
            (match state with None => Some folderTrust | Some _ => state end)
      end
  end.

(** [private calculateWorkspaceTrustState(): WorkspaceTrustState] *)
Definition calculateWorkspaceTrustState (s : WorkspaceTrustService)
  : WorkspaceTrustState :=
  if negb (isWorkspaceTrustEnabled s) then Trusted
  else if workbenchState_eqb (workbenchState s) EMPTY then Trusted
  else calculateLoop (dataModel s) (_workspace s) None.

(** The listener on [dataModel.onDidChangeTrustState]:
    [() => this.currentTrustState = this.calculateWorkspaceTrustState()]. *)
Definition onModelDidChangeTrustState (s : WorkspaceTrustService) :=
  set_currentTrustState (calculateWorkspaceTrustState s) s.

(** Records what a call into [dataModel] fired and runs the listener at each
    [ModelDidChangeTrustState].  Every method of the model fires as its last
    statement, so the listener sees the model as the call leaves it. *)
Fixpoint deliver (effects : list Effect) (s : WorkspaceTrustService)
  : WorkspaceTrustService :=
  match effects with
  | [] => s
  | e :: rest =>
      let s := emit [e] s in
      let s := match e with
               | ModelDidChangeTrustState => onModelDidChangeTrustState s
               | _ => s
               end in
      deliver rest s
  end.

(** [this.dataModel.setFolderTrustState(folder.uri, trustState)] *)
Definition dataModel_setFolderTrustState (folder : string)
    (state : WorkspaceTrustState) (s : WorkspaceTrustService)
  : Completion WorkspaceTrustService :=
  '(m, effects) <- setFolderTrustState (dataModel s) folder state ;;
  Normal (deliver effects (with_dataModel m s)).

(** [this._workspace.folders.forEach(folder => this.dataModel.setFolderTrustState(folder.uri, trustState))] *)
Fixpoint forEachFolder (folders : list string) (state : WorkspaceTrustState)
    (s : WorkspaceTrustService) : Completion WorkspaceTrustService :=
  match folders with
  | [] => Normal s
  | folder :: rest =>
      s <- dataModel_setFolderTrustState folder state s ;;
      forEachFolder rest state s
  end.

(** [new Promise(...)]: a fresh pending cell. *)
Definition newPromise (s : WorkspaceTrustService) : nat * WorkspaceTrustService :=
  (List.length (promises s), with_promises (promises s ++ [None]) s).

(** Calling the [resolve] function of promise [p] with [v]: a pending
    promise takes the value, a resolved one keeps its own. *)
Fixpoint settle (p : nat) (v : WorkspaceTrustState)
    (cells : list (option WorkspaceTrustState)) : list (option WorkspaceTrustState) :=
  match cells, p with
  | [], _ => []
  | c :: rest, O => (match c with None => Some v | Some _ => c end) :: rest
  | c :: rest, S p' => c :: settle p' v rest
  end.

Definition resolve (p : nat) (v : WorkspaceTrustState) (s : WorkspaceTrustService) :=
  with_promises (settle p v (promises s)) s.

(** [private onTrustRequestCompleted(trustState?: WorkspaceTrustState): void] *)
Definition onTrustRequestCompleted (state : option WorkspaceTrustState)
    (s : WorkspaceTrustService) : Completion WorkspaceTrustService :=
  let s := match _inFlightResolver s with
           | Some p =>
               resolve p (match state with
                          | None => currentTrustState s
                          | Some t => t
                          end) s
           | None => s
           end in
  let s := with_inFlightResolver None s in
  let s := with_trustRequestPromise None s in
  match state with
  | None => Normal s
  | Some t =>
      s <- forEachFolder (_workspace s) t s ;;
      let s := with_ctxWorkspaceTrustPendingRequest false s in
      Normal (with_ctxWorkspaceTrustState t s)
  end.

(** [this.requestModel.initiateRequest(request)] *)
Definition requestModel_initiateRequest (request : IWorkspaceTrustRequest)
    (s : WorkspaceTrustService) : WorkspaceTrustService :=
  let '(m, effects) := initiateRequest (requestModel s) request in
  emit effects (with_requestModel m s).

(** [requestModel.completeRequest(trustState)], with the listener the
    service registered on [onDidCompleteRequest]. *)
Definition requestModel_completeRequest (state : option WorkspaceTrustState)
    (s : WorkspaceTrustService) : Completion WorkspaceTrustService :=
  let '(m, effects) := completeRequest (requestModel s) state in
  let s := emit effects (with_requestModel m s) in
  onTrustRequestCompleted state s.

(** What an [async] method hands back: a promise already resolved with the
    returned value, or one that adopts the promise [p] it returned. *)
Inductive Future :=
| Resolved (t : WorkspaceTrustState)
| Awaits (p : nat).

(** [async requireWorkspaceTrust(request): Promise<WorkspaceTrustState>];
    the service is reached through [IWorkspaceTrustService], whose
    signature makes [request] mandatory.  The class declares [request?]:
    [requireWorkspaceTrust_opt], with the further properties, is the method
    on a request or [undefined]. *)
Definition requireWorkspaceTrust (request : IWorkspaceTrustRequest)
    (s : WorkspaceTrustService) : Future * WorkspaceTrustService :=
  if trustState_eqb (currentTrustState s) Trusted then
    (Resolved (currentTrustState s), s)
  else if trustState_eqb (currentTrustState s) Untrusted && negb (immediate request) then
    (Resolved (currentTrustState s), s)
  else
    match _trustRequestPromise s with
    | Some p =>
        let s :=
          if immediate request &&
             match trustRequest (requestModel s) with
             | Some pending => negb (immediate pending)
             | None => false
             end
          then requestModel_initiateRequest request s
          else s in
        (Awaits p, s)
    | None =>
        let '(p, s) := newPromise s in
        let s := with_inFlightResolver (Some p) s in
        let s := with_trustRequestPromise (Some p) s in
        let s := requestModel_initiateRequest request s in
        let s := with_ctxWorkspaceTrustPendingRequest true s in
        (Awaits p, s)
    end.

(** [async resetWorkspaceTrust(): Promise<WorkspaceTrustState>] *)
Definition resetWorkspaceTrust (s : WorkspaceTrustService)
  : Completion (Future * WorkspaceTrustService) :=
  s <- (if negb (trustState_eqb (currentTrustState s) Unknown)
        then forEachFolder (_workspace s) Unknown s
        else Normal s) ;;
  Normal (Resolved Unknown, s).

(** [getWorkspaceTrustState(): WorkspaceTrustState] *)
Definition getWorkspaceTrustState (s : WorkspaceTrustService) : WorkspaceTrustState :=
  currentTrustState s.

(** [constructor(storageService, workspaceService, configurationService,
    contextKeyService)]: the four services are given by what they answer.
    The two context keys start at the defaults of [WorkspaceTrustContext]. *)
Definition WorkspaceTrustService_new (storage : option StoredText)
    (folders : list string) (workbench : WorkbenchState) (setting : option bool)
  : Completion WorkspaceTrustService :=
  model <- WorkspaceTrustModel_new storage ;;
  let s := {| dataModel := model;
              requestModel := {| trustRequest := None |};
              _currentTrustState := Unknown;
              _inFlightResolver := None;
              _trustRequestPromise := None;
              _workspace := folders;
              _ctxWorkspaceTrustState := Unknown;
              _ctxWorkspaceTrustPendingRequest := false;
              workbenchState := workbench;
              trustEnabledSetting := setting;
              promises := [];
              fired := [] |} in
  let s := with_currentTrustState (calculateWorkspaceTrustState s) s in
  Normal (with_ctxWorkspaceTrustState (currentTrustState s) s).

(** The storage service reports that the value under [key] was replaced by
    [value] (another window wrote it). *)
Definition storageDidChange (key : string) (value : option StoredText)
    (s : WorkspaceTrustService) : Completion WorkspaceTrustService :=
  let m := {| storageService :=
                if key =? WORKSPACE_TRUST_STORAGE_KEY then value
                else storageService (dataModel s);
              trustStateInfo := trustStateInfo (dataModel s) |} in
  '(m, effects) <- onDidChangeValue m key ;;
  Normal (deliver effects (with_dataModel m s)).

(** The calls the service receives from outside. *)
Inductive Action :=
| RequireWorkspaceTrust (request : IWorkspaceTrustRequest)
| ResetWorkspaceTrust
| InitiateRequest (request : IWorkspaceTrustRequest)
| CompleteRequest (state : option WorkspaceTrustState)
| StorageDidChange (key : string) (value : option StoredText).

Definition step (a : Action) (s : WorkspaceTrustService)
  : Completion WorkspaceTrustService :=
  match a with
  | RequireWorkspaceTrust request => Normal (snd (requireWorkspaceTrust request s))
  | ResetWorkspaceTrust => '(_, s) <- resetWorkspaceTrust s ;; Normal s
  | InitiateRequest request => Normal (requestModel_initiateRequest request s)
  | CompleteRequest state => requestModel_completeRequest state s
  | StorageDidChange key value => storageDidChange key value s
  end.

Fixpoint run (actions : list Action) (s : WorkspaceTrustService)
  : Completion WorkspaceTrustService :=
  match actions with
  | [] => Normal s
  | a :: rest => s <- step a s ;; run rest s
  end.

(* ===================================================================== *)
(** * Vocabulary of the statements *)
(* ===================================================================== *)

(** The in-place update of the loop of [setFolderTrustState] on one record. *)
Definition overwrite (folder : string) (state : WorkspaceTrustState)
    (info : FolderInfo) : FolderInfo :=
  if uri info =? folder then {| uri := uri info; trustState := state |} else info.

(** A record of [folder] whose state is not [state]. *)
Definition differs (folder : string) (state : WorkspaceTrustState)
    (info : FolderInfo) : bool :=
  (uri info =? folder) && negb (trustState_eqb (trustState info) state).

(** The store agrees with what is persisted: reading the storage back gives
    the record set held in memory. *)
Definition inSync (m : WorkspaceTrustModel) : Prop :=
  load (storageService m) = Normal (trustStateInfo m).

(** A [set] that finds the record set as it would leave it: removing a
    folder that has no record, or storing the state that every record of the
    folder already has. *)
Definition isNoOp (folders : list FolderInfo) (folder : string)
    (state : WorkspaceTrustState) : bool :=
  match state with
  | Unknown => negb (existsb (fun info => uri info =? folder) folders)
  | _ => existsb (fun info => uri info =? folder) folders
         && negb (existsb (differs folder state) folders)
  end.

(** A sequence of [set] calls on the store, with all they fire. *)
Fixpoint setAll (calls : list (string * WorkspaceTrustState)) (m : WorkspaceTrustModel)
  : Completion (WorkspaceTrustModel * list Effect) :=
  match calls with
  | [] => Normal (m, [])
  | (folder, state) :: rest =>
      '(m1, fired1) <- setFolderTrustState m folder state ;;
      '(m2, fired2) <- setAll rest m1 ;;
      Normal (m2, fired1 ++ fired2)
  end.

(** No record of the record set is at [Unknown]. *)
Definition allDecided (folders : list FolderInfo) : Prop :=
  forall info, In info folders -> trustState info <> Unknown.

(** Payloads that carry no record set: no value, the empty text, a text
    that is not JSON, a text of a falsy value, and a text of an object whose
    [localFolders] is missing or falsy. *)
Inductive NoRecordSet : option StoredText -> Prop :=
| payload_absent : NoRecordSet None
| payload_empty : NoRecordSet (Some EmptyText)
| payload_malformed : NoRecordSet (Some Malformed)
| payload_falsy (v : JSValue) :
    truthy v = false -> NoRecordSet (Some (JsonText v))
| payload_no_folders (props : list (string * JSValue)) :
    is_truthy (assoc "localFolders" props) = false ->
    NoRecordSet (Some (JsonText (JObj props))).

(** The aggregation in the words of the specification (section 4.2):
    [Trusted] when trust is not enforced or the workspace is empty;
    otherwise [Untrusted] if a folder is [Untrusted], else [Unknown] if a
    folder is [Unknown], else [Trusted], and [Unknown] for no folder. *)
Definition aggregate (folderStates : list WorkspaceTrustState)
    (trustEnabled isEmptyWorkspace : bool) : WorkspaceTrustState :=
  if negb trustEnabled then Trusted
  else if isEmptyWorkspace then Trusted
  else match folderStates with
       | [] => Unknown
       | _ :: _ =>
           if existsb (trustState_eqb Untrusted) folderStates then Untrusted
           else if existsb (trustState_eqb Unknown) folderStates then Unknown
           else Trusted
       end.

(** The states of the folders of the workspace, in folder order. *)
Definition folderStates (s : WorkspaceTrustService) : list WorkspaceTrustState :=
  map (getFolderTrustState (dataModel s)) (_workspace s).

(** The value a caller that holds [future] has received in [s], if any. *)
Definition outcome (future : Future) (s : WorkspaceTrustService)
  : option WorkspaceTrustState :=
  match future with
  | Resolved t => Some t
  | Awaits p => match nth_error (promises s) p with
                | Some cell => cell
                | None => None
                end
  end.

(** The fields that calls into the trust store leave alone: everything but
    [dataModel], [_currentTrustState] and [fired]. *)
Definition sameRequestSide (s s' : WorkspaceTrustService) : Prop :=
  requestModel s' = requestModel s
  /\ _inFlightResolver s' = _inFlightResolver s
  /\ _trustRequestPromise s' = _trustRequestPromise s
  /\ _workspace s' = _workspace s
  /\ _ctxWorkspaceTrustState s' = _ctxWorkspaceTrustState s
  /\ _ctxWorkspaceTrustPendingRequest s' = _ctxWorkspaceTrustPendingRequest s
  /\ workbenchState s' = workbenchState s
  /\ trustEnabledSetting s' = trustEnabledSetting s
  /\ promises s' = promises s.

(** The promise and its resolver are set and cleared together, and a
    retained promise is pending. *)
Definition wellFormed (s : WorkspaceTrustService) : Prop :=
  _inFlightResolver s = _trustRequestPromise s
  /\ forall p, _trustRequestPromise s = Some p ->
               nth_error (promises s) p = Some None.

(** Whether [requireWorkspaceTrust] answers at once, without looking at
    the pending promise. *)
Definition fastPath (request : IWorkspaceTrustRequest) (s : WorkspaceTrustService)
  : bool :=
  trustState_eqb (currentTrustState s) Trusted
  || (trustState_eqb (currentTrustState s) Untrusted && negb (immediate request)).

(** The test under which a call that finds a promise calls
    [initiateRequest]. *)
Definition upgrades (request : IWorkspaceTrustRequest) (s : WorkspaceTrustService)
  : bool :=
  immediate request &&
  match trustRequest (requestModel s) with
  | Some pending => negb (immediate pending)
  | None => false
  end.

(** A service as the constructor leaves it for a store that holds
    [records], a workspace of [folders], a non-empty workbench and trust
    enabled; [current] is the aggregated state. *)
Definition exampleService (records : list FolderInfo) (folders : list string)
    (current : WorkspaceTrustState) : WorkspaceTrustService :=
  {| dataModel :=
       {| storageService := Some (JSON_stringify (toJS {| localFolders := records |}));
          trustStateInfo := {| localFolders := records |} |};
     requestModel := {| trustRequest := None |};
     _currentTrustState := current;
     _inFlightResolver := None;
     _trustRequestPromise := None;
     _workspace := folders;
     _ctxWorkspaceTrustState := current;
     _ctxWorkspaceTrustPendingRequest := false;
     workbenchState := FOLDER;
     trustEnabledSetting := Some true;
     promises := [];
     fired := [] |}.

Definition immediateRequest : IWorkspaceTrustRequest :=
  {| immediate := true; message := None |}.

Definition backgroundRequest : IWorkspaceTrustRequest :=
  {| immediate := false; message := None |}.

(* ===================================================================== *)
(** * Vocabulary of the further properties *)
(* ===================================================================== *)

(** The folders of a record set, in record order. *)
Definition folderKeys (folders : list FolderInfo) : list string := map uri folders.

(** A boolean, a number or a string. *)
Definition isPrimitive (v : JSValue) : bool :=
  match v with
  | JBool _ | JNum _ | JStr _ => true
  | JNull | JArr _ _ | JObj _ => false
  end.

(** A sequence of [initiateRequest] calls on the coordinator, with all they
    fire. *)
Fixpoint initiateAll (requests : list IWorkspaceTrustRequest)
    (m : WorkspaceTrustRequestModel) : WorkspaceTrustRequestModel * list Effect :=
  match requests with
  | [] => (m, [])
  | request :: rest =>
      let '(m1, fired1) := initiateRequest m request in
      let '(m2, fired2) := initiateAll rest m1 in
      (m2, fired1 ++ fired2)
  end.

(** Whether the slot of the coordinator holds an immediate request. *)
Definition pendingImmediate (m : WorkspaceTrustRequestModel) : bool :=
  match trustRequest m with
  | Some pending => immediate pending
  | None => false
  end.

(** The cached state is the aggregation of what the store holds. *)
Definition coherent (s : WorkspaceTrustService) : Prop :=
  _currentTrustState s = calculateWorkspaceTrustState s.

(** Trust is enforced: the setting is on and the workbench is not empty. *)
Definition enforced (s : WorkspaceTrustService) : bool :=
  isWorkspaceTrustEnabled s && negb (workbenchState_eqb (workbenchState s) EMPTY).

(** Every pending promise is the one the service retains. *)
Definition noOrphan (s : WorkspaceTrustService) : Prop :=
  forall p, nth_error (promises s) p = Some None -> _trustRequestPromise s = Some p.

(** Follows the state-change events of a list of notifications from the
    state [current]: each event must start at the state reached so far and
    lead to a different one; the result is the state reached at the end. *)
Fixpoint replay (current : WorkspaceTrustState) (effects : list Effect)
  : option WorkspaceTrustState :=
  match effects with
  | [] => Some current
  | DidChangeTrustState previous next :: rest =>
      if trustState_eqb previous current && negb (trustState_eqb previous next)
      then replay next rest
      else None
  | _ :: rest => replay current rest
  end.

(** [s'] continues [s]: its notifications extend those of [s] by events
    that lead from the cached state of [s] to that of [s']. *)
Definition continues (s s' : WorkspaceTrustService) : Prop :=
  exists effects,
    fired s' = fired s ++ effects
    /\ replay (_currentTrustState s) effects = Some (_currentTrustState s').

(** A service as the constructor leaves it for a store that holds
    [records] and the one folder [file:///a], with the trust setting
    unset. *)
Definition exampleService_off (records : list FolderInfo) : WorkspaceTrustService :=
  {| dataModel :=
       {| storageService := Some (JSON_stringify (toJS {| localFolders := records |}));
          trustStateInfo := {| localFolders := records |} |};
     requestModel := {| trustRequest := None |};
     _currentTrustState := Trusted;
     _inFlightResolver := None;
     _trustRequestPromise := None;
     _workspace := ["file:///a"];
     _ctxWorkspaceTrustState := Trusted;
     _ctxWorkspaceTrustPendingRequest := false;
     workbenchState := FOLDER;
     trustEnabledSetting := None;
     promises := [];
     fired := [] |}.

(** A notification other than the service's state-change event. *)
Definition quiet (e : Effect) : bool :=
  match e with
  | DidChangeTrustState _ _ => false
  | _ => true
  end.

(** [initiateRequest] called with what the caller holds, a request or
    [undefined]: the interface [IWorkspaceTrustRequestModel] declares
    [initiateRequest(request?)], and [requireWorkspaceTrust] forwards its
    own optional [request].  With a request in the slot the guard reads
    [request.immediate], which throws on [undefined]; with an empty slot
    the guard is cut short at [this.trustRequest], the slot takes [request]
    and the event fires. *)
Definition initiateRequest_opt (m : WorkspaceTrustRequestModel)
    (request : option IWorkspaceTrustRequest)
  : Completion (WorkspaceTrustRequestModel * list Effect) :=
  match trustRequest m with
  | Some pending =>
      match request with
      | None => Throw TypeError
      | Some r =>
          if negb (immediate r) || immediate pending then Normal (m, [])
          else Normal ({| trustRequest := Some r |}, [DidInitiateRequest])
      end
  | None => Normal ({| trustRequest := request |}, [DidInitiateRequest])
  end.

(** [this.requestModel.initiateRequest(request)], [request] being optional. *)
Definition requestModel_initiateRequest_opt (request : option IWorkspaceTrustRequest)
    (s : WorkspaceTrustService) : Completion WorkspaceTrustService :=
  '(m, effects) <- initiateRequest_opt (requestModel s) request ;;
  Normal (emit effects (with_requestModel m s)).

(** What the caller of an [async] method holds: the promise of what the
    body returned, or a promise rejected with what the body threw. *)
Inductive Answer :=
| Returned (future : Future)
| Rejected (e : Failure).

(** [request?.immediate], as a condition. *)
Definition immediate_opt (request : option IWorkspaceTrustRequest) : bool :=
  match request with
  | Some r => immediate r
  | None => false
  end.

(** [async requireWorkspaceTrust(request?: IWorkspaceTrustRequest)], as the
    class declares it: [request] may be [undefined].  A throw in the body
    rejects the promise the caller receives and leaves the fields as the
    statements before it set them. *)
Definition requireWorkspaceTrust_opt (request : option IWorkspaceTrustRequest)
    (s : WorkspaceTrustService) : Answer * WorkspaceTrustService :=
  if trustState_eqb (currentTrustState s) Trusted then
    (Returned (Resolved (currentTrustState s)), s)
  else if trustState_eqb (currentTrustState s) Untrusted && negb (immediate_opt request) then
    (Returned (Resolved (currentTrustState s)), s)
  else
    match _trustRequestPromise s with
    | Some p =>
        if immediate_opt request &&
           match trustRequest (requestModel s) with
           | Some pending => negb (immediate pending)
           | None => false
           end
        then match requestModel_initiateRequest_opt request s with
             | Normal s => (Returned (Awaits p), s)
             | Throw e => (Rejected e, s)
             end
        else (Returned (Awaits p), s)
    | None =>
        let '(p, s) := newPromise s in
        let s := with_inFlightResolver (Some p) s in
        let s := with_trustRequestPromise (Some p) s in
        match requestModel_initiateRequest_opt request s with
        | Normal s => (Returned (Awaits p), with_ctxWorkspaceTrustPendingRequest true s)
        | Throw e => (Rejected e, s)
        end
    end.

(** The calls the service receives from outside, those that take a request
    with the request optional. *)
Inductive Call :=
| RequireCall (request : option IWorkspaceTrustRequest)
| InitiateCall (request : option IWorkspaceTrustRequest)
| OtherCall (a : Action).

Definition step_opt (c : Call) (s : WorkspaceTrustService)
  : Completion WorkspaceTrustService :=
  match c with
  | RequireCall request => Normal (snd (requireWorkspaceTrust_opt request s))
  | InitiateCall request => requestModel_initiateRequest_opt request s
  | OtherCall a => step a s
  end.

Fixpoint run_opt (calls : list Call) (s : WorkspaceTrustService)
  : Completion WorkspaceTrustService :=
  match calls with
  | [] => Normal s
  | c :: rest => s <- step_opt c s ;; run_opt rest s
  end.

(* ===================================================================== *)
(** * Properties of the trust store *)
(* ===================================================================== *)

Lemma trustState_eqb_spec (a b : WorkspaceTrustState) :
  reflect (a = b) (trustState_eqb a b).
Proof. destruct a, b; simpl; constructor; congruence. Qed.

Lemma trustState_eqb_refl (a : WorkspaceTrustState) : trustState_eqb a a = true.
Proof. now destruct a. Qed.

Lemma of_value_value (t : WorkspaceTrustState) :
  WorkspaceTrustState_of_value (WorkspaceTrustState_value t) = Some t.
Proof. now destruct t. Qed.

Lemma asFolderInfo_toJS (info : FolderInfo) :
  asFolderInfo (FolderInfo_toJS info) = Some info.
Proof.
  destruct info as [u t]. unfold asFolderInfo, FolderInfo_toJS. simpl.
  now rewrite of_value_value.
Qed.

Lemma asFolderInfos_toJS (infos : list FolderInfo) :
  asFolderInfos (map FolderInfo_toJS infos) = Some infos.
Proof.
  induction infos as [|info infos IH]; cbn [map asFolderInfos]; [reflexivity|].
  now rewrite asFolderInfo_toJS, IH.
Qed.

(** What [saveTrustInfo] writes is read back by [loadTrustInfo] as the
    same record set. *)
Lemma load_stringify (info : IWorkspaceTrustStateInfo) :
  load (Some (JSON_stringify (toJS info))) = Normal info.
Proof.
  destruct info as [l]. unfold load, loadTrustInfo, toJS, JSON_stringify.
  cbn -[asFolderInfos map]. now rewrite asFolderInfos_toJS.
Qed.

Section Records.

Variable folder : string.

Lemma updateLoop_spec (state : WorkspaceTrustState) (l : list FolderInfo) :
  forall found changed,
    updateLoop l folder state found changed =
    (map (overwrite folder state) l,
     found || existsb (fun info => uri info =? folder) l,
     changed || existsb (differs folder state) l).
Proof.
  induction l as [|info l IH]; intros found changed; simpl.
  - now rewrite !orb_false_r.
  - unfold overwrite at 1, differs at 1.
    destruct (uri info =? folder) eqn:Huri; simpl.
    + destruct (trustState_eqb (trustState info) state) eqn:Hst; simpl;
        rewrite IH; simpl; rewrite ?orb_true_r; try reflexivity.
      destruct (trustState_eqb_spec (trustState info) state) as [E|]; [|discriminate].
      destruct info as [u t]; simpl in *; subst. reflexivity.
    + now rewrite IH.
Qed.

Lemma map_overwrite_id (state : WorkspaceTrustState) (l : list FolderInfo) :
  existsb (differs folder state) l = false -> map (overwrite folder state) l = l.
Proof.
  induction l as [|info l IH]; simpl; [reflexivity|].
  intros H. apply orb_false_iff in H as [Hd Hl]. rewrite (IH Hl). f_equal.
  unfold overwrite, differs in *.
  destruct (uri info =? folder); [|reflexivity].
  simpl in Hd. apply negb_false_iff in Hd.
  destruct (trustState_eqb_spec (trustState info) state) as [E|]; [|discriminate].
  destruct info; simpl in *; now subst.
Qed.

Lemma map_overwrite_changes (state : WorkspaceTrustState) (l : list FolderInfo) :
  existsb (differs folder state) l = true -> map (overwrite folder state) l <> l.
Proof.
  induction l as [|info l IH]; simpl; [discriminate|].
  intros H E. injection E as E1 E2.
  apply orb_true_iff in H as [Hd|Hl]; [|now apply IH].
  unfold overwrite, differs in *.
  apply andb_true_iff in Hd as [Hu Hs]. rewrite Hu in E1.
  apply negb_true_iff in Hs.
  destruct (trustState_eqb_spec (trustState info) state) as [|N]; [discriminate|].
  apply N. rewrite <- E1. reflexivity.
Qed.

Lemma filter_length_same {A} (keep : A -> bool) (l : list A) :
  List.length (filter keep l) = List.length l -> filter keep l = l.
Proof.
  induction l as [|a l IH]; simpl; [reflexivity|].
  destruct (keep a); simpl; intros H.
  - f_equal. apply IH. lia.
  - pose proof (filter_length_le keep l). lia.
Qed.

(** [changed] is raised exactly when the record set is modified. *)
Lemma mutateFolders_changed (state : WorkspaceTrustState) (l : list FolderInfo) :
  snd (mutateFolders l folder state) = false <->
  fst (mutateFolders l folder state) = l.
Proof.
  unfold mutateFolders.
  assert (Hupd : forall st,
    (let '(l', found, changed) := updateLoop l folder st false false in
     if negb found
     then (l' ++ [{| uri := folder; trustState := st |}], true)
     else (l', changed)) =
    (if existsb (fun info => uri info =? folder) l
     then (map (overwrite folder st) l, existsb (differs folder st) l)
     else (map (overwrite folder st) l ++ [{| uri := folder; trustState := st |}], true))).
  { intros st. rewrite updateLoop_spec. simpl.
    now destruct (existsb (fun info => uri info =? folder) l). }
  assert (Hcase : forall st,
    snd (if existsb (fun info => uri info =? folder) l
         then (map (overwrite folder st) l, existsb (differs folder st) l)
         else (map (overwrite folder st) l ++ [{| uri := folder; trustState := st |}], true))
      = false <->
    fst (if existsb (fun info => uri info =? folder) l
         then (map (overwrite folder st) l, existsb (differs folder st) l)
         else (map (overwrite folder st) l ++ [{| uri := folder; trustState := st |}], true))
      = l).
  { intros st. destruct (existsb (fun info => uri info =? folder) l); simpl.
    - split; [apply map_overwrite_id|].
      intros E. destruct (existsb (differs folder st) l) eqn:Hd; [|reflexivity].
      now apply map_overwrite_changes in Hd.
    - split; [discriminate|].
      intros E. apply (f_equal (@List.length _)) in E.
      rewrite length_app, length_map in E. simpl in E. lia. }
  destruct state.
  - rewrite Hupd. apply Hcase.
  - rewrite Hupd. apply Hcase.
  - simpl. rewrite negb_false_iff, Nat.eqb_eq.
    split; [apply filter_length_same | intros E; now rewrite E].
Qed.

Lemma lookupFolder_absent (l : list FolderInfo) :
  (forall info, In info l -> uri info <> folder) ->
  lookupFolder l folder = Unknown.
Proof.
  induction l as [|info l IH]; simpl; [reflexivity|]. intros H.
  destruct (String.eqb_spec (uri info) folder) as [E|_].
  - exfalso. apply (H info); auto.
  - apply IH. intros i Hi. apply H. auto.
Qed.

Lemma filter_removes (l : list FolderInfo) :
  forall info, In info (filter (fun i => negb (uri i =? folder)) l) ->
               uri info <> folder /\ In info l.
Proof.
  intros info H. apply filter_In in H as [Hin Hne].
  apply negb_true_iff, String.eqb_neq in Hne. auto.
Qed.

Lemma lookupFolder_overwrite (state : WorkspaceTrustState) (l : list FolderInfo) :
  existsb (fun info => uri info =? folder) l = true ->
  lookupFolder (map (overwrite folder state) l) folder = state.
Proof.
  induction l as [|info l IH]; simpl; [discriminate|]. intros H.
  unfold overwrite at 1 2.
  destruct (uri info =? folder) eqn:Hu; simpl; rewrite Hu; [reflexivity|].
  simpl in H. now apply IH.
Qed.

Lemma lookupFolder_push (state : WorkspaceTrustState) (l : list FolderInfo) :
  existsb (fun info => uri info =? folder) l = false ->
  lookupFolder (l ++ [{| uri := folder; trustState := state |}]) folder = state.
Proof.
  induction l as [|info l IH]; simpl.
  - now rewrite String.eqb_refl.
  - intros H. apply orb_false_iff in H as [Hu Hl]. rewrite Hu. now apply IH.
Qed.

Lemma existsb_overwrite (state : WorkspaceTrustState) (l : list FolderInfo) :
  existsb (fun info => uri info =? folder) (map (overwrite folder state) l) =
  existsb (fun info => uri info =? folder) l.
Proof.
  induction l as [|info l IH]; simpl; [reflexivity|]. rewrite IH. f_equal.
  unfold overwrite. destruct (uri info =? folder) eqn:Hu; simpl; now rewrite ?Hu.
Qed.

(** The records after a [set] to a decided state. *)
Lemma mutateFolders_decided (state : WorkspaceTrustState) (l : list FolderInfo) :
  state <> Unknown ->
  fst (mutateFolders l folder state) =
  if existsb (fun info => uri info =? folder) l
  then map (overwrite folder state) l
  else map (overwrite folder state) l ++ [{| uri := folder; trustState := state |}].
Proof.
  intros Hs. unfold mutateFolders.
  destruct state; try congruence; rewrite updateLoop_spec; simpl;
    now destruct (existsb (fun info => uri info =? folder) l).
Qed.

Lemma mutateFolders_lookup (state : WorkspaceTrustState) (l : list FolderInfo) :
  lookupFolder (fst (mutateFolders l folder state)) folder = state.
Proof.
  destruct (trustState_eqb_spec state Unknown) as [->|Hs].
  - simpl. apply lookupFolder_absent. intros info H.
    now apply filter_removes in H.
  - rewrite mutateFolders_decided by assumption.
    destruct (existsb (fun info => uri info =? folder) l) eqn:Hf.
    + now apply lookupFolder_overwrite.
    + apply lookupFolder_push. now rewrite existsb_overwrite.
Qed.

(** A [set] puts no record at [Unknown] into the record set. *)
Lemma mutateFolders_no_new_Unknown (state : WorkspaceTrustState) (l : list FolderInfo) :
  forall info, In info (fst (mutateFolders l folder state)) ->
               trustState info = Unknown -> In info l.
Proof.
  intros info Hin Hu.
  destruct (trustState_eqb_spec state Unknown) as [->|Hs].
  - simpl in Hin. now apply filter_removes in Hin.
  - rewrite mutateFolders_decided in Hin by assumption.
    assert (Hmap : In info (map (overwrite folder state) l) -> In info l).
    { intros H. apply in_map_iff in H as [i [Hi Hl]]. unfold overwrite in Hi.
      destruct (uri i =? folder); subst; [|assumption].
      simpl in Hu. congruence. }
    destruct (existsb (fun i => uri i =? folder) l); [auto|].
    apply in_app_or in Hin as [H|[H|[]]]; [auto|].
    subst. simpl in Hu. congruence.
Qed.

End Records.

(** [setFolderTrustState] in closed form: it always returns, and it saves,
    reloads and fires exactly when [changed] was raised. *)
Lemma setFolderTrustState_spec (m : WorkspaceTrustModel) (folder : string)
    (state : WorkspaceTrustState) :
  let folders' := fst (mutateFolders (localFolders (trustStateInfo m)) folder state) in
  let info' := {| localFolders := folders' |} in
  setFolderTrustState m folder state =
  if snd (mutateFolders (localFolders (trustStateInfo m)) folder state)
  then Normal ({| storageService := Some (JSON_stringify (toJS info'));
                  trustStateInfo := info' |},
               [StorageStore WORKSPACE_TRUST_STORAGE_KEY (JSON_stringify (toJS info'));
                ModelDidChangeTrustState])
  else Normal ({| storageService := storageService m; trustStateInfo := info' |}, []).
Proof.
  unfold setFolderTrustState.
  destruct (mutateFolders (localFolders (trustStateInfo m)) folder state)
    as [folders' changed]; simpl.
  destruct changed; [|reflexivity].
  unfold saveTrustInfo, storageService_store, onDidChangeValue, onDidStorageChange.
  rewrite String.eqb_refl. cbn [storageService trustStateInfo].
  rewrite load_stringify. reflexivity.
Qed.

Lemma inSync_new (storage : option StoredText) (m : WorkspaceTrustModel) :
  WorkspaceTrustModel_new storage = Normal m -> inSync m.
Proof.
  unfold WorkspaceTrustModel_new, inSync.
  destruct (load storage) as [info|e] eqn:Hl; simpl; [|discriminate].
  intros H. injection H as <-. exact Hl.
Qed.

Lemma inSync_set (m m' : WorkspaceTrustModel) (folder : string)
    (state : WorkspaceTrustState) (effects : list Effect) :
  inSync m -> setFolderTrustState m folder state = Normal (m', effects) -> inSync m'.
Proof.
  intros Hm. rewrite setFolderTrustState_spec.
  destruct (snd (mutateFolders _ folder state)) eqn:Hc; intros H; injection H as <- <-.
  - unfold inSync. cbn [storageService trustStateInfo]. apply load_stringify.
  - apply mutateFolders_changed in Hc. rewrite Hc.
    unfold inSync in *. cbn [storageService trustStateInfo].
    now destruct m as [st [l]].
Qed.

Lemma inSync_onDidChangeValue (m m' : WorkspaceTrustModel) (key : string)
    (effects : list Effect) :
  inSync m -> onDidChangeValue m key = Normal (m', effects) -> inSync m'.
Proof.
  unfold onDidChangeValue, onDidStorageChange, inSync.
  destruct (key =? WORKSPACE_TRUST_STORAGE_KEY).
  - destruct (load (storageService m)) as [info|e] eqn:Hl; simpl; [|discriminate].
    intros _ H. injection H as <- <-. exact Hl.
  - intros Hm H. injection H as <- <-. exact Hm.
Qed.

Lemma isNoOp_spec (folders : list FolderInfo) (folder : string)
    (state : WorkspaceTrustState) :
  isNoOp folders folder state = true <->
  fst (mutateFolders folders folder state) = folders.
Proof.
  rewrite <- mutateFolders_changed.
  assert (Hdec : forall st, st <> Unknown ->
    snd (mutateFolders folders folder st) =
    negb (existsb (fun info => uri info =? folder) folders
          && negb (existsb (differs folder st) folders))).
  { intros st Hst. unfold mutateFolders.
    destruct st; try congruence; rewrite updateLoop_spec; simpl;
      destruct (existsb (fun info => uri info =? folder) folders); simpl;
      now rewrite ?negb_involutive. }
  destruct state.
  - rewrite Hdec by discriminate. simpl. now rewrite negb_false_iff.
  - rewrite Hdec by discriminate. simpl. now rewrite negb_false_iff.
  - simpl. rewrite negb_false_iff, negb_true_iff, Nat.eqb_eq. split.
    + intros H. f_equal. clear -H.
      induction folders as [|i l IH]; simpl in *; [reflexivity|].
      apply orb_false_iff in H as [Hi Hl]. rewrite Hi. simpl. f_equal. now apply IH.
    + intros H. apply filter_length_same in H.
      destruct (existsb (fun info => uri info =? folder) folders) eqn:He; [|reflexivity].
      apply existsb_exists in He as [i [Hin Hi]].
      rewrite <- H in Hin. apply filter_In in Hin as [_ Hn].
      rewrite Hi in Hn. discriminate.
Qed.

Lemma mutateFolders_Unknown_elsewhere (folder : string) (state : WorkspaceTrustState)
    (l : list FolderInfo) :
  forall info, In info (fst (mutateFolders l folder state)) ->
               trustState info = Unknown -> uri info <> folder.
Proof.
  intros info Hin Hu.
  destruct (trustState_eqb_spec state Unknown) as [->|Hs].
  - simpl in Hin. now apply filter_removes in Hin.
  - rewrite mutateFolders_decided in Hin by assumption.
    assert (Hmap : In info (map (overwrite folder state) l) -> uri info <> folder).
    { intros H. apply in_map_iff in H as [i [Hi Hl]]. unfold overwrite in Hi.
      destruct (String.eqb_spec (uri i) folder); subst; [|assumption].
      simpl in Hu. congruence. }
    destruct (existsb (fun i => uri i =? folder) l); [auto|].
    apply in_app_or in Hin as [H|[H|[]]]; [auto|].
    subst. simpl in Hu. congruence.
Qed.

(** C7. Trust store round-trip: after [set(f, Trusted)] a [get(f)] returns
    [Trusted]; after [set(f, Unknown)] a [get(f)] returns [Unknown], the
    record set holds no record for [f], and it is the persisted one whenever
    the store agreed with the storage before; [get] of a folder without a
    record returns [Unknown]. *)
Theorem set_get_round_trip (m : WorkspaceTrustModel) (f : string) :
  (exists m' effects,
      setFolderTrustState m f Trusted = Normal (m', effects) /\
      getFolderTrustState m' f = Trusted)
  /\ (exists m' effects,
      setFolderTrustState m f Unknown = Normal (m', effects) /\
      getFolderTrustState m' f = Unknown /\
      (forall info, In info (localFolders (trustStateInfo m')) -> uri info <> f) /\
      (inSync m -> inSync m'))
  /\ ((forall info, In info (localFolders (trustStateInfo m)) -> uri info <> f) ->
      getFolderTrustState m f = Unknown).
Proof.
  split; [|split].
  - pose proof (setFolderTrustState_spec m f Trusted) as H. cbv zeta in H.
    destruct (snd (mutateFolders _ f Trusted)); eexists; eexists;
      (split; [exact H|]); unfold getFolderTrustState;
      cbn [trustStateInfo localFolders]; apply mutateFolders_lookup.
  - pose proof (setFolderTrustState_spec m f Unknown) as H. cbv zeta in H.
    destruct (snd (mutateFolders _ f Unknown)) eqn:Hc; eexists; eexists;
      (split; [exact H|]); (split; [|split]);
      try (unfold getFolderTrustState; cbn [trustStateInfo localFolders];
           apply mutateFolders_lookup);
      try (cbn [trustStateInfo localFolders]; intros info Hin;
           now apply filter_removes in Hin);
      intros Hs; eapply inSync_set; eauto.
  - intros H. now apply lookupFolder_absent.
Qed.

Lemma set_get_round_trip_witness :
  let m := {| storageService := None; trustStateInfo := {| localFolders := [] |} |} in
  inSync m /\ getFolderTrustState m "file:///a" = Unknown /\
  exists m', inSync m' /\ getFolderTrustState m' "file:///a" = Unknown.
Proof.
  intros m.
  assert (Hs : inSync m) by reflexivity.
  destruct (set_get_round_trip m "file:///a") as (_ & (m' & effects & _ & Hget & _ & Hsync) & Habs).
  split; [exact Hs|]. split.
  - apply Habs. simpl. intros info [].
  - exists m'. split; [exact (Hsync Hs) | exact Hget].
Defined.

(** C8 (amended). Trust store mutation effects: a [set] that leaves the
    record set as it is (the state is already stored, or the record to
    remove is absent) writes nothing and fires nothing; every other [set]
    makes one write under the storage key, whose text reads back as the
    whole new record set, and the change notification fires after it; a
    [set] adds no record at [Unknown]: a record at [Unknown] in the record
    set after a [set] was there before and belongs to another folder, so
    that a record set without one stays without one. *)
Theorem set_effects (m : WorkspaceTrustModel) (folder : string)
    (state : WorkspaceTrustState) :
  let folders := localFolders (trustStateInfo m) in
  let folders' := fst (mutateFolders folders folder state) in
  (isNoOp folders folder state = true <-> folders' = folders)
  /\ (folders' = folders -> setFolderTrustState m folder state = Normal (m, []))
  /\ (folders' <> folders ->
      exists written,
        setFolderTrustState m folder state =
        Normal ({| storageService := Some written;
                   trustStateInfo := {| localFolders := folders' |} |},
                [StorageStore WORKSPACE_TRUST_STORAGE_KEY written;
                 ModelDidChangeTrustState])
        /\ load (Some written) = Normal {| localFolders := folders' |})
  /\ (forall info, In info folders' -> trustState info = Unknown ->
      In info folders /\ uri info <> folder)
  /\ (allDecided folders -> allDecided folders').
Proof.
  cbv zeta. split; [apply isNoOp_spec|].
  pose proof (setFolderTrustState_spec m folder state) as H. cbv zeta in H.
  pose proof (mutateFolders_changed folder state (localFolders (trustStateInfo m))) as Hc.
  split; [|split; [|split]].
  - intros E. rewrite H. apply Hc in E. rewrite E.
    apply Hc in E. rewrite E. now destruct m as [st [l]].
  - intros N. rewrite H.
    destruct (snd (mutateFolders _ folder state)).
    + eexists. split; [reflexivity | apply load_stringify].
    + exfalso. apply N. now apply Hc.
  - intros info Hin Hu. split.
    + eapply mutateFolders_no_new_Unknown; eauto.
    + eapply mutateFolders_Unknown_elsewhere; eauto.
  - intros Hd info Hin Hu. apply (Hd info); [|assumption].
    eapply mutateFolders_no_new_Unknown; eauto.
Qed.

Lemma set_effects_witness :
  let m := {| storageService := None; trustStateInfo := {| localFolders := [] |} |} in
  let loaded := {| storageService := None;
                   trustStateInfo :=
                     {| localFolders := [ {| uri := "file:///b"; trustState := Unknown |} ] |} |} in
  setFolderTrustState m "file:///a" Unknown = Normal (m, [])
  /\ (exists m' written,
      setFolderTrustState m "file:///a" Trusted =
      Normal (m', [StorageStore WORKSPACE_TRUST_STORAGE_KEY written;
                   ModelDidChangeTrustState])
      /\ load (Some written) =
         Normal {| localFolders := [ {| uri := "file:///a"; trustState := Trusted |} ] |})
  /\ "file:///b" <> "file:///a"
  /\ allDecided [ {| uri := "file:///a"; trustState := Trusted |} ].
Proof.
  intros m loaded. split; [|split; [|split]].
  - apply (set_effects m "file:///a" Unknown). reflexivity.
  - destruct (set_effects m "file:///a" Trusted) as (_ & _ & Hchg & _).
    destruct Hchg as (written & Hset & Hload); [simpl; discriminate|].
    eexists. exists written. split; [exact Hset | exact Hload].
  - destruct (set_effects loaded "file:///a" Trusted) as (_ & _ & _ & Hold & _).
    apply (Hold {| uri := "file:///b"; trustState := Unknown |});
      [simpl; auto | reflexivity].
  - destruct (set_effects m "file:///a" Trusted) as (_ & _ & _ & _ & Hdec).
    apply Hdec. intros info [].
Defined.

(** C8, as the specification states it, against the code: the constructor
    takes the records of the storage as they are, a record with
    [trustState] 2 included, and the next effective [set], here on another
    folder, writes that record back with the rest of the record set. *)
Lemma set_persists_loaded_Unknown :
  let payload :=
    JsonText (JObj [("localFolders",
                     JArr [JObj [("uri", JStr "file:///b"); ("trustState", JNum 2)]] [])]) in
  exists m m' written,
    WorkspaceTrustModel_new (Some payload) = Normal m
    /\ setFolderTrustState m "file:///a" Trusted =
       Normal (m', [StorageStore WORKSPACE_TRUST_STORAGE_KEY written;
                    ModelDidChangeTrustState])
    /\ storageService m' = Some written
    /\ load (Some written) =
       Normal {| localFolders := [ {| uri := "file:///b"; trustState := Unknown |};
                                   {| uri := "file:///a"; trustState := Trusted |} ] |}
    /\ ~ allDecided (localFolders (trustStateInfo m')).
Proof.
  intros payload. eexists. eexists. eexists.
  split; [reflexivity|]. split; [reflexivity|]. split; [reflexivity|].
  split; [reflexivity|].
  intros H. apply (H {| uri := "file:///b"; trustState := Unknown |});
    [simpl; auto | reflexivity].
Qed.

(** Along any sequence of [set] calls on a store without a record at
    [Unknown], no write holds one: what each write stored reads back as a
    record set without a record at [Unknown]. *)
Lemma no_Unknown_ever_persisted (calls : list (string * WorkspaceTrustState)) :
  forall m m' effects,
    allDecided (localFolders (trustStateInfo m)) ->
    setAll calls m = Normal (m', effects) ->
    allDecided (localFolders (trustStateInfo m'))
    /\ forall key value, In (StorageStore key value) effects ->
       exists folders, load (Some value) = Normal {| localFolders := folders |}
                       /\ allDecided folders.
Proof.
  induction calls as [|[folder state] rest IH]; intros m m' effects Hm; simpl.
  - intros H. injection H as <- <-. split; [assumption | intros ? ? []].
  - rewrite setFolderTrustState_spec.
    assert (Hd : allDecided (fst (mutateFolders (localFolders (trustStateInfo m)) folder state))).
    { intros info Hin Hu. apply (Hm info); [|assumption].
      eapply mutateFolders_no_new_Unknown; eauto. }
    destruct (snd (mutateFolders _ folder state)); cbn [bind];
      match goal with
      | |- context [setAll rest ?x] =>
          destruct (setAll rest x) as [[m2 fired2]|e] eqn:Hrest; cbn [bind];
          [|discriminate]; destruct (IH x m2 fired2 Hd Hrest) as [I1 I2]
      end;
      intros H; injection H as <- <-; (split; [assumption|]);
      intros key value Hin.
    + destruct Hin as [Hin|[Hin|Hin]]; [|discriminate|now apply (I2 key value)].
      injection Hin as <- <-. eexists. split; [apply load_stringify | exact Hd].
    + now apply (I2 key value).
Qed.

Lemma assoc_assoc_set (key : string) (v : JSValue) (props : list (string * JSValue)) :
  assoc key (assoc_set key v props) = Some v.
Proof.
  induction props as [|[k w] rest IH]; simpl.
  - now rewrite String.eqb_refl.
  - destruct (k =? key) eqn:E; simpl; now rewrite E.
Qed.

Lemma load_NoRecordSet (storage : option StoredText) :
  NoRecordSet storage -> load storage = Normal {| localFolders := [] |}.
Proof.
  intros H. destruct H as [ | | | v Hv | props Hp]; try reflexivity.
  - unfold load, loadTrustInfo. cbn [text_truthy JSON_parse bind try_catch is_truthy].
    rewrite Hv. reflexivity.
  - unfold load, loadTrustInfo.
    cbn [text_truthy JSON_parse bind try_catch is_truthy truthy negb getProp].
    rewrite Hp. cbn [negb setProp bind asTrustStateInfo].
    now rewrite assoc_assoc_set.
Qed.

(** A store constructed on a storage that carries no record set holds no
    record at [Unknown]. *)
Lemma allDecided_new (storage : option StoredText) (m : WorkspaceTrustModel) :
  NoRecordSet storage -> WorkspaceTrustModel_new storage = Normal m ->
  allDecided (localFolders (trustStateInfo m)).
Proof.
  intros Hn Hnew. unfold WorkspaceTrustModel_new in Hnew.
  rewrite (load_NoRecordSet storage Hn) in Hnew. cbn [bind] in Hnew.
  injection Hnew as <-. intros info [].
Qed.

(** The typed [get] is the JavaScript [get] on the object that
    [trustStateInfo] denotes. *)
Lemma lookupFolder_js_toJS (folders : list FolderInfo) (folder : string) :
  lookupFolder_js (map FolderInfo_toJS folders) folder =
  Normal (Some (JNum (WorkspaceTrustState_value (lookupFolder folders folder)))).
Proof.
  induction folders as [|info rest IH]; cbn [map lookupFolder_js lookupFolder].
  - reflexivity.
  - unfold FolderInfo_toJS at 1. simpl.
    destruct (uri info =? folder); [reflexivity | exact IH].
Qed.

Lemma getFolderTrustState_js_toJS (m : WorkspaceTrustModel) (folder : string) :
  getFolderTrustState_js (toJS (trustStateInfo m)) folder =
  Normal (Some (JNum (WorkspaceTrustState_value (getFolderTrustState m folder)))).
Proof.
  unfold getFolderTrustState_js, toJS, getFolderTrustState.
  cbn -[lookupFolder_js map]. apply lookupFolder_js_toJS.
Qed.

(** C9 (amended). Load-path fail-safety: a payload that is absent, empty or
    not JSON, or that is the text of a falsy value or of an object without
    a truthy [localFolders], loads as the empty record set; the constructor
    returns, every [get] answers [Unknown] and every [set] returns.  The
    text of an object with a truthy [localFolders] is loaded as parsed. *)
Theorem load_fail_safe :
  (forall storage,
      NoRecordSet storage ->
      load storage = Normal {| localFolders := [] |}
      /\ WorkspaceTrustModel_new storage =
         Normal {| storageService := storage;
                   trustStateInfo := {| localFolders := [] |} |}
      /\ (forall m, WorkspaceTrustModel_new storage = Normal m ->
          (forall folder, getFolderTrustState m folder = Unknown)
          /\ (forall folder state, exists m' effects,
                 setFolderTrustState m folder state = Normal (m', effects))))
  /\ (forall props folders,
      assoc "localFolders" props = Some folders -> truthy folders = true ->
      loadTrustInfo (Some (JsonText (JObj props))) = Normal (JObj props)).
Proof.
  split.
  - intros storage H. pose proof (load_NoRecordSet storage H) as Hl.
    split; [exact Hl|].
    assert (Hnew : WorkspaceTrustModel_new storage =
      Normal {| storageService := storage; trustStateInfo := {| localFolders := [] |} |}).
    { unfold WorkspaceTrustModel_new. now rewrite Hl. }
    split; [exact Hnew|].
    intros m Hm. rewrite Hnew in Hm. injection Hm as <-. split.
    + reflexivity.
    + intros folder state. rewrite setFolderTrustState_spec.
      destruct (snd (mutateFolders _ folder state)); eexists; eexists; reflexivity.
  - intros props folders Ha Ht. unfold loadTrustInfo.
    cbn [text_truthy JSON_parse bind try_catch is_truthy truthy negb getProp].
    rewrite Ha. cbn [is_truthy]. rewrite Ht. reflexivity.
Qed.

Lemma load_fail_safe_witness :
  load (Some Malformed) = Normal {| localFolders := [] |}
  /\ load None = Normal {| localFolders := [] |}
  /\ loadTrustInfo (Some (JsonText (JObj [("localFolders", JNum 5)]))) =
     Normal (JObj [("localFolders", JNum 5)]).
Proof.
  destruct load_fail_safe as [A B].
  split; [|split].
  - apply (A (Some Malformed)). apply payload_malformed.
  - apply (A None). apply payload_absent.
  - apply (B [("localFolders", JNum 5)] (JNum 5)); reflexivity.
Defined.

(** C9 as stated fails: the text of [{ localFolders: 5 }] parses, is not an
    [IWorkspaceTrustStateInfo], and is loaded as it stands, not as the
    empty record set; a [get] on it throws, as a number is not iterable. *)
Lemma load_keeps_wrong_structure :
  let parsed := JObj [("localFolders", JNum 5)] in
  JSON_parse (JsonText parsed) = Normal parsed
  /\ asTrustStateInfo parsed = Throw IllTyped
  /\ loadTrustInfo (Some (JsonText parsed)) = Normal parsed
  /\ loadTrustInfo (Some (JsonText parsed)) <> Normal emptyInfo
  /\ load (Some (JsonText parsed)) <> Normal {| localFolders := [] |}
  /\ getFolderTrustState_js parsed "file:///a" = Throw TypeError.
Proof.
  cbv zeta. repeat split; try reflexivity; vm_compute; discriminate.
Qed.

(* ===================================================================== *)
(** * Properties of the aggregation *)
(* ===================================================================== *)

Section Aggregation.

Variable m : WorkspaceTrustModel.

(** The loop, by what remains to be visited and what [state] holds. *)
Lemma calculateLoop_spec (folders : list string) :
  forall state,
    calculateLoop m folders state =
    if existsb (trustState_eqb Untrusted) (map (getFolderTrustState m) folders) then Untrusted
    else if existsb (trustState_eqb Unknown) (map (getFolderTrustState m) folders) then Unknown
    else match state with
         | Some t => t
         | None => match folders with [] => Unknown | _ :: _ => Trusted end
         end.
Proof.
  induction folders as [|folder rest IH]; intros state; simpl.
  - reflexivity.
  - destruct (getFolderTrustState m folder) eqn:Hget; simpl.
    + reflexivity.
    + rewrite IH. destruct state; reflexivity.
    + rewrite IH.
      destruct (existsb (trustState_eqb Untrusted) (map (getFolderTrustState m) rest)),
               (existsb (trustState_eqb Unknown) (map (getFolderTrustState m) rest)); reflexivity.
Qed.

End Aggregation.

Lemma existsb_Permutation {A} (f : A -> bool) (l l' : list A) :
  Permutation l l' -> existsb f l = existsb f l'.
Proof.
  induction 1 as [|x l l' _ IH|x y l|l l' l'' _ IH1 _ IH2]; simpl.
  - reflexivity.
  - now rewrite IH.
  - destruct (f x), (f y); reflexivity.
  - congruence.
Qed.

Lemma calculate_aggregate (s : WorkspaceTrustService) :
  calculateWorkspaceTrustState s =
  aggregate (folderStates s) (isWorkspaceTrustEnabled s)
            (workbenchState_eqb (workbenchState s) EMPTY).
Proof.
  unfold calculateWorkspaceTrustState, aggregate, folderStates.
  destruct (isWorkspaceTrustEnabled s); simpl; [|reflexivity].
  destruct (workbenchState_eqb (workbenchState s) EMPTY); [reflexivity|].
  rewrite calculateLoop_spec.
  destruct (_workspace s); reflexivity.
Qed.

Lemma existsb_eqb_In (t : WorkspaceTrustState) (l : list WorkspaceTrustState) :
  existsb (trustState_eqb t) l = true <-> In t l.
Proof.
  rewrite existsb_exists. split.
  - intros [x [Hin Hx]]. now destruct (trustState_eqb_spec t x); subst.
  - intros H. exists t. split; [assumption | apply trustState_eqb_refl].
Qed.

(** C1. The aggregation: [Trusted] when trust is not enabled; else
    [Trusted] when the workbench is empty; else [Untrusted] if a folder is
    [Untrusted], else [Unknown] if a folder is [Unknown], else [Trusted];
    and [Unknown] when the workspace has no folder. *)
Theorem calculateWorkspaceTrustState_spec (s : WorkspaceTrustService) :
  calculateWorkspaceTrustState s =
    aggregate (folderStates s) (isWorkspaceTrustEnabled s)
              (workbenchState_eqb (workbenchState s) EMPTY)
  /\ (isWorkspaceTrustEnabled s = false -> calculateWorkspaceTrustState s = Trusted)
  /\ (isWorkspaceTrustEnabled s = true -> workbenchState s = EMPTY ->
      calculateWorkspaceTrustState s = Trusted)
  /\ (isWorkspaceTrustEnabled s = true -> workbenchState s <> EMPTY ->
      (In Untrusted (folderStates s) -> calculateWorkspaceTrustState s = Untrusted)
      /\ (~ In Untrusted (folderStates s) -> In Unknown (folderStates s) ->
          calculateWorkspaceTrustState s = Unknown)
      /\ (~ In Untrusted (folderStates s) -> ~ In Unknown (folderStates s) ->
          folderStates s <> [] -> calculateWorkspaceTrustState s = Trusted)
      /\ (folderStates s = [] -> calculateWorkspaceTrustState s = Unknown)).
Proof.
  split; [apply calculate_aggregate|].
  rewrite calculate_aggregate. unfold aggregate.
  split; [|split].
  - now intros ->.
  - intros -> ->. reflexivity.
  - intros -> Hw. simpl.
    assert (Hne : workbenchState_eqb (workbenchState s) EMPTY = false)
      by (destruct (workbenchState s); [congruence|reflexivity|reflexivity]).
    rewrite Hne.
    destruct (existsb (trustState_eqb Untrusted) (folderStates s)) eqn:Hu;
      [apply existsb_eqb_In in Hu | assert (Hu' : ~ In Untrusted (folderStates s))
         by (rewrite <- existsb_eqb_In; congruence)];
      (destruct (existsb (trustState_eqb Unknown) (folderStates s)) eqn:Hk;
       [apply existsb_eqb_In in Hk | assert (Hk' : ~ In Unknown (folderStates s))
          by (rewrite <- existsb_eqb_In; congruence)]);
      destruct (folderStates s) as [|t l] eqn:Hl;
      repeat split; intros; try reflexivity; try contradiction; try congruence;
      try (now exfalso; auto).
Qed.

Lemma calculateWorkspaceTrustState_spec_witness :
  let a := "file:///a" in
  let b := "file:///b" in
  let s := exampleService [ {| uri := a; trustState := Trusted |};
                            {| uri := b; trustState := Untrusted |} ] [a; b] Untrusted in
  calculateWorkspaceTrustState s = Untrusted
  /\ calculateWorkspaceTrustState (with_workspace [a; "file:///c"] s) = Unknown
  /\ calculateWorkspaceTrustState (with_workspace [a] s) = Trusted
  /\ calculateWorkspaceTrustState (with_workspace [] s) = Unknown.
Proof.
  intros a b s.
  assert (He : forall folders, isWorkspaceTrustEnabled (with_workspace folders s) = true)
    by reflexivity.
  assert (Hw : forall folders, workbenchState (with_workspace folders s) <> EMPTY)
    by (intros folders; discriminate).
  split; [|split; [|split]].
  - destruct (calculateWorkspaceTrustState_spec s) as (_ & _ & _ & H).
    destruct (H (He [a; b]) (Hw [a; b])) as (H1 & _).
    apply H1. simpl. auto.
  - destruct (calculateWorkspaceTrustState_spec (with_workspace [a; "file:///c"] s))
      as (_ & _ & _ & H).
    destruct (H (He _) (Hw _)) as (_ & H2 & _).
    apply H2; simpl; [intros [E|[E|[]]]; discriminate | auto].
  - destruct (calculateWorkspaceTrustState_spec (with_workspace [a] s))
      as (_ & _ & _ & H).
    destruct (H (He _) (Hw _)) as (_ & _ & H3 & _).
    apply H3; simpl; [intros [E|[]]; discriminate | intros [E|[]]; discriminate | discriminate].
  - destruct (calculateWorkspaceTrustState_spec (with_workspace [] s))
      as (_ & _ & _ & H).
    destruct (H (He _) (Hw _)) as (_ & _ & _ & H4).
    apply H4. reflexivity.
Defined.

(** C2. Reordering the folder sequence does not change the aggregated
    state: two folder sequences whose state sequences are permutations of
    each other aggregate to the same state. *)
Theorem calculateWorkspaceTrustState_permutation (s : WorkspaceTrustService)
    (folders' : list string) :
  Permutation (folderStates s) (folderStates (with_workspace folders' s)) ->
  calculateWorkspaceTrustState (with_workspace folders' s) =
  calculateWorkspaceTrustState s.
Proof.
  intros HP. rewrite !calculate_aggregate.
  cbn [isWorkspaceTrustEnabled trustEnabledSetting workbenchState with_workspace].
  unfold aggregate.
  rewrite <- (existsb_Permutation _ _ _ HP), <- (existsb_Permutation _ _ _ HP).
  destruct (folderStates s) as [|t l] eqn:Hl.
  - apply Permutation_nil in HP. now rewrite HP.
  - destruct (folderStates (with_workspace folders' s)) eqn:Hl'; [|reflexivity].
    apply Permutation_sym, Permutation_nil in HP. discriminate.
Qed.

(** Reordering the folders reorders their states. *)
Lemma folderStates_permutation (s : WorkspaceTrustService) (folders' : list string) :
  Permutation (_workspace s) folders' ->
  Permutation (folderStates s) (folderStates (with_workspace folders' s)).
Proof. intros HP. unfold folderStates. simpl. now apply Permutation_map. Qed.

(** Every sequence of states is the state sequence of some workspace. *)
Lemma folderStates_onto (states : list WorkspaceTrustState) :
  exists m folders, map (getFolderTrustState m) folders = states.
Proof.
  exists {| storageService := None;
            trustStateInfo :=
              {| localFolders := [ {| uri := "u"; trustState := Untrusted |};
                                   {| uri := "t"; trustState := Trusted |} ] |} |}.
  exists (map (fun t => match t with
                        | Untrusted => "u" | Trusted => "t" | Unknown => "k"
                        end) states).
  induction states as [|t l IH]; simpl; [reflexivity|].
  f_equal; [now destruct t | exact IH].
Qed.

Lemma calculateWorkspaceTrustState_permutation_witness :
  let s := exampleService [ {| uri := "file:///a"; trustState := Trusted |} ]
                          ["file:///a"; "file:///b"] Unknown in
  Permutation (_workspace s) ["file:///b"; "file:///a"]
  /\ calculateWorkspaceTrustState (with_workspace ["file:///b"; "file:///a"] s) =
     calculateWorkspaceTrustState s.
Proof.
  intros s.
  assert (HP : Permutation (_workspace s) ["file:///b"; "file:///a"]) by apply perm_swap.
  split; [exact HP|].
  apply (calculateWorkspaceTrustState_permutation s ["file:///b"; "file:///a"]).
  apply folderStates_permutation. exact HP.
Defined.

(* ===================================================================== *)
(** * Properties of the request coordinator *)
(* ===================================================================== *)

(** C6. Request coordinator transition rule: with a request pending, the
    slot is replaced only when the new request is immediate and the pending
    one is not, and is left as it is otherwise; a call that is accepted
    (no request pending, or such an upgrade) fires the initiated
    notification once, a call that is rejected fires nothing. *)
Theorem initiateRequest_transition (m : WorkspaceTrustRequestModel)
    (request : IWorkspaceTrustRequest) :
  match trustRequest m with
  | None =>
      initiateRequest m request =
      ({| trustRequest := Some request |}, [DidInitiateRequest])
  | Some pending =>
      if immediate request && negb (immediate pending)
      then initiateRequest m request =
           ({| trustRequest := Some request |}, [DidInitiateRequest])
      else initiateRequest m request = (m, [])
  end.
Proof.
  unfold initiateRequest. destruct (trustRequest m) as [pending|]; [|reflexivity].
  destruct (immediate request), (immediate pending); reflexivity.
Qed.

(* ===================================================================== *)
(** * Properties of the service *)
(* ===================================================================== *)

(** Exposes the record behind the field updates and projects it. *)
Ltac fields :=
  unfold resolve, emit, currentTrustState,
    with_dataModel, with_requestModel, with_currentTrustState,
    with_inFlightResolver, with_trustRequestPromise, with_workspace,
    with_ctxWorkspaceTrustState, with_ctxWorkspaceTrustPendingRequest,
    with_promises, with_fired in *;
  cbn [dataModel requestModel _currentTrustState _inFlightResolver
       _trustRequestPromise _workspace _ctxWorkspaceTrustState
       _ctxWorkspaceTrustPendingRequest workbenchState trustEnabledSetting
       promises fired] in *.

Lemma sameRequestSide_refl (s : WorkspaceTrustService) : sameRequestSide s s.
Proof. repeat split. Qed.

Lemma sameRequestSide_trans (s1 s2 s3 : WorkspaceTrustService) :
  sameRequestSide s1 s2 -> sameRequestSide s2 s3 -> sameRequestSide s1 s3.
Proof.
  unfold sameRequestSide.
  intros (A1 & A2 & A3 & A4 & A5 & A6 & A7 & A8 & A9)
         (B1 & B2 & B3 & B4 & B5 & B6 & B7 & B8 & B9).
  repeat split; congruence.
Qed.

Lemma set_currentTrustState_frame (t : WorkspaceTrustState) (s : WorkspaceTrustService) :
  sameRequestSide s (set_currentTrustState t s)
  /\ dataModel (set_currentTrustState t s) = dataModel s.
Proof.
  unfold set_currentTrustState.
  destruct (trustState_eqb (_currentTrustState s) t); repeat split.
Qed.

Lemma deliver_frame (effects : list Effect) :
  forall s, sameRequestSide s (deliver effects s)
            /\ dataModel (deliver effects s) = dataModel s.
Proof.
  induction effects as [|e rest IH]; intros s; simpl.
  - split; [apply sameRequestSide_refl | reflexivity].
  - match goal with |- context [deliver rest ?x] => destruct (IH x) as [Hf Hd] end.
    rewrite Hd. clear IH Hd.
    assert (Hs : sameRequestSide s
                   (match e with
                    | ModelDidChangeTrustState => onModelDidChangeTrustState (emit [e] s)
                    | _ => emit [e] s
                    end)
                 /\ dataModel (match e with
                    | ModelDidChangeTrustState => onModelDidChangeTrustState (emit [e] s)
                    | _ => emit [e] s
                    end) = dataModel s).
    { destruct e; try (split; [repeat split | reflexivity]).
      unfold onModelDidChangeTrustState.
      destruct (set_currentTrustState_frame
                  (calculateWorkspaceTrustState (emit [ModelDidChangeTrustState] s))
                  (emit [ModelDidChangeTrustState] s)) as [Hf' Hd'].
      split; [|now rewrite Hd'].
      eapply sameRequestSide_trans; [|exact Hf']. repeat split. }
    destruct Hs as [Hs1 Hs2]. split; [|exact Hs2].
    eapply sameRequestSide_trans; eauto.
Qed.

(** A [set] through the service always returns; it touches the store, the
    cached state and the notifications only. *)
Lemma dataModel_setFolderTrustState_total (folder : string)
    (state : WorkspaceTrustState) (s : WorkspaceTrustService) :
  exists s', dataModel_setFolderTrustState folder state s = Normal s'
             /\ sameRequestSide s s'.
Proof.
  unfold dataModel_setFolderTrustState. rewrite setFolderTrustState_spec.
  destruct (snd (mutateFolders _ folder state)); cbn [bind];
    eexists; (split; [reflexivity|]);
    (eapply sameRequestSide_trans; [|apply deliver_frame]); repeat split.
Qed.

Lemma forEachFolder_total (folders : list string) (state : WorkspaceTrustState) :
  forall s, exists s', forEachFolder folders state s = Normal s'
                       /\ sameRequestSide s s'.
Proof.
  induction folders as [|folder rest IH]; intros s; simpl.
  - exists s. split; [reflexivity | apply sameRequestSide_refl].
  - destruct (dataModel_setFolderTrustState_total folder state s) as (s1 & -> & H1).
    cbn [bind]. destruct (IH s1) as (s2 & -> & H2).
    exists s2. split; [reflexivity|]. eapply sameRequestSide_trans; eauto.
Qed.

Lemma nth_error_settle (p : nat) (v : WorkspaceTrustState) :
  forall cells, nth_error cells p = Some None ->
                nth_error (settle p v cells) p = Some (Some v).
Proof.
  induction p as [|p IH]; intros [|c rest]; simpl; try discriminate.
  - intros H. injection H as ->. reflexivity.
  - apply IH.
Qed.

Lemma nth_error_fresh {A} (l : list A) (a : A) :
  nth_error (l ++ [a]) (List.length l) = Some a.
Proof. rewrite nth_error_app2, Nat.sub_diag by lia. reflexivity. Qed.

(** A completion without a decision, in closed form. *)
Lemma completeRequest_absent (s : WorkspaceTrustService) :
  requestModel_completeRequest None s =
  Normal
    (with_trustRequestPromise None
       (with_inFlightResolver None
          (let s1 := emit [DidCompleteRequest None]
                          (with_requestModel {| trustRequest := None |} s) in
           match _inFlightResolver s with
           | Some p => resolve p (currentTrustState s) s1
           | None => s1
           end))).
Proof.
  unfold requestModel_completeRequest, completeRequest, onTrustRequestCompleted.
  cbn. destruct (_inFlightResolver s); reflexivity.
Qed.

(** A completion with a decision always returns; [promises] holds the
    decision, the promise and its resolver are cleared, the flag is
    lowered. *)
Lemma completeRequest_decided (t : WorkspaceTrustState) (s : WorkspaceTrustService) :
  exists s', requestModel_completeRequest (Some t) s = Normal s'
    /\ promises s' = match _inFlightResolver s with
                     | Some p => settle p t (promises s)
                     | None => promises s
                     end
    /\ _trustRequestPromise s' = None
    /\ _inFlightResolver s' = None
    /\ _ctxWorkspaceTrustPendingRequest s' = false
    /\ _ctxWorkspaceTrustState s' = t
    /\ requestModel s' = {| trustRequest := None |}.
Proof.
  unfold requestModel_completeRequest, completeRequest, onTrustRequestCompleted.
  cbn [fst snd]. fields.
  destruct (_inFlightResolver s) as [p|];
    (match goal with
     | |- context [forEachFolder ?f ?t ?x] =>
         destruct (forEachFolder_total f t x) as (s1 & -> & H)
     end;
     cbn [bind]; eexists; (split; [reflexivity|]);
     destruct H as (A1 & A2 & A3 & A4 & A5 & A6 & A7 & A8 & A9);
     fields; rewrite A9, A1; repeat split; assumption).
Qed.

Lemma requireWorkspaceTrust_fast (request : IWorkspaceTrustRequest)
    (s : WorkspaceTrustService) :
  fastPath request s = true ->
  requireWorkspaceTrust request s = (Resolved (currentTrustState s), s).
Proof.
  unfold fastPath, requireWorkspaceTrust. intros H.
  destruct (trustState_eqb (currentTrustState s) Trusted); [reflexivity|].
  simpl in H. now rewrite H.
Qed.

Lemma requireWorkspaceTrust_pending (request : IWorkspaceTrustRequest)
    (s : WorkspaceTrustService) (p : nat) :
  fastPath request s = false -> _trustRequestPromise s = Some p ->
  requireWorkspaceTrust request s =
  (Awaits p, if upgrades request s then requestModel_initiateRequest request s else s).
Proof.
  unfold fastPath, requireWorkspaceTrust, upgrades. intros H Hp.
  apply orb_false_iff in H as [-> ->]. now rewrite Hp.
Qed.

Lemma requireWorkspaceTrust_fresh (request : IWorkspaceTrustRequest)
    (s : WorkspaceTrustService) :
  fastPath request s = false -> _trustRequestPromise s = None ->
  requireWorkspaceTrust request s =
  (Awaits (List.length (promises s)),
   with_ctxWorkspaceTrustPendingRequest true
     (requestModel_initiateRequest request
        (with_trustRequestPromise (Some (List.length (promises s)))
           (with_inFlightResolver (Some (List.length (promises s)))
              (with_promises (promises s ++ [None]) s))))).
Proof.
  unfold fastPath, requireWorkspaceTrust. intros H Hp.
  apply orb_false_iff in H as [-> ->]. now rewrite Hp.
Qed.

Lemma requestModel_initiateRequest_frame (request : IWorkspaceTrustRequest)
    (s : WorkspaceTrustService) :
  let s' := requestModel_initiateRequest request s in
  dataModel s' = dataModel s
  /\ _currentTrustState s' = _currentTrustState s
  /\ _inFlightResolver s' = _inFlightResolver s
  /\ _trustRequestPromise s' = _trustRequestPromise s
  /\ _ctxWorkspaceTrustPendingRequest s' = _ctxWorkspaceTrustPendingRequest s
  /\ promises s' = promises s.
Proof.
  unfold requestModel_initiateRequest.
  destruct (initiateRequest (requestModel s) request) as [m effects].
  repeat split.
Qed.

(** C5. Fast paths of [requireWorkspaceTrust]: at [Trusted] the call
    resolves at once with [Trusted]; at [Untrusted] a call that is not
    immediate resolves at once with [Untrusted]; in both the service is left
    exactly as it was, so no request is initiated and nothing fires. *)
Theorem requireWorkspaceTrust_fast_paths (s : WorkspaceTrustService)
    (request : IWorkspaceTrustRequest) :
  (currentTrustState s = Trusted ->
   requireWorkspaceTrust request s = (Resolved Trusted, s))
  /\ (currentTrustState s = Untrusted -> immediate request = false ->
      requireWorkspaceTrust request s = (Resolved Untrusted, s)).
Proof.
  split.
  - intros H. rewrite requireWorkspaceTrust_fast; [now rewrite H|].
    unfold fastPath. now rewrite H.
  - intros H Hi. rewrite requireWorkspaceTrust_fast; [now rewrite H|].
    unfold fastPath. now rewrite H, Hi.
Qed.

Lemma requestModel_initiateRequest_upgrade (request : IWorkspaceTrustRequest)
    (s : WorkspaceTrustService) :
  upgrades request s = true ->
  requestModel (requestModel_initiateRequest request s) = {| trustRequest := Some request |}
  /\ fired (requestModel_initiateRequest request s) = fired s ++ [DidInitiateRequest].
Proof.
  unfold upgrades, requestModel_initiateRequest, initiateRequest. intros H.
  apply andb_true_iff in H as [Hi Hp]. rewrite Hi.
  destruct (trustRequest (requestModel s)) as [pending|]; [|discriminate].
  apply negb_true_iff in Hp. rewrite Hp. split; reflexivity.
Qed.

Lemma wellFormed_frame (s s' : WorkspaceTrustService) :
  sameRequestSide s s' -> wellFormed s -> wellFormed s'.
Proof.
  intros (A1 & A2 & A3 & A4 & A5 & A6 & A7 & A8 & A9) [W1 W2].
  unfold wellFormed. rewrite A2, A3, A9. auto.
Qed.

Lemma wellFormed_new (storage : option StoredText) (folders : list string)
    (workbench : WorkbenchState) (setting : option bool) (s : WorkspaceTrustService) :
  WorkspaceTrustService_new storage folders workbench setting = Normal s ->
  wellFormed s.
Proof.
  unfold WorkspaceTrustService_new.
  destruct (WorkspaceTrustModel_new storage) as [m|e]; cbn [bind]; [|discriminate].
  intros H. injection H as <-. split; [reflexivity | discriminate].
Qed.

(** Every call keeps the promise and its resolver together. *)
Lemma wellFormed_step (a : Action) (s s' : WorkspaceTrustService) :
  wellFormed s -> step a s = Normal s' -> wellFormed s'.
Proof.
  intros W. destruct a as [request| |request|decision|key value]; simpl.
  - intros H. injection H as <-.
    destruct (fastPath request s) eqn:Hf.
    + now rewrite requireWorkspaceTrust_fast.
    + destruct (_trustRequestPromise s) as [p|] eqn:Hp.
      * rewrite (requireWorkspaceTrust_pending _ _ p Hf Hp). cbn [snd].
        destruct (upgrades request s); [|assumption].
        pose proof (requestModel_initiateRequest_frame request s) as F.
        cbv zeta in F. destruct F as (_ & _ & F1 & F2 & _ & F3).
        destruct W as [W1 W2]. unfold wellFormed. rewrite F1, F2, F3. auto.
      * rewrite (requireWorkspaceTrust_fresh _ _ Hf Hp). cbn [snd].
        unfold wellFormed, requestModel_initiateRequest.
        destruct (initiateRequest _ request) as [m effects]. fields.
        split; [reflexivity|]. intros p H. injection H as <-.
        apply nth_error_fresh.
  - unfold resetWorkspaceTrust.
    destruct (negb (trustState_eqb (currentTrustState s) Unknown)).
    + destruct (forEachFolder_total (_workspace s) Unknown s) as (s1 & -> & F).
      cbn [bind]. intros H. injection H as <-. eapply wellFormed_frame; eauto.
    + cbn [bind]. intros H. now injection H as <-.
  - intros H. injection H as <-.
    pose proof (requestModel_initiateRequest_frame request s) as F.
    cbv zeta in F. destruct F as (_ & _ & F1 & F2 & _ & F3).
    destruct W as [W1 W2]. unfold wellFormed. rewrite F1, F2, F3. auto.
  - destruct decision as [t|].
    + destruct (completeRequest_decided t s) as (s1 & -> & _ & Hp & Hr & _).
      intros H. injection H as <-. unfold wellFormed. rewrite Hp, Hr.
      split; [reflexivity | discriminate].
    + rewrite completeRequest_absent. intros H. injection H as <-.
      split; [reflexivity | discriminate].
  - unfold storageDidChange.
    destruct (onDidChangeValue _ key) as [[m effects]|e]; cbn [bind]; [|discriminate].
    intros H. injection H as <-.
    eapply wellFormed_frame; [|exact W].
    eapply sameRequestSide_trans; [|apply deliver_frame]. repeat split.
Qed.

Lemma wellFormed_run (actions : list Action) :
  forall s s', wellFormed s -> run actions s = Normal s' -> wellFormed s'.
Proof.
  induction actions as [|a rest IH]; intros s s' W; simpl.
  - intros H. now injection H as <-.
  - destruct (step a s) as [s1|e] eqn:Hs; cbn [bind]; [|discriminate].
    apply IH. eapply wellFormed_step; eauto.
Qed.

(** What the callers of a retained promise receive when the request
    completes. *)
Lemma completeRequest_outcome (decision : option WorkspaceTrustState)
    (s : WorkspaceTrustService) (p : nat) :
  _inFlightResolver s = Some p -> nth_error (promises s) p = Some None ->
  exists s', requestModel_completeRequest decision s = Normal s'
    /\ outcome (Awaits p) s' =
       Some (match decision with Some t => t | None => currentTrustState s end)
    /\ _trustRequestPromise s' = None
    /\ _inFlightResolver s' = None.
Proof.
  intros Hr Hn. destruct decision as [t|].
  - destruct (completeRequest_decided t s) as (s' & Hc & Hp & H1 & H2 & _).
    exists s'. split; [exact Hc|]. rewrite Hr in Hp.
    unfold outcome. rewrite Hp, (nth_error_settle _ _ _ Hn). auto.
  - rewrite completeRequest_absent. eexists. split; [reflexivity|].
    rewrite Hr. unfold outcome. fields.
    rewrite (nth_error_settle _ _ _ Hn). auto.
Qed.

(** A call that finds a promise and is not answered by a fast path. *)
Lemma requireWorkspaceTrust_retained (s : WorkspaceTrustService)
    (request : IWorkspaceTrustRequest) (p : nat) :
  _trustRequestPromise s = Some p ->
  fastPath request s = false ->
  fst (requireWorkspaceTrust request s) = Awaits p
  /\ _trustRequestPromise (snd (requireWorkspaceTrust request s)) = Some p
  /\ _inFlightResolver (snd (requireWorkspaceTrust request s)) = _inFlightResolver s
  /\ promises (snd (requireWorkspaceTrust request s)) = promises s
  /\ currentTrustState (snd (requireWorkspaceTrust request s)) = currentTrustState s.
Proof.
  intros Hp Hf.
  rewrite (requireWorkspaceTrust_pending _ _ p Hf Hp). cbn [fst snd].
  pose proof (requestModel_initiateRequest_frame request s) as F.
  cbv zeta in F. destruct F as (F0 & Fc & F1 & F2 & _ & F3).
  split; [reflexivity|].
  unfold currentTrustState. destruct (upgrades request s); [|auto].
  rewrite F1, F2, F3, Fc. auto.
Qed.

(** C3 (amended). Single-flight: with a promise retained, a call that no
    fast path answers returns that promise; no promise is created, the
    resolver is kept; [initiateRequest] is called exactly when the request
    is immediate and the coordinator holds a request that is not, and then
    replaces it and fires; when the request completes, the shared promise
    takes one value, which every caller holding it receives. *)
Theorem single_flight (s : WorkspaceTrustService)
    (request : IWorkspaceTrustRequest) (p : nat) :
  _trustRequestPromise s = Some p ->
  fastPath request s = false ->
  let s' := snd (requireWorkspaceTrust request s) in
  fst (requireWorkspaceTrust request s) = Awaits p
  /\ _trustRequestPromise s' = Some p
  /\ _inFlightResolver s' = _inFlightResolver s
  /\ promises s' = promises s
  /\ (upgrades request s = true ->
      s' = requestModel_initiateRequest request s
      /\ requestModel s' = {| trustRequest := Some request |}
      /\ fired s' = fired s ++ [DidInitiateRequest])
  /\ (upgrades request s = false -> s' = s)
  /\ (wellFormed s -> forall decision, exists s'',
      requestModel_completeRequest decision s' = Normal s''
      /\ outcome (Awaits p) s'' =
         Some (match decision with Some t => t | None => currentTrustState s end)
      /\ _trustRequestPromise s'' = None).
Proof.
  intros Hp Hf. cbv zeta.
  destruct (requireWorkspaceTrust_retained s request p Hp Hf) as (K0 & K1 & K2 & K3 & K4).
  do 4 (split; [assumption|]).
  split; [|split].
  - intros Hu. rewrite (requireWorkspaceTrust_pending _ _ p Hf Hp), Hu. cbn [snd].
    split; [reflexivity|]. now apply requestModel_initiateRequest_upgrade.
  - intros Hu. now rewrite (requireWorkspaceTrust_pending _ _ p Hf Hp), Hu.
  - intros [W1 W2] decision.
    destruct (completeRequest_outcome decision
                (snd (requireWorkspaceTrust request s)) p)
      as (s'' & Hc & Ho & Hn & _).
    + rewrite K2, W1. exact Hp.
    + rewrite K3. now apply W2.
    + exists s''. rewrite K4 in Ho. auto.
Qed.

Lemma exampleService_new (records : list FolderInfo) (folders : list string) :
  WorkspaceTrustService_new
    (Some (JSON_stringify (toJS {| localFolders := records |})))
    folders FOLDER (Some true) =
  Normal (exampleService records folders
            (calculateLoop
               {| storageService := Some (JSON_stringify (toJS {| localFolders := records |}));
                  trustStateInfo := {| localFolders := records |} |}
               folders None)).
Proof.
  unfold WorkspaceTrustService_new, WorkspaceTrustModel_new.
  rewrite load_stringify. reflexivity.
Qed.

Lemma single_flight_witness :
  let s := snd (requireWorkspaceTrust backgroundRequest
                  (exampleService [] ["file:///a"] Unknown)) in
  _trustRequestPromise s = Some 0
  /\ fastPath immediateRequest s = false
  /\ upgrades immediateRequest s = true
  /\ upgrades backgroundRequest s = false
  /\ wellFormed s
  /\ fst (requireWorkspaceTrust immediateRequest s) = Awaits 0
  /\ fired (snd (requireWorkspaceTrust immediateRequest s)) = fired s ++ [DidInitiateRequest]
  /\ snd (requireWorkspaceTrust backgroundRequest s) = s
  /\ exists s'',
      requestModel_completeRequest (Some Trusted)
        (snd (requireWorkspaceTrust immediateRequest s)) = Normal s''
      /\ outcome (Awaits 0) s'' = Some Trusted.
Proof.
  intros s.
  assert (Hp : _trustRequestPromise s = Some 0) by reflexivity.
  assert (Hf : fastPath immediateRequest s = false) by reflexivity.
  assert (Hf' : fastPath backgroundRequest s = false) by reflexivity.
  assert (Hu : upgrades immediateRequest s = true) by reflexivity.
  assert (Hu' : upgrades backgroundRequest s = false) by reflexivity.
  assert (W : wellFormed s).
  { split; [reflexivity|]. intros p H. injection H as <-. reflexivity. }
  destruct (single_flight s immediateRequest 0 Hp Hf)
    as (H1 & _ & _ & _ & H5 & _ & H7).
  destruct (single_flight s backgroundRequest 0 Hp Hf')
    as (_ & _ & _ & _ & _ & H6 & _).
  destruct (H5 Hu) as (_ & _ & Hfired).
  destruct (H7 W (Some Trusted)) as (s'' & Hc & Ho & _).
  do 6 (split; [assumption|]).
  split; [exact Hfired|]. split; [exact (H6 Hu')|].
  exists s''. split; assumption.
Defined.

(** C3 as stated fails: at [Untrusted] an immediate call retains promise 0,
    and a further call that is not immediate is answered at once with
    [Untrusted] instead of receiving promise 0. *)
Lemma pending_promise_not_returned :
  let s0 := exampleService [ {| uri := "file:///a"; trustState := Untrusted |} ]
                           ["file:///a"] Untrusted in
  let s1 := snd (requireWorkspaceTrust immediateRequest s0) in
  WorkspaceTrustService_new
    (Some (JSON_stringify
             (toJS {| localFolders := [ {| uri := "file:///a"; trustState := Untrusted |} ] |})))
    ["file:///a"] FOLDER (Some true) = Normal s0
  /\ requireWorkspaceTrust immediateRequest s0 = (Awaits 0, s1)
  /\ _trustRequestPromise s1 = Some 0
  /\ outcome (Awaits 0) s1 = None
  /\ requireWorkspaceTrust backgroundRequest s1 = (Resolved Untrusted, s1)
  /\ fst (requireWorkspaceTrust backgroundRequest s1) <> Awaits 0.
Proof.
  cbv zeta. repeat split; try reflexivity. vm_compute. discriminate.
Qed.

(** Two calls in a row that no fast path answers receive the same promise,
    and a completion gives both the same value. *)
Lemma two_callers_share (s : WorkspaceTrustService)
    (first second : IWorkspaceTrustRequest) :
  wellFormed s ->
  fastPath first s = false -> fastPath second s = false ->
  let r1 := requireWorkspaceTrust first s in
  let r2 := requireWorkspaceTrust second (snd r1) in
  fst r1 = fst r2
  /\ forall decision, exists s', exists v,
      requestModel_completeRequest decision (snd r2) = Normal s'
      /\ outcome (fst r1) s' = Some v /\ outcome (fst r2) s' = Some v.
Proof.
  intros W F1 F2. cbv zeta.
  assert (H1 : exists p, fst (requireWorkspaceTrust first s) = Awaits p
                 /\ _trustRequestPromise (snd (requireWorkspaceTrust first s)) = Some p).
  { destruct (_trustRequestPromise s) as [p|] eqn:Hp.
    - exists p. destruct (requireWorkspaceTrust_retained s first p Hp F1) as (A & B & _). auto.
    - rewrite (requireWorkspaceTrust_fresh _ _ F1 Hp). cbn [fst snd].
      eexists. split; [reflexivity|].
      unfold requestModel_initiateRequest.
      destruct (initiateRequest _ first). reflexivity. }
  destruct H1 as (p & Hfst & Hprom).
  assert (W1 : wellFormed (snd (requireWorkspaceTrust first s))).
  { apply (wellFormed_step (RequireWorkspaceTrust first) s); [assumption|reflexivity]. }
  assert (F2' : fastPath second (snd (requireWorkspaceTrust first s)) = false).
  { assert (E : currentTrustState (snd (requireWorkspaceTrust first s)) = currentTrustState s).
    { destruct (_trustRequestPromise s) as [q|] eqn:Hq.
      - rewrite (requireWorkspaceTrust_pending _ _ q F1 Hq). cbn [snd].
        destruct (upgrades first s); [|reflexivity].
        apply (requestModel_initiateRequest_frame first s).
      - rewrite (requireWorkspaceTrust_fresh _ _ F1 Hq). cbn [snd].
        unfold requestModel_initiateRequest.
        destruct (initiateRequest _ first). reflexivity. }
    unfold fastPath in *. now rewrite E. }
  destruct (requireWorkspaceTrust_retained _ second p Hprom F2') as (A & _ & K2 & K3 & _).
  rewrite Hfst, A. split; [reflexivity|].
  intros decision. destruct W1 as [W1 W2].
  destruct (completeRequest_outcome decision
              (snd (requireWorkspaceTrust second (snd (requireWorkspaceTrust first s)))) p)
    as (s' & Hc & Ho & _).
  - rewrite K2, W1. exact Hprom.
  - rewrite K3. now apply W2.
  - exists s'. eexists. split; [exact Hc|]. split; exact Ho.
Qed.

(** C4 (amended). Cancellation: a completion without a decision resolves
    the retained promise to the aggregated state the service holds at that
    moment and changes neither the store nor that state; when it follows
    the request directly, this is the state from before the request. *)
Theorem cancellation_resolves_to_current :
  (forall s p,
      _inFlightResolver s = Some p -> nth_error (promises s) p = Some None ->
      exists s', requestModel_completeRequest None s = Normal s'
        /\ outcome (Awaits p) s' = Some (currentTrustState s)
        /\ dataModel s' = dataModel s
        /\ currentTrustState s' = currentTrustState s
        /\ _trustRequestPromise s' = None
        /\ _inFlightResolver s' = None)
  /\ (forall s request,
      fastPath request s = false -> _trustRequestPromise s = None ->
      exists s', requestModel_completeRequest None
                   (snd (requireWorkspaceTrust request s)) = Normal s'
        /\ outcome (fst (requireWorkspaceTrust request s)) s' = Some (currentTrustState s)
        /\ dataModel s' = dataModel s).
Proof.
  assert (A : forall s p,
      _inFlightResolver s = Some p -> nth_error (promises s) p = Some None ->
      exists s', requestModel_completeRequest None s = Normal s'
        /\ outcome (Awaits p) s' = Some (currentTrustState s)
        /\ dataModel s' = dataModel s
        /\ currentTrustState s' = currentTrustState s
        /\ _trustRequestPromise s' = None
        /\ _inFlightResolver s' = None).
  { intros s p Hr Hn. rewrite completeRequest_absent. eexists.
    split; [reflexivity|]. rewrite Hr. unfold outcome. fields.
    rewrite (nth_error_settle _ _ _ Hn). repeat split. }
  split; [exact A|].
  intros s request Hf Hp.
  rewrite (requireWorkspaceTrust_fresh _ _ Hf Hp). cbn [fst snd].
  match goal with
  | |- context [requestModel_completeRequest None ?x] =>
      destruct (A x (List.length (promises s))) as (s' & Hc & Ho & Hd & _)
  end.
  - unfold requestModel_initiateRequest.
    destruct (initiateRequest _ request). reflexivity.
  - unfold requestModel_initiateRequest.
    destruct (initiateRequest _ request). fields. apply nth_error_fresh.
  - exists s'. split; [exact Hc|]. rewrite Ho, Hd.
    unfold requestModel_initiateRequest.
    destruct (initiateRequest _ request). split; reflexivity.
Qed.

Lemma cancellation_resolves_to_current_witness :
  let s := exampleService [] ["file:///a"] Unknown in
  let s1 := snd (requireWorkspaceTrust backgroundRequest s) in
  fastPath backgroundRequest s = false
  /\ _trustRequestPromise s = None
  /\ _inFlightResolver s1 = Some 0
  /\ nth_error (promises s1) 0 = Some None
  /\ (exists s', requestModel_completeRequest None s1 = Normal s'
        /\ outcome (Awaits 0) s' = Some (currentTrustState s1)
        /\ dataModel s' = dataModel s1)
  /\ (exists s', requestModel_completeRequest None s1 = Normal s'
        /\ outcome (fst (requireWorkspaceTrust backgroundRequest s)) s' = Some Unknown
        /\ dataModel s' = dataModel s).
Proof.
  intros s s1.
  assert (Hf : fastPath backgroundRequest s = false) by reflexivity.
  assert (Hp : _trustRequestPromise s = None) by reflexivity.
  assert (Hr : _inFlightResolver s1 = Some 0) by reflexivity.
  assert (Hn : nth_error (promises s1) 0 = Some None) by reflexivity.
  destruct cancellation_resolves_to_current as [A B].
  do 4 (split; [assumption|]). split.
  - destruct (A s1 0 Hr Hn) as (s' & Hc & Ho & Hd & _).
    exists s'. auto.
  - exact (B s backgroundRequest Hf Hp).
Defined.

(** C4 as stated fails: the request is made at [Unknown]; before the prompt
    is dismissed another window stores the folder as [Untrusted]; the
    dismissal then resolves the promise to [Untrusted], not to the state
    from before the request. *)
Lemma cancellation_not_state_before_request :
  let s0 := exampleService [] ["file:///a"] Unknown in
  let written :=
    Some (JSON_stringify
            (toJS {| localFolders := [ {| uri := "file:///a"; trustState := Untrusted |} ] |})) in
  exists s2 s3,
    WorkspaceTrustService_new (Some (JSON_stringify (toJS {| localFolders := [] |})))
      ["file:///a"] FOLDER (Some true) = Normal s0
    /\ currentTrustState s0 = Unknown
    /\ fst (requireWorkspaceTrust backgroundRequest s0) = Awaits 0
    /\ storageDidChange WORKSPACE_TRUST_STORAGE_KEY written
         (snd (requireWorkspaceTrust backgroundRequest s0)) = Normal s2
    /\ outcome (Awaits 0) s2 = None
    /\ requestModel_completeRequest None s2 = Normal s3
    /\ outcome (Awaits 0) s3 = Some Untrusted
    /\ outcome (Awaits 0) s3 <> Some (currentTrustState s0).
Proof.
  cbv zeta. eexists. eexists.
  split; [reflexivity|]. split; [reflexivity|]. split; [reflexivity|].
  split; [vm_compute; reflexivity|].
  split; [reflexivity|].
  split; [vm_compute; reflexivity|].
  split; [reflexivity|]. vm_compute. discriminate.
Qed.

Lemma requireWorkspaceTrust_fast_paths_witness :
  let trusted := exampleService [ {| uri := "file:///a"; trustState := Trusted |} ]
                                ["file:///a"] Trusted in
  let untrusted := exampleService [ {| uri := "file:///a"; trustState := Untrusted |} ]
                                  ["file:///a"] Untrusted in
  requireWorkspaceTrust immediateRequest trusted = (Resolved Trusted, trusted)
  /\ requireWorkspaceTrust backgroundRequest untrusted = (Resolved Untrusted, untrusted).
Proof.
  intros trusted untrusted. split.
  - apply (requireWorkspaceTrust_fast_paths trusted immediateRequest). reflexivity.
  - apply (requireWorkspaceTrust_fast_paths untrusted backgroundRequest); reflexivity.
Defined.



(* ===================================================================== *)
(** * Further properties of the trust store *)
(* ===================================================================== *)

Lemma lookupFolder_filter_other (folder other : string) (l : list FolderInfo) :
  other <> folder ->
  lookupFolder (filter (fun i => negb (uri i =? folder)) l) other = lookupFolder l other.
Proof.
  intros Hne. induction l as [|info l IH]; simpl; [reflexivity|].
  destruct (String.eqb_spec (uri info) folder) as [E|N]; simpl.
  - destruct (String.eqb_spec (uri info) other) as [E'|_]; [congruence | exact IH].
  - now rewrite IH.
Qed.

Lemma lookupFolder_overwrite_other (folder other : string) (state : WorkspaceTrustState)
    (l : list FolderInfo) :
  other <> folder ->
  lookupFolder (map (overwrite folder state) l) other = lookupFolder l other.
Proof.
  intros Hne. induction l as [|info l IH]; simpl; [reflexivity|].
  unfold overwrite at 1 2.
  destruct (String.eqb_spec (uri info) folder) as [E|N]; simpl; rewrite IH.
  - destruct (String.eqb_spec (uri info) other) as [E'|_]; [congruence | reflexivity].
  - reflexivity.
Qed.

Lemma lookupFolder_push_other (folder other : string) (state : WorkspaceTrustState)
    (l : list FolderInfo) :
  other <> folder ->
  lookupFolder (l ++ [{| uri := folder; trustState := state |}]) other =
  lookupFolder l other.
Proof.
  intros Hne. induction l as [|info l IH]; simpl.
  - destruct (String.eqb_spec folder other) as [E|_]; [congruence | reflexivity].
  - now rewrite IH.
Qed.

(** What [get] answers on the records a [set] leaves. *)
Lemma mutateFolders_lookup_any (folder : string) (state : WorkspaceTrustState)
    (l : list FolderInfo) (other : string) :
  lookupFolder (fst (mutateFolders l folder state)) other =
  if other =? folder then state else lookupFolder l other.
Proof.
  destruct (String.eqb_spec other folder) as [->|Hne].
  - apply mutateFolders_lookup.
  - destruct (trustState_eqb_spec state Unknown) as [->|Hs].
    + simpl. now apply lookupFolder_filter_other.
    + rewrite mutateFolders_decided by assumption.
      destruct (existsb (fun i => uri i =? folder) l).
      * now apply lookupFolder_overwrite_other.
      * rewrite lookupFolder_push_other by assumption.
        now apply lookupFolder_overwrite_other.
Qed.

(** The store a [set] leaves, whatever it fired. *)
Lemma setFolderTrustState_records (m : WorkspaceTrustModel) (folder : string)
    (state : WorkspaceTrustState) :
  exists m' effects,
    setFolderTrustState m folder state = Normal (m', effects)
    /\ localFolders (trustStateInfo m') =
       fst (mutateFolders (localFolders (trustStateInfo m)) folder state).
Proof.
  rewrite setFolderTrustState_spec.
  destruct (snd (mutateFolders _ folder state)); eexists; eexists;
    split; reflexivity.
Qed.

(** X1. [set] then [get]: after [set(f, t)] a [get(f)] answers [t], for
    each of the three states, and a [get] of any other folder answers what
    it answered before. *)
Theorem set_then_get (m : WorkspaceTrustModel) (f : string) (t : WorkspaceTrustState) :
  exists m' effects,
    setFolderTrustState m f t = Normal (m', effects)
    /\ forall g, getFolderTrustState m' g =
                 if g =? f then t else getFolderTrustState m g.
Proof.
  destruct (setFolderTrustState_records m f t) as (m' & effects & Hset & Hrec).
  exists m', effects. split; [exact Hset|].
  intros g. unfold getFolderTrustState. rewrite Hrec.
  apply mutateFolders_lookup_any.
Qed.

Lemma map_uri_overwrite (folder : string) (state : WorkspaceTrustState)
    (l : list FolderInfo) :
  map uri (map (overwrite folder state) l) = map uri l.
Proof.
  induction l as [|info l IH]; simpl; [reflexivity|]. rewrite IH. f_equal.
  unfold overwrite. now destruct (uri info =? folder).
Qed.

Lemma existsb_map_uri (folder : string) (l : list FolderInfo) :
  existsb (fun u => u =? folder) (map uri l) =
  existsb (fun i => uri i =? folder) l.
Proof. induction l as [|i l IH]; simpl; [reflexivity | now rewrite IH]. Qed.

Lemma map_uri_filter (folder : string) (l : list FolderInfo) :
  map uri (filter (fun i => negb (uri i =? folder)) l) =
  filter (fun u => negb (u =? folder)) (map uri l).
Proof.
  induction l as [|i l IH]; simpl; [reflexivity|].
  destruct (uri i =? folder); simpl; now rewrite IH.
Qed.

Lemma NoDup_filter {A} (keep : A -> bool) (l : list A) :
  NoDup l -> NoDup (filter keep l).
Proof.
  induction 1 as [|a l Hn _ IH]; simpl; [constructor|].
  destruct (keep a); [|exact IH].
  constructor; [|exact IH]. intros H. apply filter_In in H. tauto.
Qed.

(** X2. The folders of the record set after a [set]: removing drops every
    record of the folder, a decided state keeps the folders as they are,
    in order, when the folder has a record and appends the folder at the
    end when it has none; records with pairwise different folders stay
    so. *)
Theorem set_keeps_one_record_per_folder (m : WorkspaceTrustModel) (f : string)
    (t : WorkspaceTrustState) :
  exists m' effects,
    setFolderTrustState m f t = Normal (m', effects)
    /\ folderKeys (localFolders (trustStateInfo m')) =
       (let keys := folderKeys (localFolders (trustStateInfo m)) in
        match t with
        | Unknown => filter (fun u => negb (u =? f)) keys
        | _ => if existsb (fun u => u =? f) keys then keys else keys ++ [f]
        end)
    /\ (NoDup (folderKeys (localFolders (trustStateInfo m))) ->
        NoDup (folderKeys (localFolders (trustStateInfo m')))).
Proof.
  destruct (setFolderTrustState_records m f t) as (m' & effects & Hset & Hrec).
  exists m', effects. split; [exact Hset|].
  assert (Hkeys : folderKeys (localFolders (trustStateInfo m')) =
       (let keys := folderKeys (localFolders (trustStateInfo m)) in
        match t with
        | Unknown => filter (fun u => negb (u =? f)) keys
        | _ => if existsb (fun u => u =? f) keys then keys else keys ++ [f]
        end)).
  { cbv zeta. unfold folderKeys. rewrite Hrec.
    assert (Hd : t <> Unknown ->
      map uri (fst (mutateFolders (localFolders (trustStateInfo m)) f t)) =
      if existsb (fun u => u =? f) (map uri (localFolders (trustStateInfo m)))
      then map uri (localFolders (trustStateInfo m))
      else map uri (localFolders (trustStateInfo m)) ++ [f]).
    { intros Ht. rewrite mutateFolders_decided by assumption.
      rewrite existsb_map_uri.
      destruct (existsb (fun i => uri i =? f) (localFolders (trustStateInfo m))).
      - apply map_uri_overwrite.
      - rewrite map_app, map_uri_overwrite. reflexivity. }
    destruct t; [apply Hd; discriminate | apply Hd; discriminate |].
    simpl. apply map_uri_filter. }
  split; [exact Hkeys|].
  intros Hn. rewrite Hkeys. cbv zeta.
  set (keys := folderKeys (localFolders (trustStateInfo m))) in *.
  assert (Hd : NoDup (if existsb (fun u => u =? f) keys then keys else keys ++ [f])).
  { destruct (existsb (fun u => u =? f) keys) eqn:He; [exact Hn|].
    apply NoDup_app; [exact Hn | repeat constructor; intros [] |].
    intros x Hx [<-|[]].
    assert (existsb (fun u => u =? f) keys = true); [|congruence].
    apply existsb_exists. exists f. split; [exact Hx | apply String.eqb_refl]. }
  destruct t; [exact Hd | exact Hd | now apply NoDup_filter].
Qed.

Lemma set_keeps_one_record_per_folder_witness :
  let m := {| storageService := None;
              trustStateInfo :=
                {| localFolders := [ {| uri := "file:///a"; trustState := Trusted |} ] |} |} in
  NoDup (folderKeys (localFolders (trustStateInfo m)))
  /\ exists m' effects,
      setFolderTrustState m "file:///b" Untrusted = Normal (m', effects)
      /\ folderKeys (localFolders (trustStateInfo m')) = ["file:///a"; "file:///b"]
      /\ NoDup (folderKeys (localFolders (trustStateInfo m'))).
Proof.
  intros m.
  assert (Hn : NoDup (folderKeys (localFolders (trustStateInfo m)))).
  { repeat constructor. intros []. }
  split; [exact Hn|].
  destruct (set_keeps_one_record_per_folder m "file:///b" Untrusted)
    as (m' & effects & Hset & Hkeys & Hkeep).
  exists m', effects. split; [exact Hset|]. split; [exact Hkeys | exact (Hkeep Hn)].
Defined.

Lemma filter_other_overwrite (folder : string) (state : WorkspaceTrustState)
    (l : list FolderInfo) :
  filter (fun i => negb (uri i =? folder)) (map (overwrite folder state) l) =
  filter (fun i => negb (uri i =? folder)) l.
Proof.
  induction l as [|info l IH]; simpl; [reflexivity|].
  unfold overwrite at 1 2.
  destruct (uri info =? folder) eqn:Hu; simpl; rewrite Hu; simpl; now rewrite IH.
Qed.

Lemma filter_filter_same {A} (keep : A -> bool) (l : list A) :
  filter keep (filter keep l) = filter keep l.
Proof.
  induction l as [|a l IH]; simpl; [reflexivity|].
  destruct (keep a) eqn:Hk; simpl; rewrite ?Hk, IH; reflexivity.
Qed.

(** The records of the other folders after a [set]. *)
Lemma mutateFolders_others (folder : string) (state : WorkspaceTrustState)
    (l : list FolderInfo) :
  filter (fun i => negb (uri i =? folder)) (fst (mutateFolders l folder state)) =
  filter (fun i => negb (uri i =? folder)) l.
Proof.
  destruct (trustState_eqb_spec state Unknown) as [->|Hs].
  - simpl. apply filter_filter_same.
  - rewrite mutateFolders_decided by assumption.
    destruct (existsb (fun i => uri i =? folder) l).
    + apply filter_other_overwrite.
    + rewrite filter_app, filter_other_overwrite. simpl.
      rewrite String.eqb_refl. simpl. apply app_nil_r.
Qed.

(** The records of the folder itself after a [set]. *)
Lemma mutateFolders_own (folder : string) (state : WorkspaceTrustState)
    (l : list FolderInfo) :
  forall info, In info (fst (mutateFolders l folder state)) -> uri info = folder ->
               trustState info = state /\ state <> Unknown.
Proof.
  intros info Hin Hu.
  destruct (trustState_eqb_spec state Unknown) as [->|Hs].
  - simpl in Hin. apply filter_removes in Hin. tauto.
  - split; [|exact Hs]. rewrite mutateFolders_decided in Hin by assumption.
    assert (Hmap : In info (map (overwrite folder state) l) -> trustState info = state).
    { intros H. apply in_map_iff in H as [i [Hi Hl]]. unfold overwrite in Hi.
      destruct (String.eqb_spec (uri i) folder) as [E|N]; subst; [reflexivity|].
      contradiction. }
    destruct (existsb (fun i => uri i =? folder) l); [auto|].
    apply in_app_or in Hin as [H|[H|[]]]; [auto|]. now subst.
Qed.

(** X3. A [set] rewrites every record of the folder, also when the record
    set holds several for it, and leaves the records of the other folders
    as they are, in content and in order. *)
Theorem set_rewrites_the_folder_only (m : WorkspaceTrustModel) (f : string)
    (t : WorkspaceTrustState) :
  exists m' effects,
    setFolderTrustState m f t = Normal (m', effects)
    /\ (forall info, In info (localFolders (trustStateInfo m')) -> uri info = f ->
        trustState info = t /\ t <> Unknown)
    /\ filter (fun i => negb (uri i =? f)) (localFolders (trustStateInfo m')) =
       filter (fun i => negb (uri i =? f)) (localFolders (trustStateInfo m)).
Proof.
  destruct (setFolderTrustState_records m f t) as (m' & effects & Hset & Hrec).
  exists m', effects. split; [exact Hset|]. rewrite Hrec. split.
  - apply mutateFolders_own.
  - apply mutateFolders_others.
Qed.

Lemma set_rewrites_the_folder_only_witness :
  let a := "file:///a" in
  let m := {| storageService := None;
              trustStateInfo :=
                {| localFolders := [ {| uri := a; trustState := Trusted |};
                                     {| uri := "file:///b"; trustState := Trusted |};
                                     {| uri := a; trustState := Unknown |} ] |} |} in
  exists m' effects,
    setFolderTrustState m a Untrusted = Normal (m', effects)
    /\ localFolders (trustStateInfo m') =
       [ {| uri := a; trustState := Untrusted |};
         {| uri := "file:///b"; trustState := Trusted |};
         {| uri := a; trustState := Untrusted |} ]
    /\ forall info, In info (localFolders (trustStateInfo m')) -> uri info = a ->
                    trustState info = Untrusted.
Proof.
  intros a m.
  destruct (set_rewrites_the_folder_only m a Untrusted)
    as (m' & effects & Hset & Hown & _).
  exists m', effects. split; [exact Hset|]. split.
  - rewrite setFolderTrustState_spec in Hset. cbv in Hset.
    injection Hset as <- _. reflexivity.
  - intros info Hin Hu. now apply Hown.
Defined.

Lemma isNoOp_after (folder : string) (state : WorkspaceTrustState)
    (l : list FolderInfo) :
  isNoOp (fst (mutateFolders l folder state)) folder state = true.
Proof.
  destruct (trustState_eqb_spec state Unknown) as [->|Hs].
  - simpl. apply negb_true_iff.
    destruct (existsb (fun i => uri i =? folder)
                (filter (fun i => negb (uri i =? folder)) l)) eqn:He; [|reflexivity].
    apply existsb_exists in He as [i [Hin Hi]].
    apply filter_In in Hin as [_ Hn]. rewrite Hi in Hn. discriminate.
  - assert (Hp : existsb (fun i => uri i =? folder) (fst (mutateFolders l folder state)) = true).
    { rewrite mutateFolders_decided by assumption.
      destruct (existsb (fun i => uri i =? folder) l) eqn:He.
      - now rewrite existsb_overwrite.
      - rewrite existsb_app. simpl. rewrite String.eqb_refl.
        now rewrite orb_true_r. }
    assert (Hd : existsb (differs folder state) (fst (mutateFolders l folder state)) = false).
    { destruct (existsb (differs folder state) (fst (mutateFolders l folder state)))
        eqn:He; [|reflexivity].
      apply existsb_exists in He as [i [Hin Hi]]. unfold differs in Hi.
      apply andb_true_iff in Hi as [Hu Hne].
      apply String.eqb_eq in Hu.
      destruct (mutateFolders_own folder state l i Hin Hu) as [E _].
      rewrite E, trustState_eqb_refl in Hne. discriminate. }
    destruct state; try congruence; unfold isNoOp; now rewrite Hp, Hd.
Qed.

(** X4. Setting a folder twice to the same state: the second call writes
    nothing, fires nothing and leaves the store as the first left it. *)
Theorem set_twice_is_set_once (m m1 : WorkspaceTrustModel) (f : string)
    (t : WorkspaceTrustState) (effects : list Effect) :
  setFolderTrustState m f t = Normal (m1, effects) ->
  setFolderTrustState m1 f t = Normal (m1, []).
Proof.
  intros H.
  destruct (setFolderTrustState_records m f t) as (m' & effects' & Hset & Hrec).
  rewrite Hset in H. injection H as <- _.
  rewrite setFolderTrustState_spec.
  pose proof (isNoOp_after f t (localFolders (trustStateInfo m))) as Hn.
  rewrite <- Hrec in Hn. apply isNoOp_spec in Hn.
  pose proof Hn as Hc. apply mutateFolders_changed in Hc.
  rewrite Hc, Hn. now destruct m' as [st [l]].
Qed.

Lemma set_twice_is_set_once_witness :
  let m := {| storageService := None; trustStateInfo := {| localFolders := [] |} |} in
  exists m1 effects,
    setFolderTrustState m "file:///a" Trusted = Normal (m1, effects)
    /\ effects <> []
    /\ setFolderTrustState m1 "file:///a" Trusted = Normal (m1, []).
Proof.
  intros m. eexists. eexists.
  assert (H : setFolderTrustState m "file:///a" Trusted =
              Normal ({| storageService :=
                           Some (JSON_stringify (toJS {| localFolders :=
                             [ {| uri := "file:///a"; trustState := Trusted |} ] |}));
                         trustStateInfo := {| localFolders :=
                             [ {| uri := "file:///a"; trustState := Trusted |} ] |} |},
                      [StorageStore WORKSPACE_TRUST_STORAGE_KEY
                         (JSON_stringify (toJS {| localFolders :=
                             [ {| uri := "file:///a"; trustState := Trusted |} ] |}));
                       ModelDidChangeTrustState])) by reflexivity.
  split; [exact H|]. split; [discriminate|].
  exact (set_twice_is_set_once _ _ _ _ _ H).
Defined.

(** X5. Decisions on two different folders can be taken in either order:
    both orders return, and the two stores answer every [get] alike. *)
Theorem sets_of_different_folders_commute (m : WorkspaceTrustModel)
    (f g : string) (t u : WorkspaceTrustState) :
  f <> g ->
  exists mf mfg mg mgf e1 e2 e3 e4,
    setFolderTrustState m f t = Normal (mf, e1)
    /\ setFolderTrustState mf g u = Normal (mfg, e2)
    /\ setFolderTrustState m g u = Normal (mg, e3)
    /\ setFolderTrustState mg f t = Normal (mgf, e4)
    /\ forall h, getFolderTrustState mfg h = getFolderTrustState mgf h.
Proof.
  intros Hne.
  destruct (setFolderTrustState_records m f t) as (mf & e1 & H1 & R1).
  destruct (setFolderTrustState_records mf g u) as (mfg & e2 & H2 & R2).
  destruct (setFolderTrustState_records m g u) as (mg & e3 & H3 & R3).
  destruct (setFolderTrustState_records mg f t) as (mgf & e4 & H4 & R4).
  exists mf, mfg, mg, mgf, e1, e2, e3, e4.
  repeat (split; [assumption|]).
  intros h. unfold getFolderTrustState.
  rewrite R2, R1, R4, R3, !mutateFolders_lookup_any.
  destruct (String.eqb_spec h g) as [->|]; [|reflexivity].
  destruct (String.eqb_spec g f) as [E|]; [congruence | reflexivity].
Qed.

Lemma sets_of_different_folders_commute_witness :
  let m := {| storageService := None; trustStateInfo := {| localFolders := [] |} |} in
  "file:///a" <> "file:///b"
  /\ exists mfg mgf,
      setAll [("file:///a", Trusted); ("file:///b", Untrusted)] m = Normal mfg
      /\ setAll [("file:///b", Untrusted); ("file:///a", Trusted)] m = Normal mgf
      /\ getFolderTrustState (fst mfg) "file:///a" = getFolderTrustState (fst mgf) "file:///a".
Proof.
  intros m.
  assert (Hne : "file:///a" <> "file:///b") by discriminate.
  split; [exact Hne|].
  destruct (sets_of_different_folders_commute m "file:///a" "file:///b" Trusted Untrusted Hne)
    as (mf & mfg & mg & mgf & e1 & e2 & e3 & e4 & H1 & H2 & H3 & H4 & Hget).
  exists (mfg, e1 ++ e2 ++ []), (mgf, e3 ++ e4 ++ []).
  split; [|split].
  - cbn [setAll]. rewrite H1. cbn [bind]. rewrite H2. reflexivity.
  - cbn [setAll]. rewrite H3. cbn [bind]. rewrite H4. reflexivity.
  - apply Hget.
Defined.

Lemma inSync_setAll (calls : list (string * WorkspaceTrustState)) :
  forall m m' effects,
    inSync m -> setAll calls m = Normal (m', effects) -> inSync m'.
Proof.
  induction calls as [|[folder state] rest IH]; intros m m' effects Hm; simpl.
  - intros H. now injection H as <- _.
  - destruct (setFolderTrustState m folder state) as [[m1 e1]|e] eqn:H1;
      cbn [bind]; [|discriminate].
    destruct (setAll rest m1) as [[m2 e2]|e] eqn:H2; cbn [bind]; [|discriminate].
    intros H. injection H as <- _.
    eapply IH; [|exact H2]. eapply inSync_set; eauto.
Qed.

Lemma setAll_total (calls : list (string * WorkspaceTrustState)) :
  forall m, exists m' effects, setAll calls m = Normal (m', effects).
Proof.
  induction calls as [|[folder state] rest IH]; intros m; simpl.
  - eexists. eexists. reflexivity.
  - destruct (setFolderTrustState_records m folder state) as (m1 & e1 & -> & _).
    cbn [bind]. destruct (IH m1) as (m2 & e2 & ->). cbn [bind].
    eexists. eexists. reflexivity.
Qed.

(** X6. Decisions survive a restart: after any sequence of [set] calls on
    a store that agreed with the storage, a store constructed anew on that
    storage holds the same records. *)
Theorem decisions_survive_restart (calls : list (string * WorkspaceTrustState))
    (m : WorkspaceTrustModel) :
  inSync m ->
  exists m' effects,
    setAll calls m = Normal (m', effects)
    /\ WorkspaceTrustModel_new (storageService m') = Normal m'.
Proof.
  intros Hm. destruct (setAll_total calls m) as (m' & effects & Hset).
  exists m', effects. split; [exact Hset|].
  pose proof (inSync_setAll calls m m' effects Hm Hset) as Hs.
  unfold WorkspaceTrustModel_new. unfold inSync in Hs. rewrite Hs.
  now destruct m'.
Qed.

Lemma decisions_survive_restart_witness :
  let m := {| storageService := None; trustStateInfo := {| localFolders := [] |} |} in
  inSync m
  /\ exists m' effects,
      setAll [("file:///a", Trusted); ("file:///b", Untrusted); ("file:///a", Unknown)] m =
        Normal (m', effects)
      /\ WorkspaceTrustModel_new (storageService m') = Normal m'.
Proof.
  intros m. assert (Hs : inSync m) by reflexivity.
  split; [exact Hs|].
  exact (decisions_survive_restart _ m Hs).
Defined.

Lemma lookupFolder_js_nil_props (items : list JSValue) (folder : string) :
  getFolderTrustState_js (JArr items [("localFolders", JArr [] [])]) folder =
  Normal (Some (JNum (WorkspaceTrustState_value Unknown))).
Proof. reflexivity. Qed.

(** X7. Persisted texts of values that are not objects: the text of a
    truthy boolean, number or string makes [loadTrustInfo], and with it the
    constructors of the store and of the service, throw a [TypeError] (the
    assignment to [result.localFolders] is outside the [try]); the text of
    an array is given an empty [localFolders], so that every [get] answers
    [Unknown]. *)
Theorem load_of_non_objects :
  (forall v, isPrimitive v = true -> truthy v = true ->
      loadTrustInfo (Some (JsonText v)) = Throw TypeError
      /\ WorkspaceTrustModel_new (Some (JsonText v)) = Throw TypeError
      /\ forall folders workbench setting,
           WorkspaceTrustService_new (Some (JsonText v)) folders workbench setting =
           Throw TypeError)
  /\ (forall items,
      loadTrustInfo (Some (JsonText (JArr items []))) =
        Normal (JArr items [("localFolders", JArr [] [])])
      /\ forall folder,
           getFolderTrustState_js (JArr items [("localFolders", JArr [] [])]) folder =
           Normal (Some (JNum (WorkspaceTrustState_value Unknown)))).
Proof.
  split.
  - intros v Hp Ht.
    assert (Hl : loadTrustInfo (Some (JsonText v)) = Throw TypeError).
    { unfold loadTrustInfo.
      cbn [text_truthy JSON_parse bind try_catch is_truthy]. rewrite Ht.
      destruct v; try discriminate; reflexivity. }
    split; [exact Hl|].
    assert (Hm : WorkspaceTrustModel_new (Some (JsonText v)) = Throw TypeError).
    { unfold WorkspaceTrustModel_new, load. now rewrite Hl. }
    split; [exact Hm|]. intros folders workbench setting.
    unfold WorkspaceTrustService_new. now rewrite Hm.
  - intros items. split; [reflexivity|]. intros folder.
    apply lookupFolder_js_nil_props.
Qed.

Lemma load_of_non_objects_witness :
  loadTrustInfo (Some (JsonText (JNum 5))) = Throw TypeError
  /\ loadTrustInfo (Some (JsonText (JStr "trusted"))) = Throw TypeError
  /\ WorkspaceTrustService_new (Some (JsonText (JBool true))) ["file:///a"] FOLDER (Some true) =
     Throw TypeError.
Proof.
  destruct load_of_non_objects as [A _].
  split; [|split].
  - apply (A (JNum 5)); reflexivity.
  - apply (A (JStr "trusted")); reflexivity.
  - apply (A (JBool true)); reflexivity.
Defined.

(* ===================================================================== *)
(** * Further properties of the request coordinator *)
(* ===================================================================== *)

Lemma initiateRequest_cases (m : WorkspaceTrustRequestModel)
    (request : IWorkspaceTrustRequest) :
  initiateRequest m request =
  match trustRequest m with
  | None => ({| trustRequest := Some request |}, [DidInitiateRequest])
  | Some pending =>
      if immediate request && negb (immediate pending)
      then ({| trustRequest := Some request |}, [DidInitiateRequest])
      else (m, [])
  end.
Proof.
  unfold initiateRequest. destruct (trustRequest m) as [pending|]; [|reflexivity].
  destruct (immediate request), (immediate pending); reflexivity.
Qed.

(** X8. Duplicate-prompt suppression: repeating the request that was just
    handed to [initiateRequest] changes nothing and fires nothing, whether
    the first call was accepted or not. *)
Theorem initiateRequest_repeated (m : WorkspaceTrustRequestModel)
    (request : IWorkspaceTrustRequest) :
  initiateRequest (fst (initiateRequest m request)) request =
  (fst (initiateRequest m request), []).
Proof.
  rewrite (initiateRequest_cases m request).
  destruct (trustRequest m) as [pending|] eqn:Hp.
  - destruct (immediate request) eqn:Hi, (immediate pending) eqn:Hq; cbn [andb negb fst];
      rewrite initiateRequest_cases; cbn [trustRequest]; rewrite ?Hp, ?Hi, ?Hq; reflexivity.
  - cbn [fst]. rewrite initiateRequest_cases. cbn [trustRequest].
    now destruct (immediate request).
Qed.

Lemma initiateAll_immediate (requests : list IWorkspaceTrustRequest) :
  forall m, pendingImmediate m = true -> initiateAll requests m = (m, []).
Proof.
  induction requests as [|request rest IH]; intros m Hm; simpl; [reflexivity|].
  rewrite initiateRequest_cases. unfold pendingImmediate in Hm.
  destruct (trustRequest m) as [pending|] eqn:Hp; [|discriminate].
  rewrite Hm, andb_false_r. now rewrite (IH m) by (unfold pendingImmediate; now rewrite Hp).
Qed.

Lemma initiateAll_pending (requests : list IWorkspaceTrustRequest) :
  forall m pending,
    trustRequest m = Some pending ->
    List.length (snd (initiateAll requests m)) <= 1
    /\ pendingImmediate (fst (initiateAll requests m)) =
       immediate pending || existsb immediate requests
    /\ trustRequest (fst (initiateAll requests m)) <> None.
Proof.
  induction requests as [|request rest IH]; intros m pending Hp; simpl.
  - unfold pendingImmediate. rewrite Hp, orb_false_r.
    repeat split; [lia | discriminate].
  - rewrite initiateRequest_cases, Hp.
    destruct (immediate pending) eqn:Hq.
    + rewrite andb_false_r.
      rewrite initiateAll_immediate by (unfold pendingImmediate; now rewrite Hp, Hq).
      simpl. unfold pendingImmediate. rewrite Hp, Hq.
      repeat split; [lia | discriminate].
    + destruct (immediate request) eqn:Hi; cbn [andb negb orb].
      * rewrite initiateAll_immediate by (unfold pendingImmediate; simpl; exact Hi).
        simpl. unfold pendingImmediate. simpl. rewrite Hi.
        repeat split; [lia | discriminate].
      * destruct (IH m pending Hp) as (H1 & H2 & H3).
        destruct (initiateAll rest m) as [m2 e2]. simpl in *.
        rewrite Hq in H2. auto.
Qed.

(** X9. Any sequence of [initiateRequest] calls between two completions
    fires the initiated notification at most twice, at most once when a
    request was pending at the start, and not at all when that request was
    immediate; the slot is never emptied, and the request it holds at the
    end is immediate exactly when the one at the start or one of the calls
    was. *)
Theorem initiateRequest_sequences (requests : list IWorkspaceTrustRequest)
    (m : WorkspaceTrustRequestModel) :
  List.length (snd (initiateAll requests m)) <= 2
  /\ (forall effect, In effect (snd (initiateAll requests m)) -> effect = DidInitiateRequest)
  /\ (trustRequest m <> None -> List.length (snd (initiateAll requests m)) <= 1)
  /\ (pendingImmediate m = true -> initiateAll requests m = (m, []))
  /\ (requests <> [] \/ trustRequest m <> None ->
      trustRequest (fst (initiateAll requests m)) <> None)
  /\ pendingImmediate (fst (initiateAll requests m)) =
     pendingImmediate m || existsb immediate requests.
Proof.
  assert (Hall : forall rs m0 effect,
             In effect (snd (initiateAll rs m0)) -> effect = DidInitiateRequest).
  { induction rs as [|r rs IH]; intros m0 effect; simpl; [intros []|].
    rewrite initiateRequest_cases.
    destruct (trustRequest m0) as [pending|];
      [destruct (immediate r && negb (immediate pending))|];
      match goal with
      | |- context [initiateAll rs ?x] =>
          pose proof (IH x effect) as IHx; destruct (initiateAll rs x) as [m2 e2]
      end; simpl in *; intros H; try destruct H as [H|H]; auto. }
  destruct (trustRequest m) as [pending|] eqn:Hp.
  - destruct (initiateAll_pending requests m pending Hp) as (H1 & H2 & H3).
    split; [lia|]. split; [apply Hall|]. split; [intros _; exact H1|].
    split; [apply initiateAll_immediate|]. split; [intros _; exact H3|].
    rewrite H2. unfold pendingImmediate. now rewrite Hp.
  - split; [|split; [apply Hall|split; [congruence|split; [apply initiateAll_immediate|]]]].
    + destruct requests as [|request rest]; simpl; [lia|].
      rewrite initiateRequest_cases, Hp.
      destruct (initiateAll_pending rest {| trustRequest := Some request |} request eq_refl)
        as (H1 & _).
      destruct (initiateAll rest _) as [m2 e2]. simpl in *. lia.
    + destruct requests as [|request rest]; simpl.
      * unfold pendingImmediate. rewrite Hp. split; [intros [H|H]; congruence | reflexivity].
      * rewrite initiateRequest_cases, Hp.
        destruct (initiateAll_pending rest {| trustRequest := Some request |} request eq_refl)
          as (_ & H2 & H3).
        destruct (initiateAll rest _) as [m2 e2]. simpl in *.
        split; [intros _; exact H3|]. rewrite H2.
        unfold pendingImmediate. now rewrite Hp.
Qed.

Lemma initiateRequest_sequences_witness :
  let m := {| trustRequest := Some backgroundRequest |} in
  trustRequest m <> None
  /\ List.length (snd (initiateAll [backgroundRequest; immediateRequest; immediateRequest] m)) <= 1
  /\ initiateAll [backgroundRequest; immediateRequest]
       {| trustRequest := Some immediateRequest |} =
     ({| trustRequest := Some immediateRequest |}, []).
Proof.
  intros m. assert (Hp : trustRequest m <> None) by discriminate.
  split; [exact Hp|]. split.
  - apply (initiateRequest_sequences _ m). exact Hp.
  - apply (initiateRequest_sequences _ {| trustRequest := Some immediateRequest |}).
    reflexivity.
Defined.

(* ===================================================================== *)
(** * Further properties of the service *)
(* ===================================================================== *)

(** The aggregation reads the store, the folders, the workbench state and
    the setting, and nothing else. *)
Lemma calculate_ext (s s' : WorkspaceTrustService) :
  dataModel s' = dataModel s -> _workspace s' = _workspace s ->
  workbenchState s' = workbenchState s ->
  trustEnabledSetting s' = trustEnabledSetting s ->
  calculateWorkspaceTrustState s' = calculateWorkspaceTrustState s.
Proof.
  intros Hd Hw Hb He.
  unfold calculateWorkspaceTrustState, isWorkspaceTrustEnabled.
  now rewrite Hd, Hw, Hb, He.
Qed.

Lemma calculate_sameRequestSide (s s' : WorkspaceTrustService) :
  sameRequestSide s s' -> dataModel s' = dataModel s ->
  calculateWorkspaceTrustState s' = calculateWorkspaceTrustState s.
Proof.
  intros (_ & _ & _ & Hw & _ & _ & Hb & He & _) Hd. now apply calculate_ext.
Qed.

(** The listener on the store's notification leaves the cache coherent. *)
Lemma coherent_listener (s : WorkspaceTrustService) :
  coherent (onModelDidChangeTrustState s).
Proof.
  unfold coherent, onModelDidChangeTrustState, set_currentTrustState.
  destruct (trustState_eqb_spec (_currentTrustState s) (calculateWorkspaceTrustState s))
    as [E|N]; [exact E|].
  fields. symmetry. apply calculate_ext; reflexivity.
Qed.

Lemma coherent_emit (effects : list Effect) (s : WorkspaceTrustService) :
  coherent s -> coherent (emit effects s).
Proof.
  unfold coherent. intros H. fields. rewrite H. symmetry.
  apply calculate_ext; reflexivity.
Qed.

Lemma coherent_deliver (effects : list Effect) :
  forall s, In ModelDidChangeTrustState effects \/ coherent s ->
            coherent (deliver effects s).
Proof.
  induction effects as [|e rest IH]; intros s H; simpl.
  - destruct H as [[]|H]. exact H.
  - apply IH. destruct e;
      try (destruct H as [[H|H]|H];
           [discriminate | left; exact H | right; now apply coherent_emit]).
    right. apply coherent_listener.
Qed.

Lemma coherent_set (folder : string) (state : WorkspaceTrustState)
    (s s' : WorkspaceTrustService) :
  coherent s -> dataModel_setFolderTrustState folder state s = Normal s' ->
  coherent s'.
Proof.
  intros Hc. unfold dataModel_setFolderTrustState.
  rewrite setFolderTrustState_spec.
  destruct (snd (mutateFolders _ folder state)) eqn:Hch; cbn [bind];
    intros H; injection H as <-.
  - apply coherent_listener.
  - apply mutateFolders_changed in Hch. rewrite Hch. simpl.
    unfold coherent in *. fields. rewrite Hc.
    symmetry. apply calculate_ext; try reflexivity.
    simpl. now destruct (dataModel s) as [st [l]].
Qed.

Lemma coherent_forEachFolder (folders : list string) (state : WorkspaceTrustState) :
  forall s s', coherent s -> forEachFolder folders state s = Normal s' -> coherent s'.
Proof.
  induction folders as [|folder rest IH]; intros s s' Hc; simpl.
  - intros H. now injection H as <-.
  - destruct (dataModel_setFolderTrustState folder state s) as [s1|e] eqn:H1;
      cbn [bind]; [|discriminate].
    apply IH. eapply coherent_set; eauto.
Qed.

(** Calls that do not reach the store leave the cache as coherent as it
    was. *)
Lemma coherent_trust_side (s s' : WorkspaceTrustService) :
  dataModel s' = dataModel s -> _currentTrustState s' = _currentTrustState s ->
  _workspace s' = _workspace s -> workbenchState s' = workbenchState s ->
  trustEnabledSetting s' = trustEnabledSetting s ->
  coherent s -> coherent s'.
Proof.
  unfold coherent. intros Hd Hc Hw Hb He H.
  rewrite Hc, H. symmetry. now apply calculate_ext.
Qed.

(** What [requireWorkspaceTrust] leaves alone, and what it fires. *)
Lemma requireWorkspaceTrust_trust_side (request : IWorkspaceTrustRequest)
    (s : WorkspaceTrustService) :
  dataModel (snd (requireWorkspaceTrust request s)) = dataModel s
  /\ _currentTrustState (snd (requireWorkspaceTrust request s)) = _currentTrustState s
  /\ _workspace (snd (requireWorkspaceTrust request s)) = _workspace s
  /\ workbenchState (snd (requireWorkspaceTrust request s)) = workbenchState s
  /\ trustEnabledSetting (snd (requireWorkspaceTrust request s)) = trustEnabledSetting s
  /\ exists effects,
      fired (snd (requireWorkspaceTrust request s)) = fired s ++ effects
      /\ forall e, In e effects -> e = DidInitiateRequest.
Proof.
  assert (Hnil : exists effects : list Effect,
             fired s = fired s ++ effects /\ forall e, In e effects -> e = DidInitiateRequest).
  { exists []. split; [now rewrite app_nil_r | intros e []]. }
  destruct (fastPath request s) eqn:Hf.
  - rewrite requireWorkspaceTrust_fast by assumption. cbn [snd]. repeat split. exact Hnil.
  - assert (Hi : forall s0,
        dataModel (requestModel_initiateRequest request s0) = dataModel s0
        /\ _currentTrustState (requestModel_initiateRequest request s0) = _currentTrustState s0
        /\ _workspace (requestModel_initiateRequest request s0) = _workspace s0
        /\ workbenchState (requestModel_initiateRequest request s0) = workbenchState s0
        /\ trustEnabledSetting (requestModel_initiateRequest request s0) = trustEnabledSetting s0
        /\ exists effects,
            fired (requestModel_initiateRequest request s0) = fired s0 ++ effects
            /\ forall e, In e effects -> e = DidInitiateRequest).
    { intros s0. unfold requestModel_initiateRequest.
      rewrite initiateRequest_cases.
      destruct (trustRequest (requestModel s0)) as [pending|];
        [destruct (immediate request && negb (immediate pending))|];
        fields; repeat split;
        eexists; (split; [reflexivity|]); simpl; intros e H;
        repeat destruct H as [H|H]; auto; contradiction. }
    destruct (_trustRequestPromise s) as [p|] eqn:Hp.
    + rewrite (requireWorkspaceTrust_pending _ _ p Hf Hp). cbn [snd].
      destruct (upgrades request s); [apply Hi | repeat split; exact Hnil].
    + rewrite (requireWorkspaceTrust_fresh _ _ Hf Hp). cbn [snd].
      match goal with
      | |- context [requestModel_initiateRequest request ?x] =>
          destruct (Hi x) as (A1 & A2 & A3 & A4 & A5 & effects & A6 & A7)
      end.
      fields. repeat split; try assumption. exists effects. split; assumption.
Qed.

Lemma requestModel_initiateRequest_trust_side (request : IWorkspaceTrustRequest)
    (s : WorkspaceTrustService) :
  dataModel (requestModel_initiateRequest request s) = dataModel s
  /\ _currentTrustState (requestModel_initiateRequest request s) = _currentTrustState s
  /\ _workspace (requestModel_initiateRequest request s) = _workspace s
  /\ workbenchState (requestModel_initiateRequest request s) = workbenchState s
  /\ trustEnabledSetting (requestModel_initiateRequest request s) = trustEnabledSetting s
  /\ exists effects,
      fired (requestModel_initiateRequest request s) = fired s ++ effects
      /\ forall e, In e effects -> e = DidInitiateRequest.
Proof.
  unfold requestModel_initiateRequest. rewrite initiateRequest_cases.
  destruct (trustRequest (requestModel s)) as [pending|];
    [destruct (immediate request && negb (immediate pending))|];
    fields; repeat split;
    eexists; (split; [reflexivity|]); simpl; intros e H;
    repeat destruct H as [H|H]; auto; contradiction.
Qed.

(** The state from which a completion runs its [forEach]. *)
Lemma completeRequest_unfold (decision : option WorkspaceTrustState)
    (s : WorkspaceTrustService) :
  let s1 :=
    with_trustRequestPromise None
      (with_inFlightResolver None
         (match _inFlightResolver s with
          | Some p =>
              resolve p (match decision with Some t => t | None => currentTrustState s end)
                (emit [DidCompleteRequest decision]
                   (with_requestModel {| trustRequest := None |} s))
          | None =>
              emit [DidCompleteRequest decision]
                (with_requestModel {| trustRequest := None |} s)
          end)) in
  requestModel_completeRequest decision s =
  match decision with
  | None => Normal s1
  | Some t =>
      bind (forEachFolder (_workspace s) t s1)
        (fun s2 => Normal (with_ctxWorkspaceTrustState t
                             (with_ctxWorkspaceTrustPendingRequest false s2)))
  end.
Proof.
  unfold requestModel_completeRequest, completeRequest, onTrustRequestCompleted.
  cbn [fst snd]. fields.
  destruct (_inFlightResolver s); destruct decision as [t|]; reflexivity.
Qed.

Lemma coherent_step (a : Action) (s s' : WorkspaceTrustService) :
  coherent s -> step a s = Normal s' -> coherent s'.
Proof.
  intros Hc. destruct a as [request| |request|decision|key value]; simpl.
  - intros H. injection H as <-.
    destruct (requireWorkspaceTrust_trust_side request s) as (A1 & A2 & A3 & A4 & A5 & _).
    now apply (coherent_trust_side s).
  - unfold resetWorkspaceTrust.
    destruct (negb (trustState_eqb (currentTrustState s) Unknown)).
    + destruct (forEachFolder (_workspace s) Unknown s) as [s1|e] eqn:H1;
        cbn [bind]; [|discriminate].
      intros H. injection H as <-. eapply coherent_forEachFolder; eauto.
    + cbn [bind]. intros H. now injection H as <-.
  - intros H. injection H as <-.
    destruct (requestModel_initiateRequest_trust_side request s)
      as (A1 & A2 & A3 & A4 & A5 & _).
    now apply (coherent_trust_side s).
  - rewrite completeRequest_unfold. cbv zeta.
    match goal with
    | |- context [with_trustRequestPromise None ?x] =>
        assert (Hc1 : coherent (with_trustRequestPromise None x))
    end.
    { apply (coherent_trust_side s); try assumption;
        destruct (_inFlightResolver s); reflexivity. }
    destruct decision as [t|].
    + match goal with
      | |- context [forEachFolder ?f ?t ?x] =>
          destruct (forEachFolder f t x) as [s2|e] eqn:H2; cbn [bind]; [|discriminate];
          pose proof (coherent_forEachFolder f t x s2 Hc1 H2) as Hc2
      end.
      intros H. injection H as <-.
      now apply (coherent_trust_side s2).
    + intros H. now injection H as <-.
  - unfold storageDidChange, onDidChangeValue, onDidStorageChange.
    destruct (String.eqb_spec key WORKSPACE_TRUST_STORAGE_KEY) as [->|Hk].
    + cbn [storageService]. destruct (load value) as [info|e]; cbn [bind]; [|discriminate].
      intros H. injection H as <-. apply coherent_listener.
    + cbn [bind]. intros H. injection H as <-. simpl.
      apply (coherent_trust_side s); try reflexivity; [|assumption].
      simpl. now destruct (dataModel s).
Qed.

Lemma coherent_new (storage : option StoredText) (folders : list string)
    (workbench : WorkbenchState) (setting : option bool) (s : WorkspaceTrustService) :
  WorkspaceTrustService_new storage folders workbench setting = Normal s ->
  coherent s.
Proof.
  unfold WorkspaceTrustService_new.
  destruct (WorkspaceTrustModel_new storage) as [m|e]; cbn [bind]; [|discriminate].
  intros H. injection H as <-. reflexivity.
Qed.

Lemma coherent_run (actions : list Action) :
  forall s s', coherent s -> run actions s = Normal s' -> coherent s'.
Proof.
  induction actions as [|a rest IH]; intros s s' Hc; simpl.
  - intros H. now injection H as <-.
  - destruct (step a s) as [s1|e] eqn:Hs; cbn [bind]; [|discriminate].
    apply IH. eapply coherent_step; eauto.
Qed.

(** X10. The cached state stays the aggregation of the store: after the
    constructor and after any sequence of calls (require, reset, initiate,
    complete, storage change) on a workspace whose folders, workbench state
    and setting stay as they are, [getWorkspaceTrustState] answers what
    [calculateWorkspaceTrustState] would compute. *)
Theorem cache_stays_coherent (storage : option StoredText) (folders : list string)
    (workbench : WorkbenchState) (setting : option bool) (actions : list Action)
    (s0 s : WorkspaceTrustService) :
  WorkspaceTrustService_new storage folders workbench setting = Normal s0 ->
  run actions s0 = Normal s ->
  getWorkspaceTrustState s = calculateWorkspaceTrustState s.
Proof.
  intros Hnew Hrun. eapply coherent_run; [|exact Hrun].
  eapply coherent_new; eauto.
Qed.

Lemma cache_stays_coherent_witness :
  let s0 := exampleService [] ["file:///a"] Unknown in
  let actions := [RequireWorkspaceTrust backgroundRequest;
                  CompleteRequest (Some Untrusted);
                  ResetWorkspaceTrust] in
  exists s,
    WorkspaceTrustService_new (Some (JSON_stringify (toJS {| localFolders := [] |})))
      ["file:///a"] FOLDER (Some true) = Normal s0
    /\ run actions s0 = Normal s
    /\ getWorkspaceTrustState s = calculateWorkspaceTrustState s.
Proof.
  intros s0 actions.
  assert (Hnew : WorkspaceTrustService_new
                   (Some (JSON_stringify (toJS {| localFolders := [] |})))
                   ["file:///a"] FOLDER (Some true) = Normal s0) by reflexivity.
  eexists. split; [exact Hnew|].
  assert (Hrun : run actions s0 = Normal _) by (vm_compute; reflexivity).
  split; [exact Hrun|].
  exact (cache_stays_coherent _ _ _ _ actions s0 _ Hnew Hrun).
Defined.

Lemma dataModel_set_get (folder : string) (state : WorkspaceTrustState)
    (s s' : WorkspaceTrustService) :
  dataModel_setFolderTrustState folder state s = Normal s' ->
  forall h, getFolderTrustState (dataModel s') h =
            if h =? folder then state else getFolderTrustState (dataModel s) h.
Proof.
  unfold dataModel_setFolderTrustState.
  destruct (setFolderTrustState_records (dataModel s) folder state)
    as (m' & effects & -> & Hrec).
  cbn [bind]. intros H. injection H as <-. intros h.
  destruct (deliver_frame effects (with_dataModel m' s)) as [_ Hd].
  rewrite Hd. cbn [dataModel with_dataModel].
  unfold getFolderTrustState. rewrite Hrec. apply mutateFolders_lookup_any.
Qed.

(** The store after the [forEach] of a completion or of a reset. *)
Lemma forEachFolder_get (folders : list string) (state : WorkspaceTrustState) :
  forall s s', forEachFolder folders state s = Normal s' ->
  forall h, getFolderTrustState (dataModel s') h =
            if existsb (fun f => f =? h) folders then state
            else getFolderTrustState (dataModel s) h.
Proof.
  induction folders as [|folder rest IH]; intros s s'; simpl.
  - intros H. now injection H as <-.
  - destruct (dataModel_setFolderTrustState folder state s) as [s1|e] eqn:H1;
      cbn [bind]; [|discriminate].
    intros H h. rewrite (IH s1 s' H h), (dataModel_set_get _ _ _ _ H1 h).
    rewrite (String.eqb_sym h folder).
    destruct (folder =? h), (existsb (fun f => f =? h) rest); reflexivity.
Qed.

Lemma existsb_eqb_In_string (h : string) (folders : list string) :
  existsb (fun f => f =? h) folders = true <-> In h folders.
Proof.
  rewrite existsb_exists. split.
  - intros [x [Hin Hx]]. apply String.eqb_eq in Hx. now subst.
  - intros H. exists h. split; [assumption | apply String.eqb_refl].
Qed.

Lemma enforced_spec (s : WorkspaceTrustService) :
  enforced s = true <->
  isWorkspaceTrustEnabled s = true /\ workbenchState_eqb (workbenchState s) EMPTY = false.
Proof.
  unfold enforced. rewrite andb_true_iff, negb_true_iff. tauto.
Qed.

(** The aggregation when trust is not enforced. *)
Lemma calculate_not_enforced (s : WorkspaceTrustService) :
  enforced s = false -> calculateWorkspaceTrustState s = Trusted.
Proof.
  unfold enforced, calculateWorkspaceTrustState.
  destruct (isWorkspaceTrustEnabled s); [|reflexivity].
  now destruct (workbenchState_eqb (workbenchState s) EMPTY).
Qed.

(** The aggregation when every folder of the workspace is at the same
    state. *)
Lemma calculate_uniform (s : WorkspaceTrustService) (t : WorkspaceTrustState) :
  enforced s = true ->
  (forall f, In f (_workspace s) -> getFolderTrustState (dataModel s) f = t) ->
  calculateWorkspaceTrustState s =
  match _workspace s with [] => Unknown | _ :: _ => t end.
Proof.
  intros He Hall. apply enforced_spec in He as [He Hw].
  rewrite calculate_aggregate, He, Hw. unfold aggregate, folderStates. simpl.
  destruct (_workspace s) as [|f rest] eqn:Hf; [reflexivity|].
  assert (Hs : forall x, In x (map (getFolderTrustState (dataModel s)) (f :: rest)) -> x = t).
  { intros x Hx. apply in_map_iff in Hx as [g [<- Hg]]. now apply Hall. }
  assert (Hin : In t (map (getFolderTrustState (dataModel s)) (f :: rest))).
  { simpl. left. apply Hall. simpl. auto. }
  destruct (existsb (trustState_eqb Untrusted) _) eqn:Hu.
  - apply existsb_eqb_In in Hu. now apply Hs in Hu.
  - destruct (existsb (trustState_eqb Unknown) _) eqn:Hk.
    + apply existsb_eqb_In in Hk. now apply Hs in Hk.
    + destruct t; [| reflexivity |].
      * apply existsb_eqb_In in Hin. congruence.
      * apply existsb_eqb_In in Hin. congruence.
Qed.

(** X11. A value another window stored under the key is adopted: the store
    takes the loaded records in place of its own, the store's notification
    fires once, the cached state becomes the aggregation of the new
    records and the state-change event fires exactly when that state
    differs from the one before; requests, promises and context keys are
    not touched.  A change under any other key leaves the service as it
    is. *)
Theorem storage_change_is_adopted (s : WorkspaceTrustService)
    (value : option StoredText) (info : IWorkspaceTrustStateInfo) :
  load value = Normal info ->
  (exists s',
      storageDidChange WORKSPACE_TRUST_STORAGE_KEY value s = Normal s'
      /\ dataModel s' = {| storageService := value; trustStateInfo := info |}
      /\ getWorkspaceTrustState s' = calculateWorkspaceTrustState s'
      /\ fired s' =
         fired s ++ ModelDidChangeTrustState ::
           (if trustState_eqb (_currentTrustState s) (_currentTrustState s') then []
            else [DidChangeTrustState (_currentTrustState s) (_currentTrustState s')])
      /\ sameRequestSide s s')
  /\ (forall key, key <> WORKSPACE_TRUST_STORAGE_KEY ->
      storageDidChange key value s = Normal s).
Proof.
  intros Hl. split.
  - unfold storageDidChange, onDidChangeValue, onDidStorageChange.
    rewrite String.eqb_refl. cbn [storageService]. rewrite Hl. cbn [bind].
    eexists. split; [reflexivity|].
    cbn [deliver]. unfold onModelDidChangeTrustState, set_currentTrustState.
    match goal with
    | |- context [trustState_eqb ?a ?b] => destruct (trustState_eqb_spec a b) as [E|N]
    end.
    + fields. rewrite trustState_eqb_refl.
      split; [reflexivity|]. split; [exact E|]. split; [reflexivity|]. repeat split.
    + fields. split; [reflexivity|]. split.
      { apply calculate_ext; reflexivity. }
      split; [|repeat split].
      match goal with
      | |- context [trustState_eqb ?a ?b] => destruct (trustState_eqb_spec a b) as [E'|_]
      end; [contradiction|]. now rewrite <- app_assoc.
  - intros key Hk. unfold storageDidChange, onDidChangeValue.
    apply String.eqb_neq in Hk. rewrite Hk. cbn [bind deliver].
    destruct s as [[st inf] rm cur res prom ws cs cp wb en ps fr]. reflexivity.
Qed.

Lemma storage_change_is_adopted_witness :
  let s := exampleService [] ["file:///a"] Unknown in
  let records := [ {| uri := "file:///a"; trustState := Untrusted |} ] in
  let value := Some (JSON_stringify (toJS {| localFolders := records |})) in
  load value = Normal {| localFolders := records |}
  /\ exists s',
      storageDidChange WORKSPACE_TRUST_STORAGE_KEY value s = Normal s'
      /\ getWorkspaceTrustState s' = Untrusted
      /\ fired s' = [ModelDidChangeTrustState; DidChangeTrustState Unknown Untrusted].
Proof.
  intros s records value.
  assert (Hl : load value = Normal {| localFolders := records |}) by reflexivity.
  split; [exact Hl|].
  destruct (storage_change_is_adopted s value _ Hl) as [(s' & Hs & Hd & Hc & Hf & _) _].
  exists s'. split; [exact Hs|].
  vm_compute in Hs. injection Hs as <-.
  split; reflexivity.
Defined.

(** X12. A payload without a record set arriving from the storage forgets
    every decision: every [get] answers [Unknown], and where trust is
    enforced the aggregated state becomes [Unknown]. *)
Theorem storage_change_without_records_forgets (s : WorkspaceTrustService)
    (value : option StoredText) :
  NoRecordSet value ->
  exists s',
    storageDidChange WORKSPACE_TRUST_STORAGE_KEY value s = Normal s'
    /\ (forall f, getFolderTrustState (dataModel s') f = Unknown)
    /\ (enforced s = true -> getWorkspaceTrustState s' = Unknown).
Proof.
  intros Hn. pose proof (load_NoRecordSet value Hn) as Hl.
  unfold storageDidChange, onDidChangeValue, onDidStorageChange.
  rewrite String.eqb_refl. cbn [storageService]. rewrite Hl. cbn [bind].
  eexists. split; [reflexivity|].
  match goal with
  | |- context [deliver ?e ?x] =>
      destruct (deliver_frame e x) as [Hf Hd];
      assert (Hc : coherent (deliver e x)) by (apply coherent_listener);
      set (s' := deliver e x) in *
  end.
  split.
  - intros f. rewrite Hd. reflexivity.
  - intros He. unfold getWorkspaceTrustState, currentTrustState. rewrite Hc.
    assert (He' : enforced s' = true).
    { destruct Hf as (_ & _ & _ & _ & _ & _ & Hb & Hs & _).
      unfold enforced, isWorkspaceTrustEnabled in *. now rewrite Hb, Hs. }
    rewrite (calculate_uniform s' Unknown He').
    + now destruct (_workspace s').
    + intros f _. rewrite Hd. reflexivity.
Qed.

Lemma storage_change_without_records_forgets_witness :
  let s := exampleService [ {| uri := "file:///a"; trustState := Trusted |} ]
                          ["file:///a"] Trusted in
  NoRecordSet (Some Malformed)
  /\ enforced s = true
  /\ getWorkspaceTrustState s = Trusted
  /\ exists s',
      storageDidChange WORKSPACE_TRUST_STORAGE_KEY (Some Malformed) s = Normal s'
      /\ getFolderTrustState (dataModel s') "file:///a" = Unknown
      /\ getWorkspaceTrustState s' = Unknown.
Proof.
  intros s.
  assert (Hn : NoRecordSet (Some Malformed)) by constructor.
  assert (He : enforced s = true) by reflexivity.
  split; [exact Hn|]. split; [exact He|]. split; [reflexivity|].
  destruct (storage_change_without_records_forgets s _ Hn) as (s' & Hs & Hg & Hc).
  exists s'. split; [exact Hs|]. split; [apply Hg | exact (Hc He)].
Defined.

(** A completion with a decision, by its three stages: the promise is
    resolved and cleared ([s1]), the decision is written to every folder
    ([s2]), the two context keys are set. *)
Lemma completeRequest_stages (t : WorkspaceTrustState) (s : WorkspaceTrustService) :
  exists s1 s2,
    requestModel_completeRequest (Some t) s =
      Normal (with_ctxWorkspaceTrustState t (with_ctxWorkspaceTrustPendingRequest false s2))
    /\ forEachFolder (_workspace s) t s1 = Normal s2
    /\ sameRequestSide s1 s2
    /\ dataModel s1 = dataModel s
    /\ _currentTrustState s1 = _currentTrustState s
    /\ _workspace s1 = _workspace s
    /\ workbenchState s1 = workbenchState s
    /\ trustEnabledSetting s1 = trustEnabledSetting s
    /\ fired s1 = fired s ++ [DidCompleteRequest (Some t)].
Proof.
  rewrite completeRequest_unfold. cbv zeta.
  match goal with
  | |- context [forEachFolder ?f ?t ?x] =>
      destruct (forEachFolder_total f t x) as (s2 & H2 & F); exists x, s2
  end.
  split; [now rewrite H2|]. split; [exact H2|].
  split; [exact F|]. destruct (_inFlightResolver s); repeat split.
Qed.

(** X13. A decision takes effect: where trust is enforced, the workspace
    has a folder and the cache is coherent, a completion with decision [t]
    leaves every folder of the workspace at [t], the records of other
    folders as they were, the aggregated state and the published state at
    [t], and the waiting callers resolved with [t]; after [Trusted] every
    further [requireWorkspaceTrust] is answered at once. *)
Theorem decision_takes_effect (s : WorkspaceTrustService) (t : WorkspaceTrustState) :
  coherent s -> enforced s = true -> _workspace s <> [] ->
  exists s',
    requestModel_completeRequest (Some t) s = Normal s'
    /\ (forall f, In f (_workspace s) -> getFolderTrustState (dataModel s') f = t)
    /\ (forall f, ~ In f (_workspace s) ->
        getFolderTrustState (dataModel s') f = getFolderTrustState (dataModel s) f)
    /\ getWorkspaceTrustState s' = t
    /\ _ctxWorkspaceTrustState s' = t
    /\ (forall p, _inFlightResolver s = Some p -> nth_error (promises s) p = Some None ->
        outcome (Awaits p) s' = Some t)
    /\ (t = Trusted -> forall request,
        requireWorkspaceTrust request s' = (Resolved Trusted, s')).
Proof.
  intros Hc He Hw.
  destruct (completeRequest_stages t s)
    as (s1 & s2 & Hs & H2 & F & A1 & A2 & A3 & A4 & A5 & _).
  eexists. split; [exact Hs|].
  pose proof (forEachFolder_get _ _ _ _ H2) as Hget.
  assert (Hin : forall f, In f (_workspace s) -> getFolderTrustState (dataModel s2) f = t).
  { intros f Hf. rewrite Hget.
    apply existsb_eqb_In_string in Hf. now rewrite Hf. }
  assert (Hout : forall f, ~ In f (_workspace s) ->
            getFolderTrustState (dataModel s2) f = getFolderTrustState (dataModel s) f).
  { intros f Hf. rewrite Hget, A1.
    destruct (existsb (fun g => g =? f) (_workspace s)) eqn:E; [|reflexivity].
    apply existsb_eqb_In_string in E. contradiction. }
  assert (Hc1 : coherent s1) by (now apply (coherent_trust_side s)).
  pose proof (coherent_forEachFolder _ _ _ _ Hc1 H2) as Hc2.
  destruct F as (_ & _ & _ & B4 & _ & _ & B7 & B8 & _).
  assert (He2 : enforced s2 = true).
  { unfold enforced, isWorkspaceTrustEnabled in *. now rewrite B7, B8, A4, A5. }
  assert (Hcur : _currentTrustState s2 = t).
  { rewrite Hc2, (calculate_uniform s2 t He2).
    - rewrite B4, A3. destruct (_workspace s); [contradiction | reflexivity].
    - intros f Hf. rewrite B4, A3 in Hf. now apply Hin. }
  split; [exact Hin|]. split; [exact Hout|]. split; [exact Hcur|].
  split; [reflexivity|]. split.
  - intros p Hr Hn.
    destruct (completeRequest_outcome (Some t) s p Hr Hn) as (s'' & Hs'' & Ho & _).
    rewrite Hs in Hs''. injection Hs'' as <-. exact Ho.
  - intros -> request. rewrite requireWorkspaceTrust_fast.
    + unfold currentTrustState. fields. now rewrite Hcur.
    + unfold fastPath, currentTrustState. fields. now rewrite Hcur.
Qed.

Lemma decision_takes_effect_witness :
  let s := snd (requireWorkspaceTrust backgroundRequest
                  (exampleService [] ["file:///a"; "file:///b"] Unknown)) in
  coherent s /\ enforced s = true /\ _workspace s <> []
  /\ _inFlightResolver s = Some 0 /\ nth_error (promises s) 0 = Some None
  /\ exists s',
      requestModel_completeRequest (Some Trusted) s = Normal s'
      /\ getFolderTrustState (dataModel s') "file:///b" = Trusted
      /\ getWorkspaceTrustState s' = Trusted
      /\ outcome (Awaits 0) s' = Some Trusted
      /\ requireWorkspaceTrust immediateRequest s' = (Resolved Trusted, s').
Proof.
  intros s.
  assert (Hc : coherent s) by reflexivity.
  assert (He : enforced s = true) by reflexivity.
  assert (Hw : _workspace s <> []) by discriminate.
  assert (Hr : _inFlightResolver s = Some 0) by reflexivity.
  assert (Hn : nth_error (promises s) 0 = Some None) by reflexivity.
  do 5 (split; [assumption|]).
  destruct (decision_takes_effect s Trusted Hc He Hw)
    as (s' & Hs & Hin & _ & Hcur & _ & Hout & Hfast).
  exists s'. split; [exact Hs|].
  split; [apply Hin; simpl; auto|]. split; [exact Hcur|].
  split; [exact (Hout 0 Hr Hn) | exact (Hfast eq_refl immediateRequest)].
Defined.

(** What no call changes: the folders, the workbench state and the
    setting. *)
Lemma step_environment (a : Action) (s s' : WorkspaceTrustService) :
  step a s = Normal s' ->
  _workspace s' = _workspace s
  /\ workbenchState s' = workbenchState s
  /\ trustEnabledSetting s' = trustEnabledSetting s.
Proof.
  destruct a as [request| |request|decision|key value]; simpl.
  - intros H. injection H as <-.
    destruct (requireWorkspaceTrust_trust_side request s) as (_ & _ & A3 & A4 & A5 & _).
    auto.
  - unfold resetWorkspaceTrust.
    destruct (negb (trustState_eqb (currentTrustState s) Unknown)).
    + destruct (forEachFolder_total (_workspace s) Unknown s) as (s1 & -> & F).
      cbn [bind]. intros H. injection H as <-.
      destruct F as (_ & _ & _ & B4 & _ & _ & B7 & B8 & _). auto.
    + cbn [bind]. intros H. injection H as <-. auto.
  - intros H. injection H as <-.
    destruct (requestModel_initiateRequest_trust_side request s)
      as (_ & _ & A3 & A4 & A5 & _).
    auto.
  - destruct decision as [t|].
    + destruct (completeRequest_stages t s)
        as (s1 & s2 & -> & _ & F & _ & _ & A3 & A4 & A5 & _).
      intros H. injection H as <-.
      destruct F as (_ & _ & _ & B4 & _ & _ & B7 & B8 & _).
      fields. rewrite B4, B7, B8. auto.
    + rewrite completeRequest_absent. intros H. injection H as <-.
      destruct (_inFlightResolver s); repeat split.
  - unfold storageDidChange.
    destruct (onDidChangeValue _ key) as [[m effects]|e]; cbn [bind]; [|discriminate].
    intros H. injection H as <-.
    destruct (deliver_frame effects (with_dataModel m s)) as [F _].
    destruct F as (_ & _ & _ & B4 & _ & _ & B7 & B8 & _). auto.
Qed.

Lemma not_enforced_step (a : Action) (s s' : WorkspaceTrustService) :
  enforced s = false -> coherent s -> wellFormed s ->
  promises s = [] -> _trustRequestPromise s = None ->
  step a s = Normal s' ->
  enforced s' = false /\ coherent s' /\ wellFormed s'
  /\ promises s' = [] /\ _trustRequestPromise s' = None.
Proof.
  intros He Hc W Hp Hn Hstep.
  destruct (step_environment a s s' Hstep) as (E1 & E2 & E3).
  split; [unfold enforced, isWorkspaceTrustEnabled in *; now rewrite E2, E3|].
  split; [eapply coherent_step; eauto|].
  split; [eapply wellFormed_step; eauto|].
  assert (Hcur : currentTrustState s = Trusted).
  { unfold currentTrustState. rewrite Hc. now apply calculate_not_enforced. }
  destruct a as [request| |request|decision|key value]; simpl in Hstep.
  - injection Hstep as <-. rewrite requireWorkspaceTrust_fast; [auto|].
    unfold fastPath. now rewrite Hcur.
  - unfold resetWorkspaceTrust in Hstep.
    destruct (negb (trustState_eqb (currentTrustState s) Unknown)).
    + destruct (forEachFolder_total (_workspace s) Unknown s) as (s1 & E & F).
      rewrite E in Hstep. cbn [bind] in Hstep. injection Hstep as <-.
      destruct F as (_ & _ & B3 & _ & _ & _ & _ & _ & B9). rewrite B3, B9. auto.
    + cbn [bind] in Hstep. injection Hstep as <-. auto.
  - injection Hstep as <-.
    pose proof (requestModel_initiateRequest_frame request s) as F.
    cbv zeta in F. destruct F as (_ & _ & _ & F2 & _ & F3). rewrite F2, F3. auto.
  - destruct W as [W1 _]. rewrite Hn in W1. destruct decision as [t|].
    + destruct (completeRequest_decided t s) as (s1 & E & P & P1 & _).
      rewrite E in Hstep. injection Hstep as <-. rewrite W1 in P. rewrite P, P1. auto.
    + rewrite completeRequest_absent, W1 in Hstep. injection Hstep as <-. auto.
  - unfold storageDidChange in Hstep.
    destruct (onDidChangeValue _ key) as [[m effects]|e]; cbn [bind] in Hstep;
      [|discriminate].
    injection Hstep as <-.
    destruct (deliver_frame effects (with_dataModel m s)) as [F _].
    destruct F as (_ & _ & B3 & _ & _ & _ & _ & _ & B9). rewrite B3, B9. auto.
Qed.

(** X14. Where trust is not enforced (the setting is off or unset, or the
    workbench is empty), the service stays at [Trusted] through any
    sequence of calls, creates no promise, and answers every
    [requireWorkspaceTrust] at once, whatever is recorded for the
    folders. *)
Theorem not_enforced_is_always_trusted (storage : option StoredText)
    (folders : list string) (workbench : WorkbenchState) (setting : option bool)
    (actions : list Action) (s0 s : WorkspaceTrustService) :
  WorkspaceTrustService_new storage folders workbench setting = Normal s0 ->
  enforced s0 = false ->
  run actions s0 = Normal s ->
  getWorkspaceTrustState s = Trusted
  /\ promises s = []
  /\ forall request, requireWorkspaceTrust request s = (Resolved Trusted, s).
Proof.
  intros Hnew He Hrun.
  assert (Hinv : enforced s = false /\ coherent s /\ wellFormed s
                 /\ promises s = [] /\ _trustRequestPromise s = None).
  { assert (H0 : enforced s0 = false /\ coherent s0 /\ wellFormed s0
                 /\ promises s0 = [] /\ _trustRequestPromise s0 = None).
    { split; [exact He|]. split; [eapply coherent_new; eauto|].
      split; [eapply wellFormed_new; eauto|].
      unfold WorkspaceTrustService_new in Hnew.
      destruct (WorkspaceTrustModel_new storage); cbn [bind] in Hnew; [|discriminate].
      injection Hnew as <-. auto. }
    clear Hnew He. revert s0 H0 Hrun.
    induction actions as [|a rest IH]; intros s0 H0; simpl.
    - intros H. now injection H as <-.
    - destruct (step a s0) as [s1|e] eqn:Hs; cbn [bind]; [|discriminate].
      apply IH. destruct H0 as (I1 & I2 & I3 & I4 & I5).
      eapply not_enforced_step; eauto. }
  destruct Hinv as (I1 & I2 & _ & I4 & _).
  assert (Hcur : getWorkspaceTrustState s = Trusted).
  { unfold getWorkspaceTrustState, currentTrustState. rewrite I2.
    now apply calculate_not_enforced. }
  split; [exact Hcur|]. split; [exact I4|].
  intros request. rewrite requireWorkspaceTrust_fast.
  - unfold getWorkspaceTrustState in Hcur. now rewrite Hcur.
  - unfold fastPath. unfold getWorkspaceTrustState in Hcur. now rewrite Hcur.
Qed.

Lemma not_enforced_is_always_trusted_witness :
  let records := [ {| uri := "file:///a"; trustState := Untrusted |} ] in
  let storage := Some (JSON_stringify (toJS {| localFolders := records |})) in
  let actions := [RequireWorkspaceTrust immediateRequest;
                  CompleteRequest (Some Untrusted);
                  RequireWorkspaceTrust backgroundRequest] in
  exists s0 s,
    WorkspaceTrustService_new storage ["file:///a"] FOLDER None = Normal s0
    /\ enforced s0 = false
    /\ run actions s0 = Normal s
    /\ getFolderTrustState (dataModel s) "file:///a" = Untrusted
    /\ getWorkspaceTrustState s = Trusted
    /\ promises s = [].
Proof.
  intros records storage actions. eexists. eexists.
  assert (Hnew : WorkspaceTrustService_new storage ["file:///a"] FOLDER None = Normal _)
    by (vm_compute; reflexivity).
  assert (He : enforced (exampleService_off records) = false) by reflexivity.
  assert (Hrun : run actions (exampleService_off records) = Normal _)
    by (vm_compute; reflexivity).
  split; [exact Hnew|]. split; [exact He|]. split; [exact Hrun|].
  split; [reflexivity|].
  destruct (not_enforced_is_always_trusted _ _ _ _ actions _ _ Hnew He Hrun)
    as (H1 & H2 & _).
  split; assumption.
Defined.

(** X15. [resetWorkspaceTrust] always answers [Unknown] and touches neither
    requests, promises nor context keys.  At a cached state of [Unknown] it
    leaves the service exactly as it is, records at [Trusted] included;
    otherwise it removes the records of the folders of the workspace and
    leaves all others.  With a coherent cache the aggregated state
    afterwards is [Unknown] where trust is enforced and [Trusted] where it
    is not. *)
Theorem reset_forgets_the_workspace (s : WorkspaceTrustService) :
  exists s',
    resetWorkspaceTrust s = Normal (Resolved Unknown, s')
    /\ sameRequestSide s s'
    /\ (currentTrustState s = Unknown -> s' = s)
    /\ (currentTrustState s <> Unknown ->
        forall f, getFolderTrustState (dataModel s') f =
                  if existsb (fun g => g =? f) (_workspace s) then Unknown
                  else getFolderTrustState (dataModel s) f)
    /\ (coherent s -> enforced s = true -> getWorkspaceTrustState s' = Unknown)
    /\ (coherent s -> enforced s = false -> getWorkspaceTrustState s' = Trusted).
Proof.
  unfold resetWorkspaceTrust.
  destruct (trustState_eqb_spec (currentTrustState s) Unknown) as [E|N]; cbn [negb].
  - cbn [bind]. exists s. split; [reflexivity|].
    split; [apply sameRequestSide_refl|]. split; [reflexivity|].
    split; [contradiction|]. split.
    + intros _ _. exact E.
    + intros Hc He. unfold getWorkspaceTrustState, currentTrustState.
      rewrite Hc. now apply calculate_not_enforced.
  - destruct (forEachFolder_total (_workspace s) Unknown s) as (s' & H & F).
    rewrite H. cbn [bind]. exists s'. split; [reflexivity|]. split; [exact F|].
    split; [contradiction|].
    pose proof (forEachFolder_get _ _ _ _ H) as Hget.
    split; [intros _; exact Hget|].
    destruct F as (_ & _ & _ & B4 & _ & _ & B7 & B8 & _).
    assert (Hen : enforced s' = enforced s).
    { unfold enforced, isWorkspaceTrustEnabled. now rewrite B7, B8. }
    split; intros Hc He; unfold getWorkspaceTrustState, currentTrustState;
      rewrite (coherent_forEachFolder _ _ _ _ Hc H).
    + rewrite (calculate_uniform s' Unknown) by
        (rewrite ?Hen; try assumption; intros f Hf; rewrite Hget;
         rewrite B4 in Hf; apply existsb_eqb_In_string in Hf; now rewrite Hf).
      now destruct (_workspace s').
    + apply calculate_not_enforced. now rewrite Hen.
Qed.

Lemma reset_forgets_the_workspace_witness :
  let a := "file:///a" in
  let b := "file:///b" in
  let mixed := exampleService [ {| uri := a; trustState := Trusted |} ] [a; b] Unknown in
  let decided := exampleService [ {| uri := a; trustState := Trusted |};
                                  {| uri := b; trustState := Untrusted |} ] [a; b] Untrusted in
  currentTrustState mixed = Unknown
  /\ resetWorkspaceTrust mixed = Normal (Resolved Unknown, mixed)
  /\ getFolderTrustState (dataModel mixed) a = Trusted
  /\ currentTrustState decided <> Unknown /\ coherent decided /\ enforced decided = true
  /\ exists s',
      resetWorkspaceTrust decided = Normal (Resolved Unknown, s')
      /\ getFolderTrustState (dataModel s') a = Unknown
      /\ getFolderTrustState (dataModel s') b = Unknown
      /\ getWorkspaceTrustState s' = Unknown.
Proof.
  intros a b mixed decided.
  assert (Hm : currentTrustState mixed = Unknown) by reflexivity.
  assert (Hd : currentTrustState decided <> Unknown) by discriminate.
  assert (Hc : coherent decided) by reflexivity.
  assert (He : enforced decided = true) by reflexivity.
  split; [exact Hm|]. split.
  - destruct (reset_forgets_the_workspace mixed) as (s' & Hr & _ & Hsame & _).
    rewrite Hr. now rewrite (Hsame Hm).
  - split; [reflexivity|]. do 3 (split; [assumption|]).
    destruct (reset_forgets_the_workspace decided) as (s' & Hr & _ & _ & Hget & Hcur & _).
    exists s'. split; [exact Hr|].
    split; [rewrite (Hget Hd); reflexivity|].
    split; [rewrite (Hget Hd); reflexivity | exact (Hcur Hc He)].
Defined.

Lemma nth_error_settle_pending (p : nat) (v : WorkspaceTrustState) :
  forall cells q, nth_error (settle p v cells) q = Some None ->
                  nth_error cells q = Some None /\ q <> p.
Proof.
  induction p as [|p IH]; intros [|c rest] q; simpl.
  - destruct q; discriminate.
  - destruct q as [|q]; simpl.
    + destruct c; discriminate.
    + intros H. split; [exact H | discriminate].
  - destruct q; discriminate.
  - destruct q as [|q]; simpl.
    + intros H. split; [exact H | discriminate].
    + intros H. destruct (IH rest q H) as [H1 H2]. split; [exact H1 | congruence].
Qed.

(** The promise heap after a call: as it was, with one fresh pending cell
    when no pending cell was retained, or with the resolver's cell
    settled. *)
Lemma step_promises (a : Action) (s s' : WorkspaceTrustService) :
  step a s = Normal s' ->
  promises s' = promises s
  \/ (promises s' = promises s ++ [None] /\ _trustRequestPromise s = None
      /\ _trustRequestPromise s' = Some (List.length (promises s)))
  \/ (exists p v, _inFlightResolver s = Some p /\ promises s' = settle p v (promises s)
                  /\ _trustRequestPromise s' = None).
Proof.
  destruct a as [request| |request|decision|key value]; simpl; intros Hstep.
  - injection Hstep as <-.
    destruct (fastPath request s) eqn:Hf.
    + left. now rewrite requireWorkspaceTrust_fast.
    + destruct (_trustRequestPromise s) as [p|] eqn:Hp.
      * left. now destruct (requireWorkspaceTrust_retained s request p Hp Hf)
          as (_ & _ & _ & K & _).
      * right. left. rewrite (requireWorkspaceTrust_fresh _ _ Hf Hp). cbn [snd].
        unfold requestModel_initiateRequest.
        destruct (initiateRequest _ request). repeat split.
  - left. unfold resetWorkspaceTrust in Hstep.
    destruct (negb (trustState_eqb (currentTrustState s) Unknown)).
    + destruct (forEachFolder_total (_workspace s) Unknown s) as (s1 & E & F).
      rewrite E in Hstep. cbn [bind] in Hstep. injection Hstep as <-. apply F.
    + cbn [bind] in Hstep. now injection Hstep as <-.
  - left. injection Hstep as <-. apply (requestModel_initiateRequest_frame request s).
  - destruct (_inFlightResolver s) as [p|] eqn:Hr.
    + right. right. destruct decision as [t|].
      * destruct (completeRequest_decided t s) as (s1 & E & P & P1 & _).
        rewrite E in Hstep. injection Hstep as <-. rewrite Hr in P.
        exists p, t. auto.
      * rewrite completeRequest_absent, Hr in Hstep. injection Hstep as <-.
        exists p, (currentTrustState s). repeat split.
    + left. destruct decision as [t|].
      * destruct (completeRequest_decided t s) as (s1 & E & P & _).
        rewrite E in Hstep. injection Hstep as <-. now rewrite Hr in P.
      * rewrite completeRequest_absent, Hr in Hstep. now injection Hstep as <-.
  - left. unfold storageDidChange in Hstep.
    destruct (onDidChangeValue _ key) as [[m effects]|e]; cbn [bind] in Hstep;
      [|discriminate].
    injection Hstep as <-.
    destruct (deliver_frame effects (with_dataModel m s)) as [F _]. apply F.
Qed.

Lemma initiateRequest_opt_Some (m : WorkspaceTrustRequestModel)
    (request : IWorkspaceTrustRequest) :
  initiateRequest_opt m (Some request) = Normal (initiateRequest m request).
Proof.
  unfold initiateRequest_opt, initiateRequest.
  destruct (trustRequest m) as [pending|]; [|reflexivity].
  now destruct (negb (immediate request) || immediate pending).
Qed.

Lemma requestModel_initiateRequest_opt_Some (request : IWorkspaceTrustRequest)
    (s : WorkspaceTrustService) :
  requestModel_initiateRequest_opt (Some request) s =
  Normal (requestModel_initiateRequest request s).
Proof.
  unfold requestModel_initiateRequest_opt, requestModel_initiateRequest.
  rewrite initiateRequest_opt_Some. cbn [bind].
  now destruct (initiateRequest (requestModel s) request).
Qed.

(** Given a request, the method with the optional parameter is the method
    with the mandatory one. *)
Lemma requireWorkspaceTrust_opt_Some (request : IWorkspaceTrustRequest)
    (s : WorkspaceTrustService) :
  requireWorkspaceTrust_opt (Some request) s =
  (Returned (fst (requireWorkspaceTrust request s)),
   snd (requireWorkspaceTrust request s)).
Proof.
  unfold requireWorkspaceTrust_opt, requireWorkspaceTrust, newPromise.
  cbn [immediate_opt].
  destruct (trustState_eqb (currentTrustState s) Trusted); [reflexivity|].
  destruct (trustState_eqb (currentTrustState s) Untrusted && negb (immediate request));
    [reflexivity|].
  destruct (_trustRequestPromise s) as [p|].
  - rewrite requestModel_initiateRequest_opt_Some.
    now destruct (immediate request && _).
  - now rewrite requestModel_initiateRequest_opt_Some.
Qed.

(** Given no request, the method answers at once in a decided workspace,
    hands out the retained promise when there is one, and otherwise
    retains a fresh promise: with an empty slot the slot stays empty, the
    event fires and the flag is raised; with a request in the slot (left by
    a direct [initiateRequest]) the call is rejected after the promise was
    retained and before the flag is raised. *)
Lemma requireWorkspaceTrust_opt_None (s : WorkspaceTrustService) :
  requireWorkspaceTrust_opt None s =
  if trustState_eqb (currentTrustState s) Unknown then
    match _trustRequestPromise s with
    | Some p => (Returned (Awaits p), s)
    | None =>
        let p := List.length (promises s) in
        let s1 := with_trustRequestPromise (Some p)
                    (with_inFlightResolver (Some p)
                       (with_promises (promises s ++ [None]) s)) in
        match trustRequest (requestModel s) with
        | Some _ => (Rejected TypeError, s1)
        | None =>
            (Returned (Awaits p),
             with_ctxWorkspaceTrustPendingRequest true
               (emit [DidInitiateRequest]
                  (with_requestModel {| trustRequest := None |} s1)))
        end
    end
  else (Returned (Resolved (currentTrustState s)), s).
Proof.
  unfold requireWorkspaceTrust_opt, newPromise. cbn [immediate_opt negb andb].
  destruct (currentTrustState s); cbn [trustState_eqb andb]; try reflexivity.
  destruct (_trustRequestPromise s) as [p|]; [reflexivity|].
  unfold requestModel_initiateRequest_opt, initiateRequest_opt. fields.
  now destruct (trustRequest (requestModel s)).
Qed.

(** A state that retains a fresh cell appended to the promises of a state
    that retained none. *)
Lemma fresh_promise (s s' : WorkspaceTrustService) :
  noOrphan s -> _trustRequestPromise s = None ->
  promises s' = promises s ++ [None] ->
  _inFlightResolver s' = Some (List.length (promises s)) ->
  _trustRequestPromise s' = Some (List.length (promises s)) ->
  wellFormed s' /\ noOrphan s'.
Proof.
  intros Ho Hn E Hr Hp. split.
  - split; [congruence|]. intros p Hq. rewrite Hp in Hq. injection Hq as <-.
    rewrite E, nth_error_app2 by lia. now rewrite Nat.sub_diag.
  - intros p Hq. rewrite E in Hq. rewrite Hp.
    destruct (Nat.lt_ge_cases p (List.length (promises s))) as [Hlt|Hge].
    + rewrite nth_error_app1 in Hq by assumption.
      apply Ho in Hq. congruence.
    + destruct (Nat.eq_dec p (List.length (promises s))) as [->|Hne]; [reflexivity|].
      rewrite nth_error_app2 in Hq by assumption.
      destruct (p - List.length (promises s)) as [|[|k]] eqn:Hk; simpl in Hq;
        try discriminate. lia.
Qed.

(** Every call keeps the pending promises to the retained one. *)
Lemma noOrphan_step (a : Action) (s s' : WorkspaceTrustService) :
  wellFormed s -> noOrphan s -> step a s = Normal s' -> noOrphan s'.
Proof.
  intros W Ho Hstep. destruct W as [W1 W2].
  destruct (step_promises a s s' Hstep)
    as [E|[(E & Hn & Hp')|(q & w & Hr & E & Hp')]]; intros p Hp; rewrite E in Hp.
  - pose proof (Ho p Hp) as Hq.
    destruct a as [request| |request|decision|key value]; simpl in Hstep.
    + injection Hstep as <-.
      destruct (fastPath request s) eqn:Hf;
        [now rewrite requireWorkspaceTrust_fast|].
      destruct (_trustRequestPromise s) as [p0|] eqn:Hp0; [|discriminate].
      destruct (requireWorkspaceTrust_retained s request p0 Hp0 Hf) as (_ & K & _).
      congruence.
    + unfold resetWorkspaceTrust in Hstep.
      destruct (negb (trustState_eqb (currentTrustState s) Unknown)).
      * destruct (forEachFolder_total (_workspace s) Unknown s) as (s1 & E1 & F).
        rewrite E1 in Hstep. cbn [bind] in Hstep. injection Hstep as <-.
        destruct F as (_ & _ & B3 & _). congruence.
      * cbn [bind] in Hstep. now injection Hstep as <-.
    + injection Hstep as <-.
      pose proof (requestModel_initiateRequest_frame request s) as F.
      cbv zeta in F. destruct F as (_ & _ & _ & F2 & _). congruence.
    + exfalso. rewrite <- W1 in Hq.
      destruct decision as [t|].
      * destruct (completeRequest_decided t s) as (s1 & E1 & P & _).
        rewrite E1 in Hstep. injection Hstep as <-. rewrite Hq in P.
        rewrite P in E. rewrite W1 in Hq.
        pose proof (nth_error_settle p t _ (W2 p Hq)) as Hs.
        rewrite E, Hp in Hs. discriminate.
      * rewrite completeRequest_absent, Hq in Hstep. injection Hstep as <-.
        fields. rewrite W1 in Hq.
        pose proof (nth_error_settle p (_currentTrustState s) _ (W2 p Hq)) as Hs.
        rewrite E, Hp in Hs. discriminate.
    + unfold storageDidChange in Hstep.
      destruct (onDidChangeValue _ key) as [[m effects]|e]; cbn [bind] in Hstep;
        [|discriminate].
      injection Hstep as <-.
      destruct (deliver_frame effects (with_dataModel m s)) as [F _].
      destruct F as (_ & _ & B3 & _). rewrite B3. exact Hq.
  - rewrite Hp'. destruct (Nat.lt_ge_cases p (List.length (promises s))) as [Hlt|Hge].
    + rewrite nth_error_app1 in Hp by assumption.
      apply Ho in Hp. congruence.
    + destruct (Nat.eq_dec p (List.length (promises s))) as [->|Hne]; [reflexivity|].
      rewrite nth_error_app2 in Hp by assumption.
      destruct (p - List.length (promises s)) as [|[|k]] eqn:Hk; simpl in Hp;
        try discriminate. lia.
  - exfalso. apply nth_error_settle_pending in Hp as [Hp Hne].
    apply Ho in Hp. rewrite <- W1, Hr in Hp. congruence.
Qed.

(** While every request is given, a retained promise comes with a request
    in the slot of the coordinator and with the flag raised. *)
Lemma retained_step (a : Action) (s s' : WorkspaceTrustService) :
  (_trustRequestPromise s <> None -> trustRequest (requestModel s) <> None) ->
  (_trustRequestPromise s <> None -> _ctxWorkspaceTrustPendingRequest s = true) ->
  step a s = Normal s' ->
  (_trustRequestPromise s' <> None -> trustRequest (requestModel s') <> None)
  /\ (_trustRequestPromise s' <> None -> _ctxWorkspaceTrustPendingRequest s' = true).
Proof.
  intros Hslot Hflag Hstep.
  destruct a as [request| |request|decision|key value]; simpl in Hstep.
  - injection Hstep as <-.
    destruct (fastPath request s) eqn:Hf.
    + rewrite requireWorkspaceTrust_fast by assumption. auto.
    + destruct (_trustRequestPromise s) as [p|] eqn:Hp.
      * rewrite (requireWorkspaceTrust_pending _ _ p Hf Hp). cbn [snd].
        destruct (upgrades request s) eqn:Hu.
        -- destruct (requestModel_initiateRequest_upgrade request s Hu) as [E _].
           pose proof (requestModel_initiateRequest_frame request s) as F.
           cbv zeta in F. destruct F as (_ & _ & _ & _ & F5 & _).
           rewrite E, F5. split; [discriminate | intros _; apply Hflag; congruence].
        -- rewrite Hp. auto.
      * rewrite (requireWorkspaceTrust_fresh _ _ Hf Hp). cbn [snd].
        unfold requestModel_initiateRequest. rewrite initiateRequest_cases.
        fields.
        destruct (trustRequest (requestModel s)) as [pending|] eqn:Hq;
          [destruct (immediate request && negb (immediate pending))|];
          fields; rewrite ?Hq; split; intros _; try discriminate; reflexivity.
  - unfold resetWorkspaceTrust in Hstep.
    destruct (negb (trustState_eqb (currentTrustState s) Unknown)).
    + destruct (forEachFolder_total (_workspace s) Unknown s) as (s1 & E1 & F).
      rewrite E1 in Hstep. cbn [bind] in Hstep. injection Hstep as <-.
      destruct F as (B1 & _ & B3 & _ & _ & B6 & _). rewrite B1, B3, B6. auto.
    + cbn [bind] in Hstep. injection Hstep as <-. auto.
  - injection Hstep as <-.
    pose proof (requestModel_initiateRequest_frame request s) as F.
    cbv zeta in F. destruct F as (_ & _ & _ & F2 & F5 & _). rewrite F2, F5.
    split; [|exact Hflag]. intros _.
    unfold requestModel_initiateRequest. rewrite initiateRequest_cases.
    destruct (trustRequest (requestModel s)) as [pending|] eqn:Hq;
      [destruct (immediate request && negb (immediate pending))|];
      fields; rewrite ?Hq; discriminate.
  - destruct decision as [t|].
    + destruct (completeRequest_decided t s) as (s1 & E1 & _ & P1 & _).
      rewrite E1 in Hstep. injection Hstep as <-. rewrite P1.
      split; intros H; now elim H.
    + rewrite completeRequest_absent in Hstep. injection Hstep as <-.
      split; intros H; now elim H.
  - unfold storageDidChange in Hstep.
    destruct (onDidChangeValue _ key) as [[m effects]|e]; cbn [bind] in Hstep;
      [|discriminate].
    injection Hstep as <-.
    destruct (deliver_frame effects (with_dataModel m s)) as [F _].
    destruct F as (B1 & _ & B3 & _ & _ & B6 & _). rewrite B1, B3, B6. auto.
Qed.

(** Every call, with or without a request, keeps the promise and its
    resolver together and the pending promises to the retained one. *)
Lemma promises_step_opt (c : Call) (s s' : WorkspaceTrustService) :
  wellFormed s -> noOrphan s -> step_opt c s = Normal s' ->
  wellFormed s' /\ noOrphan s'.
Proof.
  intros W Ho. destruct c as [[request|]|[request|]|a]; cbn [step_opt].
  - intros H. injection H as <-. rewrite requireWorkspaceTrust_opt_Some. cbn [snd].
    assert (Hs : step (RequireWorkspaceTrust request) s =
                 Normal (snd (requireWorkspaceTrust request s))) by reflexivity.
    split; [eapply wellFormed_step | eapply noOrphan_step]; eauto.
  - intros H. injection H as <-. rewrite requireWorkspaceTrust_opt_None.
    destruct (trustState_eqb (currentTrustState s) Unknown); [|now split].
    destruct (_trustRequestPromise s) as [p|] eqn:Hp; [now split|].
    cbv zeta.
    destruct (trustRequest (requestModel s)); cbn [snd];
      apply (fresh_promise s); auto.
  - rewrite requestModel_initiateRequest_opt_Some. intros H.
    assert (Hs : step (InitiateRequest request) s = Normal s') by exact H.
    split; [eapply wellFormed_step | eapply noOrphan_step]; eauto.
  - unfold requestModel_initiateRequest_opt, initiateRequest_opt.
    destruct (trustRequest (requestModel s)); cbn [bind]; [discriminate|].
    intros H. injection H as <-. now split.
  - intros H. split; [eapply wellFormed_step | eapply noOrphan_step]; eauto.
Qed.

(** X17. Through any sequence of calls from the constructor, whether the
    calls that take a request are given one or not: the promise and its
    resolver are set and cleared together, and every pending promise is the
    retained one, so that there is at most one and no caller waits on a
    promise the service has dropped.  Through the calls that are all given
    their request: while a promise is retained the coordinator holds a
    request and the pending-request flag is raised. *)
Theorem reachable_states (storage : option StoredText) (folders : list string)
    (workbench : WorkbenchState) (setting : option bool) (s0 : WorkspaceTrustService) :
  WorkspaceTrustService_new storage folders workbench setting = Normal s0 ->
  (forall calls s, run_opt calls s0 = Normal s ->
     _inFlightResolver s = _trustRequestPromise s
     /\ (forall p, nth_error (promises s) p = Some None <-> _trustRequestPromise s = Some p))
  /\ (forall actions s, run actions s0 = Normal s ->
      _trustRequestPromise s <> None ->
      trustRequest (requestModel s) <> None
      /\ _ctxWorkspaceTrustPendingRequest s = true).
Proof.
  intros Hnew.
  assert (W0 : wellFormed s0) by (eapply wellFormed_new; eauto).
  assert (H0 : noOrphan s0
            /\ (_trustRequestPromise s0 <> None -> trustRequest (requestModel s0) <> None)
            /\ (_trustRequestPromise s0 <> None ->
                _ctxWorkspaceTrustPendingRequest s0 = true)).
  { unfold WorkspaceTrustService_new in Hnew.
    destruct (WorkspaceTrustModel_new storage); cbn [bind] in Hnew; [|discriminate].
    injection Hnew as <-. unfold noOrphan. fields.
    split; [intros [|p]; discriminate|]. split; intros H; now elim H. }
  clear Hnew. destruct H0 as (O0 & S0 & F0). split.
  - intros calls s Hrun.
    assert (Hinv : wellFormed s /\ noOrphan s).
    { clear S0 F0. revert s0 W0 O0 Hrun.
      induction calls as [|c rest IH]; intros s0 W0 O0; simpl.
      - intros H. now injection H as <-.
      - destruct (step_opt c s0) as [s1|e] eqn:Hs; cbn [bind]; [|discriminate].
        destruct (promises_step_opt c s0 s1 W0 O0 Hs) as [W1 O1]. now apply IH. }
    destruct Hinv as ([W1 W2] & O).
    split; [exact W1|]. intros p. split; [apply O | apply W2].
  - intros actions s Hrun.
    assert (Hinv : (_trustRequestPromise s <> None -> trustRequest (requestModel s) <> None)
              /\ (_trustRequestPromise s <> None ->
                  _ctxWorkspaceTrustPendingRequest s = true)).
    { clear W0 O0. revert s0 S0 F0 Hrun.
      induction actions as [|a rest IH]; intros s0 S0 F0; simpl.
      - intros H. now injection H as <-.
      - destruct (step a s0) as [s1|e] eqn:Hs; cbn [bind]; [|discriminate].
        destruct (retained_step a s0 s1 S0 F0 Hs) as [S1 F1]. now apply IH. }
    destruct Hinv as [I1 I2]. intros H. split; auto.
Qed.

Lemma reachable_states_witness :
  let s0 := exampleService [] ["file:///a"] Unknown in
  let actions := [RequireWorkspaceTrust backgroundRequest;
                  CompleteRequest None;
                  RequireWorkspaceTrust immediateRequest] in
  let calls := [RequireCall None; OtherCall (CompleteRequest None);
                InitiateCall (Some backgroundRequest); RequireCall None] in
  exists s t,
    WorkspaceTrustService_new (Some (JSON_stringify (toJS {| localFolders := [] |})))
      ["file:///a"] FOLDER (Some true) = Normal s0
    /\ run actions s0 = Normal s
    /\ promises s = [Some Unknown; None]
    /\ _trustRequestPromise s = Some 1
    /\ trustRequest (requestModel s) <> None
    /\ _ctxWorkspaceTrustPendingRequest s = true
    /\ run_opt calls s0 = Normal t
    /\ promises t = [Some Unknown; None]
    /\ _trustRequestPromise t = Some 1
    /\ _inFlightResolver t = Some 1.
Proof.
  intros s0 actions calls. eexists. eexists.
  assert (Hnew : WorkspaceTrustService_new
                   (Some (JSON_stringify (toJS {| localFolders := [] |})))
                   ["file:///a"] FOLDER (Some true) = Normal s0) by reflexivity.
  assert (Hrun : run actions s0 = Normal _) by (vm_compute; reflexivity).
  assert (Hopt : run_opt calls s0 = Normal _) by (vm_compute; reflexivity).
  destruct (reachable_states _ _ _ _ s0 Hnew) as [Hany Hgiven].
  split; [exact Hnew|]. split; [exact Hrun|].
  match type of Hrun with
  | _ = Normal ?s =>
      assert (Hp : _trustRequestPromise s = Some 1) by reflexivity;
      split; [reflexivity|]; split; [exact Hp|];
      assert (Hne : _trustRequestPromise s <> None) by (rewrite Hp; discriminate);
      split; [exact (proj1 (Hgiven actions s Hrun Hne))|];
      split; [exact (proj2 (Hgiven actions s Hrun Hne))|]
  end.
  split; [exact Hopt|].
  match type of Hopt with
  | _ = Normal ?t =>
      assert (Hq : _trustRequestPromise t = Some 1) by reflexivity;
      split; [reflexivity|]; split; [exact Hq|];
      exact (eq_trans (proj1 (Hany calls t Hopt)) Hq)
  end.
Defined.

Lemma replay_app (effects effects' : list Effect) :
  forall current,
    replay current (effects ++ effects') =
    match replay current effects with
    | Some reached => replay reached effects'
    | None => None
    end.
Proof.
  induction effects as [|e rest IH]; intros current; simpl; [reflexivity|].
  destruct e; try apply IH.
  destruct (trustState_eqb previousTrustState current
            && negb (trustState_eqb previousTrustState currentTrustState0));
    [apply IH | reflexivity].
Qed.

Lemma replay_quiet (effects : list Effect) (current : WorkspaceTrustState) :
  forallb quiet effects = true -> replay current effects = Some current.
Proof.
  induction effects as [|e rest IH]; simpl; [reflexivity|].
  intros H. apply andb_true_iff in H as [He Hr].
  destruct e; try discriminate; now apply IH.
Qed.

Lemma continues_refl (s : WorkspaceTrustService) : continues s s.
Proof. exists []. split; [now rewrite app_nil_r | reflexivity]. Qed.

Lemma continues_trans (s1 s2 s3 : WorkspaceTrustService) :
  continues s1 s2 -> continues s2 s3 -> continues s1 s3.
Proof.
  intros (e1 & F1 & R1) (e2 & F2 & R2). exists (e1 ++ e2). split.
  - now rewrite F2, F1, app_assoc.
  - now rewrite replay_app, R1.
Qed.

Lemma continues_quiet (s s' : WorkspaceTrustService) (effects : list Effect) :
  fired s' = fired s ++ effects -> forallb quiet effects = true ->
  _currentTrustState s' = _currentTrustState s ->
  continues s s'.
Proof.
  intros Hf Hq Hc. exists effects. split; [exact Hf|].
  rewrite Hc. now apply replay_quiet.
Qed.

Lemma continues_setter (t : WorkspaceTrustState) (s : WorkspaceTrustService) :
  continues s (set_currentTrustState t s).
Proof.
  unfold set_currentTrustState.
  destruct (trustState_eqb (_currentTrustState s) t) eqn:E; [apply continues_refl|].
  exists [DidChangeTrustState (_currentTrustState s) t]. split; [reflexivity|].
  simpl. fields. now rewrite trustState_eqb_refl, E.
Qed.

Lemma continues_deliver (effects : list Effect) :
  forall s, forallb quiet effects = true -> continues s (deliver effects s).
Proof.
  induction effects as [|e rest IH]; intros s H; simpl; [apply continues_refl|].
  apply andb_true_iff in H as [He Hr].
  eapply continues_trans; [|apply IH; exact Hr].
  assert (Hemit : continues s (emit [e] s)).
  { apply (continues_quiet s (emit [e] s) [e]); [reflexivity | simpl; now rewrite He | reflexivity]. }
  destruct e; try exact Hemit.
  eapply continues_trans; [exact Hemit | apply continues_setter].
Qed.

Lemma continues_set (folder : string) (state : WorkspaceTrustState)
    (s s' : WorkspaceTrustService) :
  dataModel_setFolderTrustState folder state s = Normal s' -> continues s s'.
Proof.
  assert (G : forall m effects, forallb quiet effects = true ->
                continues s (deliver effects (with_dataModel m s))).
  { intros m effects Hq.
    eapply continues_trans; [|apply continues_deliver; exact Hq].
    apply (continues_quiet _ _ []); try reflexivity. fields. now rewrite app_nil_r. }
  unfold dataModel_setFolderTrustState.
  destruct (setFolderTrustState (dataModel s) folder state) as [[m effects]|e] eqn:Hset;
    cbn [bind]; [|discriminate].
  assert (Hq : forallb quiet effects = true).
  { rewrite setFolderTrustState_spec in Hset.
    destruct (snd (mutateFolders _ folder state)); injection Hset as _ <-; reflexivity. }
  intros H. pose proof (G m effects Hq) as Hg.
  injection H as H. rewrite <- H. exact Hg.
Qed.

Lemma continues_forEachFolder (folders : list string) (state : WorkspaceTrustState) :
  forall s s', forEachFolder folders state s = Normal s' -> continues s s'.
Proof.
  induction folders as [|folder rest IH]; intros s s'; simpl.
  - intros H. injection H as <-. apply continues_refl.
  - destruct (dataModel_setFolderTrustState folder state s) as [s1|e] eqn:H1;
      cbn [bind]; [|discriminate].
    intros H. eapply continues_trans; [eapply continues_set; eauto | eauto].
Qed.

Lemma forallb_quiet_initiated (effects : list Effect) :
  (forall e, In e effects -> e = DidInitiateRequest) -> forallb quiet effects = true.
Proof.
  intros H. apply forallb_forall. intros e He. now rewrite (H e He).
Qed.

Lemma continues_step (a : Action) (s s' : WorkspaceTrustService) :
  step a s = Normal s' -> continues s s'.
Proof.
  destruct a as [request| |request|decision|key value]; simpl.
  - intros H. injection H as <-.
    destruct (requireWorkspaceTrust_trust_side request s)
      as (_ & A2 & _ & _ & _ & effects & A6 & A7).
    apply (continues_quiet _ _ effects);
      [assumption | now apply forallb_quiet_initiated | assumption].
  - unfold resetWorkspaceTrust.
    destruct (negb (trustState_eqb (currentTrustState s) Unknown)).
    + destruct (forEachFolder (_workspace s) Unknown s) as [s1|e] eqn:H1;
        cbn [bind]; [|discriminate].
      intros H. injection H as <-. eapply continues_forEachFolder; eauto.
    + cbn [bind]. intros H. injection H as <-. apply continues_refl.
  - intros H. injection H as <-.
    destruct (requestModel_initiateRequest_trust_side request s)
      as (_ & A2 & _ & _ & _ & effects & A6 & A7).
    apply (continues_quiet _ _ effects);
      [assumption | now apply forallb_quiet_initiated | assumption].
  - destruct decision as [t|].
    + destruct (completeRequest_stages t s)
        as (s1 & s2 & -> & H2 & _ & _ & A2 & _ & _ & _ & A6).
      intros H. injection H as <-.
      eapply continues_trans;
        [apply (continues_quiet s s1 [DidCompleteRequest (Some t)]); auto|].
      eapply continues_trans; [eapply continues_forEachFolder; eauto|].
      apply (continues_quiet _ _ []); try reflexivity. fields. now rewrite app_nil_r.
    + rewrite completeRequest_absent. intros H. injection H as <-.
      apply (continues_quiet _ _ [DidCompleteRequest None]);
        destruct (_inFlightResolver s); reflexivity.
  - unfold storageDidChange, onDidChangeValue, onDidStorageChange.
    destruct (key =? WORKSPACE_TRUST_STORAGE_KEY).
    + cbn [storageService]. destruct (load value) as [info|e]; cbn [bind]; [|discriminate].
      intros H.
      match type of H with
      | Normal (deliver ?e ?x) = _ =>
          assert (Hg : continues s (deliver e x));
          [eapply continues_trans; [|apply continues_deliver; reflexivity];
           apply (continues_quiet _ _ []); try reflexivity; fields; now rewrite app_nil_r|]
      end.
      injection H as H. rewrite <- H. exact Hg.
    + cbn [bind]. intros H. injection H as <-. simpl.
      apply (continues_quiet _ _ []); try reflexivity. fields. now rewrite app_nil_r.
Qed.

(** X18. The state-change events the service has fired since its
    construction form a chain: the first starts at the state the
    constructor computed, each starts at the state the one before led to,
    each leads to a different state, and the last leads to the state
    [getWorkspaceTrustState] answers. *)
Theorem state_changes_form_a_chain (storage : option StoredText)
    (folders : list string) (workbench : WorkbenchState) (setting : option bool)
    (actions : list Action) (s0 s : WorkspaceTrustService) :
  WorkspaceTrustService_new storage folders workbench setting = Normal s0 ->
  run actions s0 = Normal s ->
  replay (getWorkspaceTrustState s0) (fired s) = Some (getWorkspaceTrustState s).
Proof.
  intros Hnew Hrun.
  assert (H0 : fired s0 = []).
  { unfold WorkspaceTrustService_new in Hnew.
    destruct (WorkspaceTrustModel_new storage); cbn [bind] in Hnew; [|discriminate].
    now injection Hnew as <-. }
  assert (Hc : continues s0 s).
  { clear Hnew H0. revert s0 Hrun.
    induction actions as [|a rest IH]; intros s0; simpl.
    - intros H. injection H as <-. apply continues_refl.
    - destruct (step a s0) as [s1|e] eqn:Hs; cbn [bind]; [|discriminate].
      intros H. eapply continues_trans; [eapply continues_step; eauto | eauto]. }
  destruct Hc as (effects & Hf & Hr). rewrite Hf, H0. exact Hr.
Qed.

Lemma state_changes_form_a_chain_witness :
  let s0 := exampleService [] ["file:///a"] Unknown in
  let actions := [RequireWorkspaceTrust backgroundRequest;
                  CompleteRequest (Some Trusted);
                  ResetWorkspaceTrust] in
  exists s,
    WorkspaceTrustService_new (Some (JSON_stringify (toJS {| localFolders := [] |})))
      ["file:///a"] FOLDER (Some true) = Normal s0
    /\ run actions s0 = Normal s
    /\ filter (fun e => negb (quiet e)) (fired s) =
       [DidChangeTrustState Unknown Trusted; DidChangeTrustState Trusted Unknown]
    /\ replay Unknown (fired s) = Some (getWorkspaceTrustState s).
Proof.
  intros s0 actions. eexists.
  assert (Hnew : WorkspaceTrustService_new
                   (Some (JSON_stringify (toJS {| localFolders := [] |})))
                   ["file:///a"] FOLDER (Some true) = Normal s0) by reflexivity.
  assert (Hrun : run actions s0 = Normal _) by (vm_compute; reflexivity).
  split; [exact Hnew|]. split; [exact Hrun|]. split; [reflexivity|].
  exact (state_changes_form_a_chain _ _ _ _ actions s0 _ Hnew Hrun).
Defined.
